(** * HippyVM object space ([hippy/objspace.py]): a shallow embedding

    The object space implements every operation on PHP values: the
    loose and strict comparator, modulo and shifts, byte-wise string
    operators, array slicing, the lenient integer scan, type names and
    callback resolution.  This file embeds those methods as Rocq
    functions and proves the properties the specification states about
    them.

    Conventions.
    - Python [int] is [Z]; lengths and loop counters that never go
      negative are [nat].
    - A Python [str] is a [string] of 8-bit [ascii] bytes.
    - Arrays, instances and reference cells have identity: they live in a
      store ([heap]) and values name them by address.
    - A method that can raise returns [res]; a method that allocates or
      calls [self.ec.warn] runs in the state monad [M].
    - Loops whose termination depends on the data ([_compare] and the
      work stack of [_compare_aggregates]) take a [fuel] argument and
      return [OutOfFuel] when it is used up. *)

From Stdlib Require Import ZArith Lia Bool List Ascii String DecimalString.
From Stdlib Require Import Floats.SpecFloat.
From stdpp Require Import base option list gmap strings.

Local Open Scope Z_scope.

(** ** Exceptions and results *)

Inductive exn : Type :=
| ValueError
| IndexError
| KeyError
| AttributeError
| TypeError
| StopIteration
| AssertionError
| NotImplementedError
| NoSuchObject  (* an address with no object behind it; Python has none *)
| InvalidCallback (msg : string)
| VisibilityError (msg_callback_static msg_callback_instance : string).

Inductive res (A : Type) : Type :=
| Ok (a : A)
| Raise (e : exn)
| OutOfFuel.

Arguments Ok {A} a.
Arguments Raise {A} e.
Arguments OutOfFuel {A}.

#[global] Instance res_ret : MRet res := fun A a => Ok a.
#[global] Instance res_bind : MBind res := fun A B f m =>
  match m with
  | Ok a => f a
  | Raise e => Raise e
  | OutOfFuel => OutOfFuel
  end.

(** ** The host language: what Python and RPython provide *)

Module Py.

Definition ord (c : ascii) : Z := Z.of_N (N_of_ascii c).
Definition chr (n : Z) : ascii := ascii_of_N (Z.to_N n).

Definition len (s : string) : nat := String.length s.

(** [s[i]] for [0 <= i]; out of range raises [IndexError]. *)
Definition getitem (s : string) (i : nat) : res ascii :=
  match String.get i s with
  | Some c => Ok c
  | None => Raise IndexError
  end.

(** [c in s] *)
Fixpoint contains (c : ascii) (s : string) : bool :=
  match s with
  | EmptyString => false
  | String d s' => Ascii.eqb c d || contains c s'
  end.

(** ['0' <= c <= '9'] *)
Definition is_digit (c : ascii) : bool :=
  (ord "0" <=? ord c) && (ord c <=? ord "9").

Definition digit_val (c : ascii) : Z := ord c - ord "0".

(** [str.lower()] on bytes: only [A-Z] change. *)
Definition lower_char (c : ascii) : ascii :=
  if (ord "A" <=? ord c) && (ord c <=? ord "Z") then chr (ord c + 32) else c.

Fixpoint lower (s : string) : string :=
  match s with
  | EmptyString => EmptyString
  | String c s' => String (lower_char c) (lower s')
  end.

Fixpoint all_digits (s : string) : bool :=
  match s with
  | EmptyString => true
  | String c s' => is_digit c && all_digits s'
  end.

Fixpoint digits_val (acc : Z) (s : string) : Z :=
  match s with
  | EmptyString => acc
  | String c s' => digits_val (10 * acc + digit_val c) s'
  end.

(** [int(s)] for a string over digits and signs: one optional sign and
    at least one digit, anything else raises [ValueError]. *)
Definition int (s : string) : res Z :=
  let unsigned (t : string) : res Z :=
    match t with
    | EmptyString => Raise ValueError
    | _ => if all_digits t then Ok (digits_val 0 t) else Raise ValueError
    end in
  match s with
  | String "-" t => z ← unsigned t; Ok (- z)
  | String "+" t => unsigned t
  | _ => unsigned s
  end.

(** ["%d" % n] *)
Definition str_of_int (n : Z) : string := NilZero.string_of_int (Z.to_int n).

(** [x < y] and [x == y] on [str]: byte-wise lexicographic. *)
Definition str_lt (x y : string) : bool :=
  match String.compare x y with Lt => true | _ => false end.

(** [for i in range(start, start + count): acc = body(i, acc)] *)
Fixpoint for_range {S : Type} (start : nat) (count : nat)
    (body : nat -> S -> res S) (acc : S) : res S :=
  match count with
  | O => Ok acc
  | Datatypes.S count' =>
      acc' ← body start acc; for_range (Datatypes.S start) count' body acc'
  end.

(** [rpython.rlib.rarithmetic.intmask]: wrap to a signed machine word
    of [bits] bits. *)
Definition intmask (bits : Z) (n : Z) : Z :=
  (n + 2 ^ (bits - 1)) mod 2 ^ bits - 2 ^ (bits - 1).

End Py.

(** ** Values

    The wrapped objects of [hippy.objects].  Ints, floats and strings are
    immutable boxes, carried by value; arrays, instances and reference
    cells are named by their address in the store.  [W_Constant] and
    [DelayedClassConstant] are compile-time placeholders that are
    resolved before an operator sees them; they have a tag (see
    [TYPENAMES]) but are not runtime operands. *)

Definition loc := positive.

Inductive resource_kind : Type :=
| W_FileResource
| W_DirResource
| W_StreamContext
| W_MysqlLinkResource
| W_MysqlResultResource
| XMLParserResource
| W_McryptResource.

Inductive W_Root : Type :=
| W_IntObject (intval : Z)
| W_FloatObject (floatval : spec_float)
| W_StringObject (strval : string)
| W_ArrayObject (a : loc)
| W_NullObject
| W_BoolObject (boolval : bool)
| W_InstanceObject (a : loc)
| W_Resource (kind : resource_kind) (res_id : Z)
| W_Reference (r : loc).

Definition w_True : W_Root := W_BoolObject true.
Definition w_False : W_Root := W_BoolObject false.
Definition w_Null : W_Root := W_NullObject.

(** A class is opaque to the object space: an identity, a name, and the
    class's own [compare] method, [None] when that method raises
    [InlineObjectComparison] (the default for user classes). *)
Record W_Class : Type := {
  klass_id : positive;
  klass_name : string;
  klass_compare : option (loc -> loc -> bool -> Z)
}.

Inductive cell : Type :=
| CArray (items : list (W_Root * W_Root))
| CInstance (klass : W_Class) (attrs : list (string * W_Root))
| CReference (w_value : W_Root).

Inductive level : Type :=
| notice | warn | error | hippy_warn | fatal | deprecated
| catchable_fatal | recoverable_fatal | strict_level.

(** The interpreter behind [self.ec.interpreter]: the store of objects
    with identity, the allocator, and the diagnostics issued so far
    (oldest first). *)
Record Interpreter : Type := {
  heap : gmap loc cell;
  next_loc : loc;
  diagnostics : list (level * string)
}.

Definition Callable := positive.

(** What the object space takes from its environment: the platform
    ([sys.maxint], the JIT's [isconstant] oracle), the float
    projections of [W_FloatObject], the projections of instances, and
    the lookups of the host interpreter used by callback resolution. *)
Record ObjSpace : Type := {
  sys_maxint : Z;
  jit_isconstant : Z -> bool;
  float_int_w : spec_float -> Z;
  float_str : spec_float -> string;
  instance_as_number : loc -> W_Root;
  instance_str : loc -> res string;
  resource_str : resource_kind -> Z -> string;
  lookup_function : string -> option Callable;
  lookup_class_or_intf : string -> option W_Class;
  get_contextclass : option W_Class;
  frame_w_this : option W_Root;
  getstaticmeth :
    W_Class -> string -> option W_Class -> option W_Root -> res Callable;
  bind : Callable -> option W_Root -> W_Class -> Callable;
  getmeth : loc -> string -> option W_Class -> res Callable;
  get_callable : loc -> option Callable
}.

(** ** Module constants *)

Definition PHP_WHITESPACE : string :=
  String " " (String (Py.chr 9) (String (Py.chr 10) (String (Py.chr 13)
    (String (Py.chr 11) (String (Py.chr 0) EmptyString))))).

Definition MASK_31_63 (self : ObjSpace) : Z :=
  if sys_maxint self =? 2 ^ 31 - 1 then 31 else 63.

(** [LONG_BIT] of [rpython.rlib.rarithmetic], the width [intmask] wraps to. *)
Definition LONG_BIT (self : ObjSpace) : Z :=
  if sys_maxint self =? 2 ^ 31 - 1 then 32 else 64.

Definition intmask (self : ObjSpace) (n : Z) : Z := Py.intmask (LONG_BIT self) n.

(** ** [my_cmp], specialised by argument type *)

Class PyOrd (A : Type) : Type := {
  py_eq : A -> A -> bool;
  py_lt : A -> A -> bool
}.

#[global] Instance PyOrd_int : PyOrd Z := {| py_eq := Z.eqb; py_lt := Z.ltb |}.
#[global] Instance PyOrd_float : PyOrd spec_float :=
  {| py_eq := SFeqb; py_lt := SFltb |}.
#[global] Instance PyOrd_bool : PyOrd bool :=
  {| py_eq := Bool.eqb; py_lt := fun a b => negb a && b |}.
#[global] Instance PyOrd_str : PyOrd string :=
  {| py_eq := String.eqb; py_lt := Py.str_lt |}.

Definition my_cmp {A : Type} `{PyOrd A} (one two : A) (ignore_order : bool) : Z :=
  if py_eq one two then 0
  else if ignore_order || py_lt one two then -1
  else 1.

(** ** Type tags *)

Definition tp_int : Z := 0.
Definition tp_float : Z := 1.
Definition tp_str : Z := 2.
Definition tp_array : Z := 3.
Definition tp_null : Z := 4.
Definition tp_bool : Z := 5.
Definition tp_object : Z := 6.
Definition tp_file_res : Z := 7.
Definition tp_dir_res : Z := 8.
Definition tp_stream_context : Z := 9.
Definition tp_mysql_link : Z := 10.
Definition tp_mysql_result : Z := 11.
Definition tp_constant : Z := 12.
Definition tp_delayed_class_const : Z := 13.
Definition tp_xmlparser_res : Z := 14.
Definition tp_mcrypt_res : Z := 15.

Definition TYPENAMES : list string :=
  ["integer"; "double"; "string"; "array"; "NULL"; "boolean";
   "object"; "resource"; "resource"; "resource";
   "resource"; "resource"; "constant"; "delayed constant";
   "resource"; "resource"]%string.

Definition resource_tp (k : resource_kind) : Z :=
  match k with
  | W_FileResource => tp_file_res
  | W_DirResource => tp_dir_res
  | W_StreamContext => tp_stream_context
  | W_MysqlLinkResource => tp_mysql_link
  | W_MysqlResultResource => tp_mysql_result
  | XMLParserResource => tp_xmlparser_res
  | W_McryptResource => tp_mcrypt_res
  end.

(** [w.tp], the class attribute set at the end of the module.  A
    reference cell has none. *)
Definition tp (w : W_Root) : res Z :=
  match w with
  | W_IntObject _ => Ok tp_int
  | W_FloatObject _ => Ok tp_float
  | W_StringObject _ => Ok tp_str
  | W_ArrayObject _ => Ok tp_array
  | W_NullObject => Ok tp_null
  | W_BoolObject _ => Ok tp_bool
  | W_InstanceObject _ => Ok tp_object
  | W_Resource k _ => Ok (resource_tp k)
  | W_Reference _ => Raise AttributeError
  end.

(** [lst[i]] with Python's negative indices. *)
Definition list_getitem {A : Type} (lst : list A) (i : Z) : res A :=
  let n := Z.of_nat (length lst) in
  let j := if i <? 0 then i + n else i in
  if (0 <=? j) && (j <? n) then
    match lst !! Z.to_nat j with
    | Some x => Ok x
    | None => Raise IndexError
    end
  else Raise IndexError.

(** ** The state monad of effectful methods *)

Definition M (A : Type) : Type := Interpreter -> res A * Interpreter.

#[global] Instance M_ret : MRet M := fun A a st => (Ok a, st).
#[global] Instance M_bind : MBind M := fun A B f m st =>
  match m st with
  | (Ok a, st') => f a st'
  | (Raise e, st') => (Raise e, st')
  | (OutOfFuel, st') => (OutOfFuel, st')
  end.

Definition lift {A : Type} (r : res A) : M A := fun st => (r, st).

Definition raise {A : Type} (e : exn) : M A := lift (Raise e).

(** [try: body except InvalidCallback as e: handler(e.msg)] *)
Definition try_except_InvalidCallback {A : Type}
    (body : M A) (handler : string -> M A) : M A := fun st =>
  match body st with
  | (Raise (InvalidCallback msg), st') => handler msg st'
  | r => r
  end.

(** The interpreter after one more diagnostic. *)
Definition with_diagnostic (st : Interpreter) (lv : level) (msg : string) : Interpreter :=
  {| heap := heap st; next_loc := next_loc st;
     diagnostics := diagnostics st ++ [(lv, msg)] |}.

Definition emit (lv : level) (msg : string) : M unit := fun st =>
  (Ok tt, with_diagnostic st lv msg).

(** [self.ec.warn(msg)] and [self.ec.notice(msg)] *)
Definition ec_warn (msg : string) : M unit := emit warn msg.
Definition ec_notice (msg : string) : M unit := emit notice msg.

Definition get_heap : M (gmap loc cell) := fun st => (Ok (heap st), st).

(** The interpreter after one more object, stored at [next_loc]. *)
Definition with_object (st : Interpreter) (c : cell) : Interpreter :=
  {| heap := <[next_loc st := c]> (heap st);
     next_loc := Pos.succ (next_loc st);
     diagnostics := diagnostics st |}.

(** A fresh object: the allocator hands out [next_loc]. *)
Definition alloc (c : cell) : M loc := fun st =>
  (Ok (next_loc st), with_object st c).

(** ** Constructors *)

Definition newint (v : Z) : W_Root := W_IntObject v.
Definition newfloat (v : spec_float) : W_Root := W_FloatObject v.
Definition newbool (v : bool) : W_Root := if v then w_True else w_False.
Definition newstr (v : string) : W_Root := W_StringObject v.

(** ** Capabilities of values

    The methods of the value classes ([hippy.objects]) that the object
    space calls.  Their code is not part of [objspace.py]. *)

Definition prec : Z := 53.
Definition emax : Z := 1024.

(** [float(n)]: the nearest double, ties to even. *)
Definition float_of_int (n : Z) : spec_float := binary_normalize prec emax n 0 false.

(** The double nearest to [(-1)^neg * m * 10^e10], for [0 <= m]. *)
Definition float_of_decimal (neg : bool) (m : Z) (e10 : Z) : spec_float :=
  match m with
  | Zpos p =>
      if 0 <=? e10 then binary_normalize prec emax ((if neg then -m else m) * 10 ^ e10) 0 neg
      else SFdiv prec emax (S754_finite neg p 0)
                           (S754_finite false (Z.to_pos (10 ^ (- e10))) 0)
  | _ => S754_zero neg
  end.

Definition is_nan (f : spec_float) : bool :=
  match f with S754_nan => true | _ => false end.

Definition is_zero (f : spec_float) : bool :=
  match f with S754_zero _ => true | _ => false end.

(** [while i < len(s) and s[i] in PHP_WHITESPACE: i += 1], as the rest
    [s[i:]] of the string. *)
Fixpoint skip_whitespace (s : string) : string :=
  match s with
  | String c s' => if Py.contains c PHP_WHITESPACE then skip_whitespace s' else s
  | EmptyString => s
  end.

(** The leading decimal digits of [s], and the rest. *)
Fixpoint span_digits (s : string) : string * string :=
  match s with
  | String c s' =>
      if Py.is_digit c then
        let '(d, r) := span_digits s' in (String c d, r)
      else (EmptyString, s)
  | EmptyString => (EmptyString, EmptyString)
  end.

(** An optional sign: whether it is a minus, and the rest. *)
Definition scan_sign (s : string) : bool * string :=
  match s with
  | String "-" t => (true, t)
  | String "+" t => (false, t)
  | _ => (false, s)
  end.

(** [n] is a native integer: [-sys.maxint - 1 <= n <= sys.maxint]. *)
Definition fits_int (self : ObjSpace) (n : Z) : bool :=
  (- sys_maxint self - 1 <=? n) && (n <=? sys_maxint self).

(** An optional [.] followed by digits: whether the dot is there, the
    digits, the rest. *)
Definition scan_fraction (s : string) : bool * string * string :=
  match s with
  | String "." t => let '(f, r) := span_digits t in (true, f, r)
  | _ => (false, EmptyString, s)
  end.

(** An optional [e[+-]?digits]: whether it is there, its value, the
    rest.  Without a digit the [e] is no part of the number. *)
Definition scan_exponent (s : string) : bool * Z * string :=
  match s with
  | String "e" t =>
      let '(eneg, t') := scan_sign t in
      let '(edigits, r) := span_digits t' in
      if Nat.eqb (Py.len edigits) 0 then (false, 0, s)
      else (true, (if eneg then - Py.digits_val 0 edigits
                   else Py.digits_val 0 edigits), r)
  | _ => (false, 0, s)
  end.

(** Modelled from the spec: [hippy.objects.convert.convert_string_to_number],
    which is not in [objspace.py].  "Leading whitespace skipped; optional
    sign; decimal digits with optional single [.] and optional
    [e[+-]?digits]; stops at first non-matching byte; empty prefix gives
    [Int 0]", returned with the "fully-consumed?" flag.  An integer
    literal outside the native range becomes a [Float] ("trapping
    overflow by conversion to Float"). *)
Definition convert_string_to_number (self : ObjSpace) (s : string) : W_Root * bool :=
  let '(neg, s2) := scan_sign (skip_whitespace s) in
  let '(ipart, s3) := span_digits s2 in
  let '(has_dot, fpart, s4) := scan_fraction s3 in
  if Nat.eqb (Py.len ipart + Py.len fpart) 0 then (W_IntObject 0, false)
  else
    let '(has_exp, e10, s5) := scan_exponent s4 in
    let fully := String.eqb s5 EmptyString in
    if negb has_dot && negb has_exp then
      let n := if neg then - Py.digits_val 0 ipart else Py.digits_val 0 ipart in
      if fits_int self n then (W_IntObject n, fully)
      else (W_FloatObject (float_of_int n), fully)
    else
      (W_FloatObject
         (float_of_decimal neg (Py.digits_val 0 (ipart +:+ fpart))
            (e10 - Z.of_nat (Py.len fpart))), fully).

Module W.

(** Modelled from the spec: [W_Reference.deref] and [W_Root.deref]
    ("one-step unwrap of a reference cell; idempotent on non-reference
    values"). *)
Definition deref (h : gmap loc cell) (w : W_Root) : res W_Root :=
  match w with
  | W_Reference r =>
      match h !! r with
      | Some (CReference w_value) => Ok w_value
      | _ => Raise NoSuchObject
      end
  | _ => Ok w
  end.

Definition deref_temp := deref.

(** Modelled from the spec: the pairs of a [W_ArrayObject], in
    insertion order ("iteration yields (key, value) pairs in insertion
    order"). *)
Definition items (h : gmap loc cell) (w : W_Root) : res (list (W_Root * W_Root)) :=
  match w with
  | W_ArrayObject a =>
      match h !! a with
      | Some (CArray its) => Ok its
      | _ => Raise NoSuchObject
      end
  | _ => Raise AttributeError
  end.

(** Modelled from the spec: [W_ArrayObject.arraylen]. *)
Definition arraylen (h : gmap loc cell) (w : W_Root) : res nat :=
  its ← items h w; Ok (length its).

(** Modelled from the spec: an instance is "class identity plus an
    ordered attribute map". *)
Definition instance (h : gmap loc cell) (w : W_Root)
    : res (W_Class * list (string * W_Root)) :=
  match w with
  | W_InstanceObject a =>
      match h !! a with
      | Some (CInstance k attrs) => Ok (k, attrs)
      | _ => Raise NoSuchObject
      end
  | _ => Raise AttributeError
  end.

Definition getclass (h : gmap loc cell) (w : W_Root) : res W_Class :=
  ka ← instance h w; Ok (fst ka).

Definition get_instance_attrs (h : gmap loc cell) (w : W_Root)
    : res (list (string * W_Root)) :=
  ka ← instance h w; Ok (snd ka).

(** [W_StringObject.unwrap]; also [str] on a value whose tag has been
    tested to be [tp_str]: the bytes. *)
Definition unwrap (w : W_Root) : res string :=
  match w with
  | W_StringObject s => Ok s
  | _ => Raise AttributeError
  end.

(** Modelled from the spec: [str], after [as_string] ("Null gives the
    empty string; Bool the empty string or ["1"]; Int, Float the
    PHP-compatible textual form; Array ["Array"] with a notice
    diagnostic; Object the host projection"). *)
Definition str (self : ObjSpace) (w : W_Root) : M string :=
  match w with
  | W_StringObject s => mret s
  | W_NullObject => mret EmptyString
  | W_BoolObject b => mret (if b then "1" else EmptyString)
  | W_IntObject z => mret (Py.str_of_int z)
  | W_FloatObject f => mret (float_str self f)
  | W_ArrayObject _ =>
      _ ← ec_notice "Array to string conversion"; mret "Array"%string
  | W_InstanceObject a => lift (instance_str self a)
  | W_Resource k id => mret (resource_str self k id)
  | W_Reference _ => raise AttributeError
  end.

(** Modelled from the spec: [is_true] ("Bool direct; Null false;
    Int x <> 0; Float x <> 0.0 and not NaN; String s non-empty and
    s <> ["0"]; Array non-empty; Object true; Resource true"). *)
Definition is_true (h : gmap loc cell) (w : W_Root) : res bool :=
  match w with
  | W_BoolObject b => Ok b
  | W_NullObject => Ok false
  | W_IntObject x => Ok (negb (x =? 0))
  | W_FloatObject x => Ok (negb (is_zero x) && negb (is_nan x))
  | W_StringObject s => Ok (negb (String.eqb s EmptyString) && negb (String.eqb s "0"))
  | W_ArrayObject _ => n ← arraylen h w; Ok (negb (Nat.eqb n 0))
  | W_InstanceObject _ => Ok true
  | W_Resource _ _ => Ok true
  | W_Reference _ => Raise AttributeError
  end.

(** Modelled from the spec: [as_number] ("Null gives Int 0; Bool gives
    Int 0|1; Int/Float themselves; String the result of the
    numeric-string parser; Array Int 0 if empty else Int 1;
    Object/Resource a host-defined numeric projection"); a resource
    projects to its integer id. *)
Definition as_number (self : ObjSpace) (h : gmap loc cell) (w : W_Root) : res W_Root :=
  match w with
  | W_NullObject => Ok (W_IntObject 0)
  | W_BoolObject b => Ok (W_IntObject (if b then 1 else 0))
  | W_IntObject _ | W_FloatObject _ => Ok w
  | W_StringObject s => Ok (fst (convert_string_to_number self s))
  | W_ArrayObject _ =>
      n ← arraylen h w; Ok (W_IntObject (if Nat.eqb n 0 then 0 else 1))
  | W_InstanceObject a => Ok (instance_as_number self a)
  | W_Resource _ id => Ok (W_IntObject id)
  | W_Reference _ => Raise AttributeError
  end.

(** Modelled from the spec: the [Int] projection of a number. *)
Definition int_w (self : ObjSpace) (h : gmap loc cell) (w : W_Root) : res Z :=
  n ← as_number self h w;
  match n with
  | W_IntObject z => Ok z
  | W_FloatObject f => Ok (float_int_w self f)
  | _ => Raise TypeError
  end.

(** Modelled from the spec: the double of a number. *)
Definition float_w (self : ObjSpace) (h : gmap loc cell) (w : W_Root) : res spec_float :=
  n ← as_number self h w;
  match n with
  | W_IntObject z => Ok (float_of_int z)
  | W_FloatObject f => Ok f
  | _ => Raise TypeError
  end.

(** Two keys are the same slot: both ints with the same value or both
    strings with the same bytes. *)
Definition key_eqb (k1 k2 : W_Root) : bool :=
  match k1, k2 with
  | W_IntObject a, W_IntObject b => a =? b
  | W_StringObject a, W_StringObject b => String.eqb a b
  | _, _ => false
  end.

Fixpoint lookup_key (its : list (W_Root * W_Root)) (k : W_Root) : option W_Root :=
  match its with
  | [] => None
  | (k', v) :: its' => if key_eqb k' k then Some v else lookup_key its' k
  end.

(** Modelled from the spec: "array key normalization: a string key
    that parses exactly as a decimal integer fitting the native int
    width is stored as Int". *)
Definition normalize_key (self : ObjSpace) (k : W_Root) : W_Root :=
  match k with
  | W_StringObject s =>
      match Py.int s with
      | Ok z =>
          if String.eqb (Py.str_of_int z) s && fits_int self z
          then W_IntObject z else k
      | _ => k
      end
  | _ => k
  end.

(** Modelled from the spec: [isset_index], whether the key has a slot. *)
Definition isset_index (self : ObjSpace) (h : gmap loc cell) (w : W_Root) (w_index : W_Root)
    : res bool :=
  its ← items h w;
  Ok (match lookup_key its (normalize_key self w_index) with
      | Some _ => true
      | None => false
      end).

(** Modelled from the spec: [getitem] without notice ("undefined index
    yields Null"). *)
Definition getitem (self : ObjSpace) (h : gmap loc cell) (w : W_Root) (w_index : W_Root)
    : res W_Root :=
  its ← items h w;
  Ok (match lookup_key its (normalize_key self w_index) with
      | Some v => v
      | None => w_Null
      end).

(** Modelled from the spec: "keys preserve insertion order; duplicate
    insertion overwrites in place". *)
Fixpoint set_key (its : list (W_Root * W_Root)) (k v : W_Root) : list (W_Root * W_Root) :=
  match its with
  | [] => [(k, v)]
  | (k', v') :: its' =>
      if key_eqb k' k then (k', v) :: its' else (k', v') :: set_key its' k v
  end.

(** Modelled from the spec: the constructor [from_pairs]. *)
Definition new_array_from_pairs (self : ObjSpace) (pairs_ww : list (W_Root * W_Root))
    : M W_Root :=
  a ← alloc (CArray (fold_left
                       (fun its kv => set_key its (normalize_key self (fst kv)) (snd kv))
                       pairs_ww []));
  mret (W_ArrayObject a).

(** Modelled from the spec: the constructor [from_list]; the keys are
    [0, 1, ...]. *)
Definition new_array_from_list (self : ObjSpace) (lst_w : list W_Root) : M W_Root :=
  a ← alloc (CArray (imap (fun i w => (W_IntObject (Z.of_nat i), w)) lst_w));
  mret (W_ArrayObject a).

End W.

(** ** [ObjSpace]: forwarding methods *)

Definition int_w (self : ObjSpace) (h : gmap loc cell) (w_obj : W_Root) : res Z :=
  w ← W.deref h w_obj; W.int_w self h w.

Definition float_w (self : ObjSpace) (h : gmap loc cell) (w_obj : W_Root) : res spec_float :=
  w ← W.deref h w_obj; W.float_w self h w.

Definition is_true (self : ObjSpace) (h : gmap loc cell) (w_obj : W_Root) : res bool :=
  w ← W.deref h w_obj; W.is_true h w.

Definition as_number (self : ObjSpace) (h : gmap loc cell) (w_v : W_Root) : res W_Root :=
  w ← W.deref h w_v; W.as_number self h w.

Definition arraylen (self : ObjSpace) (h : gmap loc cell) (w_obj : W_Root) : res nat :=
  w ← W.deref_temp h w_obj; W.arraylen h w.

(** [str_w] where the operand's tag has been tested to be [tp_str]. *)
Definition str_w_str (self : ObjSpace) (h : gmap loc cell) (w_v : W_Root) : res string :=
  w ← W.deref h w_v; W.unwrap w.

Definition str_w (self : ObjSpace) (w_v : W_Root) : M string :=
  h ← get_heap; w ← lift (W.deref h w_v); W.str self w.

(** ** Type names *)

Definition gettypename (self : ObjSpace) (h : gmap loc cell) (w_obj : W_Root) : res string :=
  w_obj ← W.deref h w_obj;
  match w_obj with
  | W_InstanceObject _ =>
      k ← W.getclass h w_obj; Ok ("instance of " +:+ klass_name k)
  | _ =>
      t ← tp w_obj; name ← list_getitem TYPENAMES t; Ok (Py.lower name)
  end.

Definition get_type_name (self : ObjSpace) (tp : Z) : res string :=
  name ← list_getitem TYPENAMES tp; Ok (Py.lower name).

(** ** The lenient integer scan *)

(** [for c in s: ...] of [_force_int_from_str]: digits and signs are
    appended to [decstr], the first other byte ends the loop. *)
Fixpoint scan_decstr (s : string) (decstr : string) : string :=
  match s with
  | String c s' =>
      if Py.is_digit c then scan_decstr s' (decstr +:+ String c EmptyString)
      else if Ascii.eqb c "-" then scan_decstr s' (decstr +:+ String c EmptyString)
      else if Ascii.eqb c "+" then scan_decstr s' (decstr +:+ String c EmptyString)
      else decstr
  | EmptyString => decstr
  end.

Definition _force_int_from_str (self : ObjSpace) (h : gmap loc cell) (w_obj : W_Root) : res Z :=
  s ← str_w_str self h w_obj;
  let decstr := scan_decstr (skip_whitespace s) EmptyString in
  if String.eqb decstr EmptyString then Ok 0
  else Py.int decstr.

Definition force_int (self : ObjSpace) (h : gmap loc cell) (w_obj : W_Root) : res Z :=
  t ← tp w_obj;
  if t =? tp_str then _force_int_from_str self h w_obj
  else if t =? tp_int then int_w self h w_obj
  else n ← W.as_number self h w_obj; W.int_w self h n.

(** ** Modulo and shifts *)

Definition _mod (self : ObjSpace) (left right : Z) : M W_Root :=
  if right =? 0 then
    _ ← ec_warn "Division by zero"; mret w_False
  else if right =? -1 then
    mret (newint 0)
  else
    let z := left mod right in
    let z :=
      if negb (z =? 0) && (((left <? 0) && (right >? 0)) || ((left >? 0) && (right <? 0)))
      then z - right else z in
    mret (newint z).

Definition mod_ (self : ObjSpace) (w_left w_right : W_Root) : M W_Root :=
  h ← get_heap;
  left ← lift (force_int self h w_left);
  right ← lift (force_int self h w_right);
  _mod self left right.

Definition lshift (self : ObjSpace) (h : gmap loc cell) (w_left w_right : W_Root) : res W_Root :=
  left ← force_int self h w_left;
  right ← force_int self h w_right;
  let z := intmask self (Z.shiftl left (Z.land right (MASK_31_63 self))) in
  Ok (W_IntObject z).

Definition rshift (self : ObjSpace) (h : gmap loc cell) (w_left w_right : W_Root) : res W_Root :=
  left ← force_int self h w_left;
  right ← force_int self h w_right;
  let z := intmask self (Z.shiftr left (Z.land right (MASK_31_63 self))) in
  Ok (W_IntObject z).

(** ** Bitwise operators *)

Definition isinstance_W_StringObject (w : W_Root) : bool :=
  match w with W_StringObject _ => true | _ => false end.

(** [StringBuilder]: the bytes appended so far; [build] makes the string. *)
Definition or_string (self : ObjSpace) (w_left w_right : W_Root) : res W_Root :=
  left ← W.unwrap w_left;
  right ← W.unwrap w_right;
  let swapped :=
    if Nat.ltb (Py.len left) (Py.len right) then (right, left) else (left, right) in
  let left := fst swapped in
  let right := snd swapped in
  s ← Py.for_range 0 (Py.len right)
        (fun i s =>
           l ← Py.getitem left i; r ← Py.getitem right i;
           Ok (s ++ [Py.chr (Z.lor (Py.ord l) (Py.ord r))])) [];
  s ← Py.for_range (Py.len right) (Py.len left - Py.len right)
        (fun i s => l ← Py.getitem left i; Ok (s ++ [l])) s;
  Ok (newstr (string_of_list_ascii s)).

Definition or_ (self : ObjSpace) (h : gmap loc cell) (w_left w_right : W_Root) : res W_Root :=
  if isinstance_W_StringObject w_left && isinstance_W_StringObject w_right then
    or_string self w_left w_right
  else
    left ← W.int_w self h w_left;
    right ← W.int_w self h w_right;
    Ok (newint (Z.lor left right)).

Definition string_func (bitwise_op : Z -> Z -> Z) (w_left w_right : W_Root) : res W_Root :=
  left ← W.unwrap w_left;
  right ← W.unwrap w_right;
  let n := Nat.min (Py.len left) (Py.len right) in
  s ← Py.for_range 0 n
        (fun i s =>
           l ← Py.getitem left i; r ← Py.getitem right i;
           Ok (s ++ [Py.chr (bitwise_op (Py.ord l) (Py.ord r))])) [];
  Ok (newstr (string_of_list_ascii s)).

Definition _new_bitwise (bitwise_op : Z -> Z -> Z)
    (self : ObjSpace) (h : gmap loc cell) (w_left w_right : W_Root) : res W_Root :=
  if isinstance_W_StringObject w_left && isinstance_W_StringObject w_right then
    string_func bitwise_op w_left w_right
  else
    left ← W.int_w self h w_left;
    right ← W.int_w self h w_right;
    Ok (newint (bitwise_op left right)).

Definition and_ := _new_bitwise Z.land.
Definition xor := _new_bitwise Z.lxor.

(** ** Arrays *)

Definition getitem (self : ObjSpace) (h : gmap loc cell) (w_obj w_item : W_Root) : res W_Root :=
  w_arr ← W.deref_temp h w_obj;
  w_index ← W.deref h w_item;
  W.getitem self h w_arr w_index.

Definition new_array_from_list (self : ObjSpace) (lst_w : list W_Root) : M W_Root :=
  W.new_array_from_list self lst_w.

Definition new_array_from_pairs (self : ObjSpace) (pairs_ww : list (W_Root * W_Root)) : M W_Root :=
  W.new_array_from_pairs self pairs_ww.

(** [while not itr.done(): w_key, w_value = itr.next_item(self); ...] of
    [slice], with the loop's variables [next_idx], [res_arr] and [idx]. *)
Fixpoint slice_loop (start shift : Z) (keep_keys keep_str_keys : bool)
    (itr : list (W_Root * W_Root))
    (next_idx : Z) (res_arr : list (W_Root * W_Root)) (idx : Z)
    : res (list (W_Root * W_Root)) :=
  match itr with
  | [] => Ok res_arr
  | (w_key, w_value) :: itr =>
      '(next_idx, res_arr) ←
        (if (start <=? idx) && (idx <? start + shift) then
           if keep_keys then Ok (next_idx, res_arr ++ [(w_key, w_value)])
           else if keep_str_keys then
             t ← tp w_key;
             if t =? tp_str then Ok (next_idx, res_arr ++ [(w_key, w_value)])
             else Ok (next_idx + 1, res_arr ++ [(newint next_idx, w_value)])
           else Ok (next_idx + 1, res_arr ++ [(newint next_idx, w_value)])
         else Ok (next_idx, res_arr));
      slice_loop start shift keep_keys keep_str_keys itr next_idx res_arr (idx + 1)
  end.

Definition slice (self : ObjSpace) (w_arr : W_Root) (start shift : Z)
    (keep_keys keep_str_keys : bool) : M W_Root :=
  h ← get_heap;
  if shift =? 0 then new_array_from_list self []
  else
    n ← lift (arraylen self h w_arr);
    if Nat.eqb n 0 then new_array_from_list self []
    else if start >? Z.of_nat n then new_array_from_list self []
    else
      let start := if start <? 0 then Z.of_nat n + start else start in
      let shift := if shift <? 0 then Z.of_nat n + shift - start else shift in
      w ← lift (W.deref h w_arr);
      itr ← lift (W.items h w);
      res_arr ← lift (slice_loop start shift keep_keys keep_str_keys itr 0 [] 0);
      new_array_from_pairs self res_arr.

(** ** The comparator *)

(** Python's [is].  Arrays, instances and reference cells are compared
    by address, resources by their id; [w_Null], [w_True] and [w_False]
    are prebuilt singletons.  The boxes of ints, floats and strings
    carry no address in this model: two occurrences are two objects. *)
Definition is_ (w1 w2 : W_Root) : bool :=
  match w1, w2 with
  | W_ArrayObject a, W_ArrayObject b => Pos.eqb a b
  | W_InstanceObject a, W_InstanceObject b => Pos.eqb a b
  | W_Reference a, W_Reference b => Pos.eqb a b
  | W_Resource k1 i1, W_Resource k2 i2 => (resource_tp k1 =? resource_tp k2) && (i1 =? i2)
  | W_NullObject, W_NullObject => true
  | W_BoolObject a, W_BoolObject b => Bool.eqb a b
  | _, _ => false
  end.

(** A Python list used as a stack: [append] adds at the end, [pop] takes
    from the end. *)
Definition pop {A : Type} (st : list A) : res (A * list A) :=
  match rev st with
  | x :: r => Ok (x, rev r)
  | [] => Raise IndexError
  end.

(** [obj_st] and [new_st] hold values or the sentinel [None]. *)
Definition obj_stack : Type := list (option W_Root).

(** How a loop body ends: the function returns, the loop is left by
    [break], or the next iteration starts. *)
Inductive control (S : Type) : Type :=
| Return (z : Z)
| Break (s : S)
| Continue (s : S).

Arguments Return {S} z.
Arguments Break {S} s.
Arguments Continue {S} s.

Definition is_aggregate_tp (t : Z) : bool := (t =? tp_array) || (t =? tp_object).

(** [new_st.append(a); new_st.append(b)], allocating [new_st] if it is
    still [None]. *)
Definition new_st_append2 (new_st : option obj_stack) (a b : option W_Root) : option obj_stack :=
  match new_st with
  | None => Some [a; b]
  | Some st => Some (st ++ [a; b])
  end.

Definition isNone {A : Type} (o : option A) : bool :=
  match o with None => true | Some _ => false end.

(** The variables of an element loop: [new_st], [obj_st], [strict_st]. *)
Definition loop_vars : Type := option obj_stack * obj_stack * list bool.

Section Aggregates.

(** [self._compare], as the loops below call it. *)
Variable _compare : W_Root -> W_Root -> bool -> bool -> res Z.
Variable self : ObjSpace.
Variable h : gmap loc cell.
Variable ignore_order : bool.

(** The tail of both element loops, from the two [deref]s on.  In the
    array loop a pushed pair takes [strict] onto [strict_st], in the
    object loop [False]: that is [strict_pushed]. *)
Definition compare_values (strict strict_pushed : bool)
    (w_left_val w_right_val : W_Root)
    (new_st : option obj_stack) (obj_st : obj_stack) (strict_st : list bool)
    : res (control loop_vars) :=
  w_left_val ← W.deref h w_left_val;
  w_right_val ← W.deref h w_right_val;
  if is_ w_left_val w_right_val then Ok (Continue (new_st, obj_st, strict_st))
  else
    left_val_tp ← tp w_left_val;
    right_val_tp ← tp w_right_val;
    if is_aggregate_tp left_val_tp && is_aggregate_tp right_val_tp then
      if ignore_order then
        Ok (Continue (new_st, obj_st ++ [Some w_left_val; Some w_right_val],
                      strict_st ++ [strict_pushed]))
      else
        Ok (Continue (new_st_append2 new_st (Some w_right_val) (Some w_left_val),
                      obj_st, strict_st))
    else
      cmp_res ← _compare w_left_val w_right_val strict ignore_order;
      if negb (cmp_res =? 0) then
        if ignore_order || isNone new_st then Ok (Return cmp_res)
        else
          Ok (Break (new_st_append2 new_st (Some w_right_val) (Some w_left_val),
                     obj_st, strict_st))
      else Ok (Continue (new_st, obj_st, strict_st)).

(** [while not left_itr.done(): ...] over two arrays: [inl] when the
    function returns inside the loop, [inr] with the loop's variables
    when the loop is left. *)
Fixpoint array_loop (w_right : W_Root) (strict : bool)
    (left_itr right_itr : list (W_Root * W_Root))
    (new_st : option obj_stack) (obj_st : obj_stack) (strict_st : list bool)
    : res (Z + loop_vars) :=
  match left_itr with
  | [] => Ok (inr (new_st, obj_st, strict_st))
  | (w_key, w_left_val) :: left_itr =>
      match right_itr with
      | [] => Raise StopIteration
      | (w_rkey, w_right_val) :: right_itr =>
          found ←
            (if W.key_eqb w_key w_rkey then Ok (Some w_right_val)
             else
               isset ← W.isset_index self h w_right w_key;
               if negb isset then Ok None
               else v ← getitem self h w_right w_key; Ok (Some v));
          match found with
          | None =>
              if ignore_order then Ok (inl (-1))
              else Ok (inr (new_st_append2 new_st None None, obj_st, strict_st))
          | Some w_right_val =>
              r ← compare_values strict strict w_left_val w_right_val
                    new_st obj_st strict_st;
              match r with
              | Return z => Ok (inl z)
              | Break vars => Ok (inr vars)
              | Continue (new_st, obj_st, strict_st) =>
                  array_loop w_right strict left_itr right_itr new_st obj_st strict_st
              end
          end
      end
  end.

(** [right[key]] on the ordered attribute map. *)
Fixpoint dict_get (d : list (string * W_Root)) (key : string) : option W_Root :=
  match d with
  | [] => None
  | (k, v) :: d' => if String.eqb k key then Some v else dict_get d' key
  end.

(** [for key, w_left_val in left_attr_itr: ...] over two instances.
    After a [KeyError] with [new_st] allocated the pair is appended
    and the body goes on with the parallel [w_right_val]. *)
Fixpoint object_loop (right_attrs : list (string * W_Root)) (strict : bool)
    (left_attr_itr right_attr_itr : list (string * W_Root))
    (new_st : option obj_stack) (obj_st : obj_stack) (strict_st : list bool)
    : res (Z + loop_vars) :=
  match left_attr_itr with
  | [] => Ok (inr (new_st, obj_st, strict_st))
  | (key, w_left_val) :: left_attr_itr =>
      match right_attr_itr with
      | [] => Raise StopIteration
      | (r_key, w_right_val) :: right_attr_itr =>
          let looked_up : Z + (W_Root * option obj_stack) :=
            if negb (String.eqb key r_key) then
              match dict_get right_attrs key with
              | Some v => inr (v, new_st)
              | None =>
                  if ignore_order || isNone new_st then inl (-1)
                  else inr (w_right_val,
                            new_st_append2 new_st (Some w_right_val) (Some w_left_val))
              end
            else inr (w_right_val, new_st) in
          match looked_up with
          | inl z => Ok (inl z)
          | inr (w_right_val, new_st) =>
              r ← compare_values strict false w_left_val w_right_val
                    new_st obj_st strict_st;
              match r with
              | Return z => Ok (inl z)
              | Break vars => Ok (inr vars)
              | Continue (new_st, obj_st, strict_st) =>
                  object_loop right_attrs strict left_attr_itr right_attr_itr
                    new_st obj_st strict_st
              end
          end
      end
  end.

(** [while len(new_st) > 0: obj_st.append(new_st.pop());
    obj_st.append(new_st.pop()); strict_st.append(strict)], on the
    entries of [new_st] in the order they are popped. *)
Fixpoint drain (popped : obj_stack) (strict : bool)
    (obj_st : obj_stack) (strict_st : list bool) : res (obj_stack * list bool) :=
  match popped with
  | [] => Ok (obj_st, strict_st)
  | a :: b :: popped' => drain popped' strict (obj_st ++ [a; b]) (strict_st ++ [strict])
  | [_] => Raise IndexError
  end.

(** [if new_st is not None: ...] after an element loop. *)
Definition after_loop (strict : bool) (r : Z + loop_vars)
    : res (control (obj_stack * list bool)) :=
  match r with
  | inl z => Ok (Return z)
  | inr (None, obj_st, strict_st) => Ok (Continue (obj_st, strict_st))
  | inr (Some new_st, obj_st, strict_st) =>
      st ← drain (rev new_st) strict obj_st strict_st; Ok (Continue st)
  end.

(** The generic comparison of two instances, inlined after
    [InlineObjectComparison]. *)
Definition inline_object_comparison (w_left w_right : W_Root) (strict : bool)
    (obj_st : obj_stack) (strict_st : list bool)
    : res (control (obj_stack * list bool)) :=
  if is_ w_left w_right then Ok (Continue (obj_st, strict_st))
  else
    left_klass ← W.getclass h w_left;
    right_klass ← W.getclass h w_right;
    if strict || negb (Pos.eqb (klass_id left_klass) (klass_id right_klass))
    then Ok (Return 1)
    else
      left ← W.get_instance_attrs h w_left;
      right ← W.get_instance_attrs h w_right;
      if Z.of_nat (length left) - Z.of_nat (length right) <? 0 then Ok (Return (-1))
      else if Z.of_nat (length left) - Z.of_nat (length right) >? 0 then Ok (Return 1)
      else
        r ← object_loop right strict left right None obj_st strict_st;
        after_loop false r.

(** One iteration of [while len(obj_st) > 0], from the three [pop]s on. *)
Definition aggregates_step (obj_st : obj_stack) (strict_st : list bool)
    : res (control (obj_stack * list bool)) :=
  '(w_right, obj_st) ← pop obj_st;
  '(w_left, obj_st) ← pop obj_st;
  '(strict, strict_st) ← pop strict_st;
  match w_left, w_right with
  | None, None => Ok (Return 1)
  | None, Some _ => Raise AssertionError
  | Some _, None => Raise AttributeError
  | Some w_left, Some w_right =>
      left_tp ← tp w_left;
      right_tp ← tp w_right;
      if (left_tp =? tp_array) && (right_tp =? tp_array) then
        if is_ w_left w_right then Ok (Continue (obj_st, strict_st))
        else
          w_left_len ← W.arraylen h w_left;
          w_right_len ← W.arraylen h w_right;
          if Nat.ltb w_left_len w_right_len then Ok (Return (-1))
          else if Nat.ltb w_right_len w_left_len then Ok (Return 1)
          else
            left_itr ← W.items h w_left;
            right_itr ← W.items h w_right;
            r ← array_loop w_right strict left_itr right_itr None obj_st strict_st;
            after_loop strict r
      else if (left_tp =? tp_object) && (right_tp =? tp_object) then
        left_klass ← W.getclass h w_left;
        match klass_compare left_klass, w_left, w_right with
        | Some compare, W_InstanceObject a, W_InstanceObject b =>
            let res := compare a b strict in
            if negb (res =? 0) then Ok (Return res)
            else Ok (Continue (obj_st, strict_st))
        | _, _, _ => inline_object_comparison w_left w_right strict obj_st strict_st
        end
      else
        cmp_res ← _compare w_left w_right strict ignore_order;
        if negb (cmp_res =? 0) then Ok (Return cmp_res)
        else Ok (Continue (obj_st, strict_st))
  end.

(** [while len(obj_st) > 0: ...; return 0] *)
Fixpoint aggregates_loop (fuel : nat) (obj_st : obj_stack) (strict_st : list bool)
    : res Z :=
  match fuel with
  | O => OutOfFuel
  | S fuel =>
      match obj_st with
      | [] => Ok 0
      | _ =>
          r ← aggregates_step obj_st strict_st;
          match r with
          | Return z => Ok z
          | Break _ => Ok 0
          | Continue (obj_st, strict_st) => aggregates_loop fuel obj_st strict_st
          end
      end
  end.

Definition _compare_aggregates (fuel : nat) (w_left w_right : W_Root) (strict : bool)
    : res Z :=
  w_left ← W.deref h w_left;
  w_right ← W.deref h w_right;
  aggregates_loop fuel [Some w_left; Some w_right] [strict].

(** The work stack at the head of the loop after [n] iterations, or how
    the loop ended before. *)
Fixpoint aggregates_iterate (n : nat) (obj_st : obj_stack) (strict_st : list bool)
    : res (control (obj_stack * list bool)) :=
  match n with
  | O => Ok (Continue (obj_st, strict_st))
  | S n =>
      r ← aggregates_step obj_st strict_st;
      match r with
      | Continue (obj_st, strict_st) => aggregates_iterate n obj_st strict_st
      | _ => Ok r
      end
  end.

End Aggregates.

Section Compare.

Variable self : ObjSpace.
Variable h : gmap loc cell.
(** The recursive calls of [self._compare], and the fuel left for the
    work-stack loop of [_compare_aggregates]. *)
Variable _compare : W_Root -> W_Root -> bool -> bool -> res Z.
Variable fuel : nat.

(** The body of [_compare]. *)
Definition _compare_body (w_left w_right : W_Root) (strict ignore_order : bool) : res Z :=
  w_left ← W.deref h w_left;
  w_right ← W.deref h w_right;
  left_tp ← tp w_left;
  right_tp ← tp w_right;
  if strict && negb (left_tp =? right_tp) then Ok 1
  else if (left_tp =? tp_float) && (right_tp =? tp_float) then
    l ← float_w self h w_left; r ← float_w self h w_right;
    Ok (my_cmp l r ignore_order)
  else if (left_tp =? tp_int) && (right_tp =? tp_float) then
    l ← float_w self h w_left; r ← float_w self h w_right;
    Ok (my_cmp l r ignore_order)
  else if (left_tp =? tp_float) && (right_tp =? tp_int) then
    l ← float_w self h w_left; r ← float_w self h w_right;
    Ok (my_cmp l r ignore_order)
  else if (left_tp =? tp_int) && (right_tp =? tp_int) then
    l ← int_w self h w_left; r ← int_w self h w_right;
    Ok (my_cmp l r ignore_order)
  else if (left_tp =? tp_array) && (right_tp =? tp_array) then
    if is_ w_left w_right then Ok 0
    else
      w_left_len ← W.arraylen h w_left;
      w_right_len ← W.arraylen h w_right;
      if Nat.ltb w_left_len w_right_len then Ok (-1)
      else if Nat.ltb w_right_len w_left_len then Ok 1
      else
        _compare_aggregates _compare self h ignore_order fuel w_left w_right strict
  else if (left_tp =? tp_null) && (right_tp =? tp_null) then Ok 0
  else if (left_tp =? tp_null) && (right_tp =? tp_bool) then
    b ← is_true self h w_right; Ok (if (b : bool) then -1 else 0)
  else if (left_tp =? tp_bool) && (right_tp =? tp_null) then
    b ← is_true self h w_left; Ok (if (b : bool) then 1 else 0)
  else if (left_tp =? tp_bool) && (right_tp =? tp_bool) then
    l ← is_true self h w_left; r ← is_true self h w_right;
    Ok (my_cmp l r ignore_order)
  else if (left_tp =? tp_str) && (right_tp =? tp_str) then
    left ← str_w_str self h w_left;
    right ← str_w_str self h w_right;
    let bytewise := Ok (my_cmp left right ignore_order) in
    if negb strict then
      let left_length := Py.len left in
      let right_length := Py.len right in
      if jit_isconstant self (Z.of_nat left_length) && Nat.eqb left_length 1
         && jit_isconstant self (Z.of_nat right_length) && Nat.eqb right_length 1
      then
        l0 ← Py.getitem left 0; r0 ← Py.getitem right 0;
        Ok (my_cmp (Py.ord l0) (Py.ord r0) ignore_order)
      else
        let '(w_right_num, right_valid) := convert_string_to_number self right in
        if right_valid then
          let '(w_left_num, left_valid) := convert_string_to_number self left in
          if left_valid then _compare w_left_num w_right_num false ignore_order
          else bytewise
        else bytewise
    else bytewise
  else if (left_tp =? tp_null) && (right_tp =? tp_str) then
    r ← str_w_str self h w_right; Ok (my_cmp EmptyString r ignore_order)
  else if (left_tp =? tp_str) && (right_tp =? tp_null) then
    l ← str_w_str self h w_left; Ok (my_cmp l EmptyString ignore_order)
  else if (left_tp =? tp_object) && (right_tp =? tp_null) then Ok 1
  else if (left_tp =? tp_null) && (right_tp =? tp_object) then Ok (-1)
  else if (left_tp =? tp_object) && (right_tp =? tp_object) then
    if is_ w_left w_right then Ok 0
    else
      _compare_aggregates _compare self h ignore_order fuel w_left w_right strict
  else
    if left_tp =? tp_null then
      b ← is_true self h w_right; Ok (if (b : bool) then -1 else 0)
    else if right_tp =? tp_null then
      b ← is_true self h w_left; Ok (if (b : bool) then 1 else 0)
    else if (left_tp =? tp_bool) || (right_tp =? tp_bool) then
      l ← is_true self h w_left; r ← is_true self h w_right;
      Ok (my_cmp l r ignore_order)
    else if left_tp =? tp_array then Ok 1
    else if right_tp =? tp_array then Ok (-1)
    else if left_tp =? tp_object then Ok 1
    else if right_tp =? tp_object then Ok (-1)
    else
      l ← as_number self h w_left; r ← as_number self h w_right;
      _compare l r false ignore_order.

End Compare.

(** [_compare].  [fuel] bounds the nesting of calls and, inside
    [_compare_aggregates], the iterations of the work-stack loop. *)
Fixpoint _compare (fuel : nat) (self : ObjSpace) (h : gmap loc cell)
    (w_left w_right : W_Root) (strict ignore_order : bool) {struct fuel} : res Z :=
  match fuel with
  | O => OutOfFuel
  | S fuel =>
      _compare_body self h (_compare fuel self h) fuel w_left w_right strict ignore_order
  end.

Definition is_w (fuel : nat) (self : ObjSpace) (h : gmap loc cell) (w_a w_b : W_Root)
    : res bool :=
  r ← _compare fuel self h w_a w_b true true; Ok (r =? 0).

Definition eq_w (fuel : nat) (self : ObjSpace) (h : gmap loc cell) (w_left w_right : W_Root)
    : res bool :=
  r ← _compare fuel self h w_left w_right false true; Ok (r =? 0).

(** ** Callback resolution *)

Definition is_alpha_ (c : ascii) : bool :=
  ((Py.ord "a" <=? Py.ord c) && (Py.ord c <=? Py.ord "z"))
  || ((Py.ord "A" <=? Py.ord c) && (Py.ord c <=? Py.ord "Z"))
  || Ascii.eqb c "_".

Definition backslash : ascii := Py.chr 92.

Fixpoint is_valid_clsname_rest (name : string) : bool :=
  match name with
  | EmptyString => true
  | String c name' =>
      if negb (is_alpha_ c || Py.is_digit c || Ascii.eqb c backslash) then false
      else is_valid_clsname_rest name'
  end.

Definition is_valid_clsname (self : ObjSpace) (name : string) : bool :=
  match name with
  | EmptyString => false
  | String c name' =>
      if negb (is_alpha_ c || Ascii.eqb c backslash) then false
      else is_valid_clsname_rest name'
  end.

(** [except VisibilityError as e: raise InvalidCallback(e.msg_callback(static))] *)
Definition catch_VisibilityError {A : Type} (static : bool) (r : res A) : res A :=
  match r with
  | Raise (VisibilityError msg_static msg_instance) =>
      Raise (InvalidCallback (if static then msg_static else msg_instance))
  | _ => r
  end.

Definition _get_callback_from_class (self : ObjSpace) (clsname methname : string)
    : M Callable :=
  match lookup_class_or_intf self clsname with
  | None => raise (InvalidCallback ("class '" +:+ clsname +:+ "' not found"))
  | Some klass =>
      let contextclass := get_contextclass self in
      let w_this := frame_w_this self in
      meth ← lift (catch_VisibilityError true
                     (getstaticmeth self klass methname contextclass w_this));
      mret (bind self meth w_this klass)
  end.

Definition _get_callback_from_string (self : ObjSpace) (name : string) : M Callable :=
  match String.index 0 "::" name with
  | Some pos =>
      let clsname := String.substring 0 pos name in
      let methname := String.substring (pos + 2) (Py.len name - (pos + 2)) name in
      _get_callback_from_class self clsname methname
  | None =>
      match lookup_function self name with
      | Some func => mret func
      | None =>
          raise (InvalidCallback
                   ("function '" +:+ name +:+ "' not found or invalid function name"))
      end
  end.

Definition _get_callback_from_instance (self : ObjSpace) (w_instance : loc)
    (methname : string) : M Callable :=
  let contextclass := get_contextclass self in
  lift (catch_VisibilityError false (getmeth self w_instance methname contextclass)).

Definition _get_callback (self : ObjSpace) (w_obj : W_Root) : M Callable :=
  t ← lift (tp w_obj);
  let otherwise : M Callable := raise (InvalidCallback "no array or string given") in
  if t =? tp_str then
    name ← str_w self w_obj;
    _get_callback_from_string self name
  else if t =? tp_array then
    h ← get_heap;
    n ← lift (W.arraylen h w_obj);
    if negb (Nat.eqb n 2) then
      raise (InvalidCallback "array must have exactly two members")
    else
      w0 ← lift (getitem self h w_obj (W_IntObject 0));
      w_instance ← lift (W.deref h w0);
      match w_instance with
      | W_InstanceObject a =>
          w1 ← lift (getitem self h w_obj (W_IntObject 1));
          methname ← str_w self w1;
          _get_callback_from_instance self a methname
      | _ =>
          clsname ← str_w self w_instance;
          if negb (is_valid_clsname self clsname) then
            raise (InvalidCallback
                     "first array member is not a valid class name or object")
          else
            h ← get_heap;
            w1 ← lift (getitem self h w_obj (W_IntObject 1));
            methname ← str_w self w1;
            _get_callback_from_class self clsname methname
      end
  else
    match w_obj with
    | W_InstanceObject a =>
        match get_callable self a with
        | Some callable => mret callable
        | None => otherwise
        end
    | _ => otherwise
    end.

(** [None] is the null invocable. *)
Definition get_callback (self : ObjSpace) (fname : string) (arg_no : Z)
    (w_obj : W_Root) (give_warning : bool) : M (option Callable) :=
  try_except_InvalidCallback
    (c ← _get_callback self w_obj; mret (Some c))
    (fun msg =>
       _ ← (if give_warning then
              let err_msg :=
                fname +:+ "() expects parameter " +:+ Py.str_of_int arg_no
                +:+ " to be a valid callback, " +:+ msg in
              ec_warn err_msg
            else mret tt);
       mret None).

(** ** Reference behaviour and sample data *)

(** The values a slice keeps, in the words of the specification:
    "negative start counts from the end; negative length encodes from
    start until length before end". *)
Definition slice_values (vals : list W_Root) (start length : Z) : list W_Root :=
  let n := Z.of_nat (List.length vals) in
  let lo := if start <? 0 then n + start else start in
  let hi := if length <? 0 then n + length else lo + length in
  take (Z.to_nat (hi - Z.max 0 lo)) (drop (Z.to_nat lo) vals).

(** A list as an array renumbers: keys [0, 1, ...] in order. *)
Definition renumbered (vals : list W_Root) : list (W_Root * W_Root) :=
  imap (fun i w => (W_IntObject (Z.of_nat i), w)) vals.

(** The byte-wise results in the words of the specification: for [or]
    "the longer side's tail is preserved", for [and] and [xor] "the
    output length is the shorter side". *)
Fixpoint bytewise_or (l r : string) : string :=
  match l, r with
  | String a l', String b r' =>
      String (Py.chr (Z.lor (Py.ord a) (Py.ord b))) (bytewise_or l' r')
  | EmptyString, _ => r
  | _, EmptyString => l
  end.

Fixpoint bytewise (op : Z -> Z -> Z) (l r : string) : string :=
  match l, r with
  | String a l', String b r' =>
      String (Py.chr (op (Py.ord a) (Py.ord b))) (bytewise op l' r')
  | _, _ => EmptyString
  end.

(** The rest of a string from index [n] on. *)
Fixpoint string_drop (n : nat) (s : string) : string :=
  match n, s with
  | O, _ => s
  | S n', String _ s' => string_drop n' s'
  | S _, EmptyString => EmptyString
  end.

(** A number, as [as_number] and the numeric-string parser return it:
    an [Int], or a [Float] that is not NaN. *)
Definition is_number (w : W_Root) : Prop :=
  match w with
  | W_IntObject _ => True
  | W_FloatObject f => is_nan f = false
  | _ => False
  end.

(** A 64-bit object space on a host with no functions and no classes. *)
Definition space64 : ObjSpace := {|
  sys_maxint := 2 ^ 63 - 1;
  jit_isconstant := fun _ => false;
  float_int_w := fun _ => 0;
  float_str := fun _ => "0"%string;
  instance_as_number := fun _ => W_IntObject 1;
  instance_str := fun _ => Raise TypeError;
  resource_str := fun _ id => ("Resource id #" +:+ Py.str_of_int id)%string;
  lookup_function := fun _ => None;
  lookup_class_or_intf := fun _ => None;
  get_contextclass := None;
  frame_w_this := None;
  getstaticmeth := fun _ _ _ _ => Raise AttributeError;
  bind := fun meth _ _ => meth;
  getmeth := fun _ _ _ => Raise AttributeError;
  get_callable := fun _ => None
|}.

(** [$a = array(); $a[0] = &$a; $b = array(); $b[0] = &$b;]: array 1
    holds reference cell 2, which holds array 1; likewise 3 and 4. *)
Definition cyclic_heap : gmap loc cell :=
  <[1%positive := CArray [(W_IntObject 0, W_Reference 2%positive)]]>
  (<[2%positive := CReference (W_ArrayObject 1%positive)]>
  (<[3%positive := CArray [(W_IntObject 0, W_Reference 4%positive)]]>
  (<[4%positive := CReference (W_ArrayObject 3%positive)]> ∅))).

(** [$a = array(); $a[0] = &$a; $a[1] = 1; $b = array(); $b[0] = &$b;
    $b[1] = 2;]: as above, with a second element that differs. *)
Definition growing_heap : gmap loc cell :=
  <[1%positive := CArray [(W_IntObject 0, W_Reference 2%positive);
                          (W_IntObject 1, W_IntObject 1)]]>
  (<[2%positive := CReference (W_ArrayObject 1%positive)]>
  (<[3%positive := CArray [(W_IntObject 0, W_Reference 4%positive);
                           (W_IntObject 1, W_IntObject 2)]]>
  (<[4%positive := CReference (W_ArrayObject 3%positive)]> ∅))).

(** [st'] is [st] with pairs pushed on it: an even number of entries
    appended. *)
Definition pushed (st st' : obj_stack) : Prop :=
  exists p, st' = st ++ p /\ Nat.even (length p) = true.

(** [new_st] is still [None] where nothing has been put on it, or holds
    [pfx] and the pairs appended since. *)
Definition new_st_from (pfx : obj_stack) (new_st : option obj_stack) : Prop :=
  match new_st with
  | None => pfx = []
  | Some st => pushed pfx st
  end.

(** [array(10, 20, 30, 40)] at address 1. *)
Definition sample_interpreter : Interpreter := {|
  heap := {[ 1%positive :=
             CArray [(W_IntObject 0, W_IntObject 10); (W_IntObject 1, W_IntObject 20);
                     (W_IntObject 2, W_IntObject 30); (W_IntObject 3, W_IntObject 40)] ]};
  next_loc := 2%positive;
  diagnostics := []
|}.

(** ** Further methods of [ObjSpace] *)

(** [str.upper()] on bytes: only [a-z] change. *)
Definition upper_char (c : ascii) : ascii :=
  if (Py.ord "a" <=? Py.ord c) && (Py.ord c <=? Py.ord "z")
  then Py.chr (Py.ord c - 32) else c.

Fixpoint is_valid_varname_rest (name : string) : bool :=
  match name with
  | EmptyString => true
  | String c name' =>
      if negb (is_alpha_ c || Py.is_digit c) then false
      else is_valid_varname_rest name'
  end.

Definition is_valid_varname (self : ObjSpace) (name : string) : bool :=
  match name with
  | EmptyString => false
  | String c name' =>
      if negb (is_alpha_ c) then false else is_valid_varname_rest name'
  end.

Definition is_string (self : ObjSpace) (w_obj : W_Root) : M bool :=
  s ← str_w self w_obj;
  match s with
  | EmptyString => mret true
  | String c0 _ =>
      if Ascii.eqb c0 "0" && negb (Nat.eqb (Py.len s) 1) then mret true
      else if (Py.ord c0 <? Py.ord "0") || (Py.ord c0 >? Py.ord "9") then mret true
      else mret false
  end.

(** [[f(i) for i in range(start, start + count)]] *)
Fixpoint list_comprehension {A : Type} (start count : nat) (f : nat -> res A)
    : res (list A) :=
  match count with
  | O => Ok []
  | S count' =>
      a ← f start; l ← list_comprehension (S start) count' f; Ok (a :: l)
  end.

(** [''.join([cases[i][(x >> i) & 1] for i in range(len(name))])] *)
Definition case_variant (cases : list string) (n : nat) (x : Z) : res string :=
  l ← list_comprehension 0 n
        (fun i =>
           cs ← list_getitem cases (Z.of_nat i);
           Py.getitem cs (Z.to_nat (Z.land (Z.shiftr x (Z.of_nat i)) 1)));
  Ok (string_of_list_ascii l).

(** [outdict] is used as a map from names to values. *)
Definition _setup_constant_any_case (self : ObjSpace) (name : string) (w_value : W_Root)
    (outdict : gmap string W_Root) : res (gmap string W_Root) :=
  let cases :=
    map (fun c => String (Py.lower_char c) (String (upper_char c) EmptyString))
      (list_ascii_of_string name) in
  Py.for_range 0 (Z.to_nat (Z.shiftl 1 (Z.of_nat (Py.len name))))
    (fun x outdict =>
       key ← case_variant cases (Py.len name) (Z.of_nat x);
       Ok (<[key := w_value]> outdict))
    outdict.

(** The comparison operators; [fuel] is that of [_compare]. *)
Module Cmp.

Definition eq (fuel : nat) (self : ObjSpace) (h : gmap loc cell) (w_left w_right : W_Root)
    : res W_Root :=
  res ← _compare fuel self h w_left w_right false true; Ok (newbool (res =? 0)).

Definition ne (fuel : nat) (self : ObjSpace) (h : gmap loc cell) (w_left w_right : W_Root)
    : res W_Root :=
  res ← _compare fuel self h w_left w_right false true; Ok (newbool (negb (res =? 0))).

Definition lt (fuel : nat) (self : ObjSpace) (h : gmap loc cell) (w_left w_right : W_Root)
    : res W_Root :=
  res ← _compare fuel self h w_left w_right false false; Ok (newbool (res <? 0)).

Definition gt (fuel : nat) (self : ObjSpace) (h : gmap loc cell) (w_left w_right : W_Root)
    : res W_Root :=
  res ← _compare fuel self h w_left w_right false false; Ok (newbool (res >? 0)).

Definition le (fuel : nat) (self : ObjSpace) (h : gmap loc cell) (w_left w_right : W_Root)
    : res W_Root :=
  res ← _compare fuel self h w_left w_right false false; Ok (newbool (res <=? 0)).

Definition ge (fuel : nat) (self : ObjSpace) (h : gmap loc cell) (w_left w_right : W_Root)
    : res W_Root :=
  res ← _compare fuel self h w_left w_right false false; Ok (newbool (res >=? 0)).

End Cmp.

(** Modelled from the spec: [W_InstanceObject.get_rdict_array] ("Object
    gives the attribute map as array"). *)
Definition get_rdict_array (self : ObjSpace) (attrs : list (string * W_Root)) : M W_Root :=
  new_array_from_pairs self (map (fun kv => (W_StringObject (fst kv), snd kv)) attrs).

Definition as_array (self : ObjSpace) (w_obj : W_Root) : M W_Root :=
  h ← get_heap;
  w_obj ← lift (W.deref h w_obj);
  t ← lift (tp w_obj);
  if t =? tp_object then
    attrs ← lift (W.get_instance_attrs h w_obj);
    get_rdict_array self attrs
  else if negb (t =? tp_array) then
    if is_ w_obj w_Null then new_array_from_list self []
    else new_array_from_list self [w_obj]
  else mret w_obj.

Definition is_array (self : ObjSpace) (h : gmap loc cell) (w_obj : W_Root) : res bool :=
  w ← W.deref h w_obj; t ← tp w; Ok (t =? tp_array).


(** [while not itr.done(): ...] of [array_to_string_conversion], with the
    loop's variable [out]. *)
Fixpoint array_to_string_loop (self : ObjSpace) (itr : list (W_Root * W_Root))
    (out : string) : M string :=
  match itr with
  | [] => mret out
  | (w_key, w_value) :: itr =>
      t ← lift (tp w_value);
      _ ← (if t =? tp_array then ec_notice "Array to string conversion" else mret tt);
      s ← str_w self w_value;
      array_to_string_loop self itr (out +:+ s)
  end.

Definition array_to_string_conversion (self : ObjSpace) (w_arr : W_Root) : M W_Root :=
  h ← get_heap;
  w ← lift (W.deref h w_arr);
  itr ← lift (W.items h w);
  out ← array_to_string_loop self itr EmptyString;
  mret (newstr out).

(** [setup_constants], up to the caches it fills: the dictionary [dct].
    [constants_by_module] is what [get_constants_by_module(self)]
    yields; [dct] is used as a map from names to values. *)
Definition setup_constants (self : ObjSpace)
    (constants_by_module : list (string * list (string * W_Root)))
    : res (gmap string W_Root) :=
  let dct : gmap string W_Root :=
    fold_left
      (fun dct (module : string * list (string * W_Root)) =>
         fold_left (fun dct (kw : string * W_Root) => <[fst kw := snd kw]> dct)
           (snd module) dct)
      constants_by_module ∅ in
  let dct := <["PHP_INT_MAX"%string := newint (sys_maxint self)]> dct in
  let dct :=
    <["PHP_INT_SIZE"%string := newint (if sys_maxint self <? 2 ^ 32 then 4 else 8)]> dct in
  dct ← _setup_constant_any_case self "true" w_True dct;
  dct ← _setup_constant_any_case self "false" w_False dct;
  _setup_constant_any_case self "null" w_Null dct.

Definition is_str (self : ObjSpace) (h : gmap loc cell) (w_obj : W_Root) : res bool :=
  w ← W.deref h w_obj; t ← tp w; Ok (t =? tp_str).

Definition is_null (self : ObjSpace) (h : gmap loc cell) (w_obj : W_Root) : res bool :=
  w ← W.deref h w_obj; t ← tp w; Ok (t =? tp_null).

Definition is_object (self : ObjSpace) (h : gmap loc cell) (w_obj : W_Root) : res bool :=
  w ← W.deref h w_obj; t ← tp w; Ok (t =? tp_object).

(** [isinstance(w_obj, W_Resource)]: the operand is not dereferenced. *)
Definition is_resource (self : ObjSpace) (w_obj : W_Root) : bool :=
  match w_obj with
  | W_Resource _ _ => true
  | _ => false
  end.

(** ** Shapes of strings, for the statements below *)

(** Every byte of [s] is in [PHP_WHITESPACE]. *)
Fixpoint all_whitespace (s : string) : bool :=
  match s with
  | EmptyString => true
  | String c s' => Py.contains c PHP_WHITESPACE && all_whitespace s'
  end.

(** [s] is empty or starts with a byte that is no digit and no sign: the
    scan of [_force_int_from_str] ends there. *)
Definition ends_integer (s : string) : bool :=
  match s with
  | EmptyString => true
  | String c _ => negb (Py.is_digit c || Ascii.eqb c "-" || Ascii.eqb c "+")
  end.

(** [key] is [name] up to the case of each byte. *)
Fixpoint is_case_variant (key name : string) : bool :=
  match key, name with
  | EmptyString, EmptyString => true
  | String k key', String c name' =>
      (Ascii.eqb k (Py.lower_char c) || Ascii.eqb k (upper_char c))
      && is_case_variant key' name'
  | _, _ => false
  end.

(** The spelling of [name] that the bits of [x] select, lowest bit
    first: bit 0 is lower case, bit 1 upper case. *)
Fixpoint variant_of (x : Z) (name : string) : string :=
  match name with
  | EmptyString => EmptyString
  | String c name' =>
      String (if Z.odd x then upper_char c else Py.lower_char c)
        (variant_of (Z.shiftr x 1) name')
  end.

(** The first pair of [ls] and [rs] that differs decides, as [my_cmp]
    orders it; 0 when no pair differs. *)
Fixpoint lexicographic (ignore_order : bool) (ls rs : list Z) : Z :=
  match ls, rs with
  | l :: ls', r :: rs' =>
      if l =? r then lexicographic ignore_order ls' rs' else my_cmp l r ignore_order
  | _, _ => 0
  end.

(** Sample data: a store with the arrays [[0 => 5]] and [[1 => 7]]. *)
Definition disjoint_keys_heap : gmap loc cell :=
  <[1%positive := CArray [(W_IntObject 0, W_IntObject 5)]]>
    (<[2%positive := CArray [(W_IntObject 1, W_IntObject 7)]]> ∅).

(** ** Shapes of values, for the statements below *)

(** The values that are no aggregate, no resource and no reference. *)
Definition is_scalar (w : W_Root) : bool :=
  match w with
  | W_NullObject | W_BoolObject _ | W_IntObject _ | W_FloatObject _ | W_StringObject _ => true
  | _ => false
  end.

Definition is_nan_value (w : W_Root) : bool :=
  match w with
  | W_FloatObject f => is_nan f
  | _ => false
  end.

(** How the verdicts [z] and [z'] of the two operand orders relate: they
    agree on equality, and where [exact] holds one is the opposite of
    the other. *)
Definition mirrored (exact : bool) (z z' : Z) : Prop :=
  (z = 0 <-> z' = 0) /\ (exact = true -> z' = - z).

(** An [Int] or a [Float], NaN included. *)
Definition is_num (w : W_Root) : bool :=
  match w with
  | W_IntObject _ | W_FloatObject _ => true
  | _ => false
  end.

(** A comparison flag [l] is at most as strict as [s]. *)
Definition flag_le (l s : bool) : Prop := l = true -> s = true.

(** Sample data: a store with two arrays [["a" => "1", 0 => [7]]] that
    share nothing but their contents. *)
Definition twin_arrays_heap : gmap loc cell :=
  <[1%positive := CArray [(W_StringObject "a", W_StringObject "1");
                          (W_IntObject 0, W_ArrayObject 3%positive)]]>
    (<[2%positive := CArray [(W_StringObject "a", W_StringObject "1");
                             (W_IntObject 0, W_ArrayObject 4%positive)]]>
       (<[3%positive := CArray [(W_IntObject 0, W_IntObject 7)]]>
          (<[4%positive := CArray [(W_IntObject 0, W_IntObject 7)]]> ∅))).

(** ** Well-formed arrays and windows *)

(** The window of a slice: "negative start counts from the end; negative
    length encodes from start until length before end". *)
Definition slice_window {A : Type} (xs : list A) (start length : Z) : list A :=
  let n := Z.of_nat (List.length xs) in
  let lo := if start <? 0 then n + start else start in
  let hi := if length <? 0 then n + length else lo + length in
  take (Z.to_nat (hi - Z.max 0 lo)) (drop (Z.to_nat lo) xs).

(** No two pairs of [its] have the same key. *)
Fixpoint distinct_keys (its : list (W_Root * W_Root)) : bool :=
  match its with
  | [] => true
  | (k, _) :: its' =>
      forallb (fun kv => negb (W.key_eqb k (fst kv))) its' && distinct_keys its'
  end.

(** [k] is a key as an array stores it: an int, or a string that
    [normalize_key] leaves a string. *)
Definition normalized_key (self : ObjSpace) (k : W_Root) : bool :=
  match k with
  | W_IntObject _ => true
  | W_StringObject _ =>
      match W.normalize_key self k with W_StringObject _ => true | _ => false end
  | _ => false
  end.

(** The pairs of an array as its constructors leave them. *)
Definition well_formed_items (self : ObjSpace) (its : list (W_Root * W_Root)) : bool :=
  forallb (fun kv => normalized_key self (fst kv)) its && distinct_keys its.

(** Sample data: an interpreter whose store holds the array
    [["Foo", "bar"]]. *)
Definition callback_interpreter : Interpreter := {|
  heap := <[1%positive := CArray [(W_IntObject 0, W_StringObject "Foo");
                                  (W_IntObject 1, W_StringObject "bar")]]> ∅;
  next_loc := 2%positive;
  diagnostics := []
|}.

(** An int, a float, a string or a resource. *)
Definition is_plain (w : W_Root) : bool :=
  match w with
  | W_IntObject _ | W_FloatObject _ | W_StringObject _ | W_Resource _ _ => true
  | _ => false
  end.

(** A null, boolean, int, string, or a float that is not NaN. *)
Definition is_comparable_scalar (w : W_Root) : bool :=
  is_scalar w && negb (is_nan_value w).

(** Sample data: a user class with the default comparison, and a store
    with two of its instances that hold the same attributes. *)
Definition sample_class : W_Class :=
  {| klass_id := 1%positive; klass_name := "Point"; klass_compare := None |}.

Definition twin_instances_heap : gmap loc cell :=
  <[1%positive := CInstance sample_class
                    [("x"%string, W_IntObject 1); ("y"%string, W_StringObject "2")]]>
    (<[2%positive := CInstance sample_class
                       [("x"%string, W_IntObject 1); ("y"%string, W_StringObject "2")]]> ∅).

(** The text of a null, boolean, int, float or string, as [str] gives
    it. *)
Definition scalar_text (self : ObjSpace) (w : W_Root) : string :=
  match w with
  | W_StringObject s => s
  | W_BoolObject b => if b then "1" else EmptyString
  | W_IntObject z => Py.str_of_int z
  | W_FloatObject f => float_str self f
  | _ => EmptyString
  end.

(** [''.join(ss)] *)
Definition join (ss : list string) : string :=
  fold_right String.append EmptyString ss.

(** The module constants as a map, later bindings winning: [dct] of
    [setup_constants] before the fixed names are added. *)
Definition module_constants
    (constants_by_module : list (string * list (string * W_Root))) : gmap string W_Root :=
  fold_left
    (fun dct (module : string * list (string * W_Root)) =>
       fold_left (fun dct (kw : string * W_Root) => <[fst kw := snd kw]> dct)
         (snd module) dct)
    constants_by_module ∅.

(** Sample data: an interpreter whose store holds the array [[10, 20]]. *)
Definition callback_pair_interpreter : Interpreter := {|
  heap := <[1%positive := CArray [(W_IntObject 0, W_IntObject 10);
                                  (W_IntObject 1, W_IntObject 20)]]> ∅;
  next_loc := 2%positive;
  diagnostics := []
|}.

(** The pairs of [its] with their int keys replaced by [next],
    [next + 1], ... in order; string keys stay. *)
Fixpoint renumber_int_keys (next : Z) (its : list (W_Root * W_Root))
    : list (W_Root * W_Root) :=
  match its with
  | [] => []
  | (W_StringObject s, v) :: its' => (W_StringObject s, v) :: renumber_int_keys next its'
  | (_, v) :: its' => (W_IntObject next, v) :: renumber_int_keys (next + 1) its'
  end.

(** Sample data: an interpreter whose store holds the array
    [[5 => 10, "b" => 20, 7 => 30]]. *)
Definition mixed_keys_interpreter : Interpreter := {|
  heap := <[1%positive := CArray [(W_IntObject 5, W_IntObject 10);
                                  (W_StringObject "b", W_IntObject 20);
                                  (W_IntObject 7, W_IntObject 30)]]> ∅;
  next_loc := 2%positive;
  diagnostics := []
|}.

(** * Proofs *)

(** ** Modulo *)

Lemma force_int_int (self : ObjSpace) (h : gmap loc cell) (z : Z) :
  force_int self h (W_IntObject z) = Ok z.
Proof. reflexivity. Qed.

(** The remainder of truncated division is determined by its sign and
    its bound. *)
Lemma rem_unique_full (a b q r : Z) :
  (0 <= a /\ 0 <= r < Z.abs b) \/ (a <= 0 /\ - Z.abs b < r <= 0) ->
  a = b * q + r -> r = Z.rem a b.
Proof.
  intros Hb Ha.
  assert (Hb0 : b <> 0) by lia.
  pose proof (Z.quot_rem' a b) as Hq.
  pose proof (Z.rem_bound_abs a b Hb0) as Hbound.
  pose proof (Z.rem_sign_mul a b Hb0) as Hsign.
  assert (Hd : b * (q - Z.quot a b) = Z.rem a b - r) by lia.
  assert (Hlt : Z.abs (Z.rem a b - r) < Z.abs b).
  { destruct (Z.eq_dec a 0) as [-> | Hne].
    - rewrite Z.rem_0_l in * by exact Hb0. lia.
    - assert (0 <= a -> 0 <= Z.rem a b) by nia.
      assert (a <= 0 -> Z.rem a b <= 0) by nia.
      lia. }
  rewrite <- Hd, Z.abs_mul in Hlt.
  assert (q - Z.quot a b = 0) by nia.
  nia.
Qed.

(** Python's floored remainder, corrected when the signs disagree, is
    the remainder of truncated division. *)
Lemma floored_mod_corrected (left right : Z) :
  right <> 0 ->
  (if negb (left mod right =? 0)
      && (((left <? 0) && (right >? 0)) || ((left >? 0) && (right <? 0)))
   then left mod right - right else left mod right) = Z.rem left right.
Proof.
  intros Hr.
  assert (Hdiv : left = right * (left / right) + left mod right)
    by (apply Z.div_mod; exact Hr).
  assert (Hrange : 0 <= left mod right < right \/ right < left mod right <= 0).
  { destruct (Z_lt_ge_dec 0 right) as [Hpos | Hneg].
    - left. apply Z.mod_pos_bound. exact Hpos.
    - right. apply Z.mod_neg_bound. lia. }
  destruct (left mod right =? 0) eqn:Hz; cbn [negb andb].
  - apply Z.eqb_eq in Hz.
    apply rem_unique_full with (q := left / right); lia.
  - apply Z.eqb_neq in Hz.
    rewrite !Z.gtb_ltb.
    destruct (Z.ltb_spec left 0); destruct (Z.ltb_spec 0 right);
      destruct (Z.ltb_spec 0 left); destruct (Z.ltb_spec right 0);
      cbn [andb orb]; try lia;
      first [ apply rem_unique_full with (q := left / right + 1); lia
            | apply rem_unique_full with (q := left / right); lia ].
Qed.

Lemma rem_minus_one (l : Z) : Z.rem l (-1) = 0.
Proof. symmetry. apply rem_unique_full with (q := - l); lia. Qed.

Lemma _mod_eq (self : ObjSpace) (left right : Z) (st : Interpreter) :
  _mod self left right st =
    if right =? 0 then (Ok w_False, with_diagnostic st warn "Division by zero")
    else (Ok (W_IntObject (Z.rem left right)), st).
Proof.
  unfold _mod.
  destruct (right =? 0) eqn:H0; [reflexivity |].
  apply Z.eqb_neq in H0.
  destruct (right =? -1) eqn:H1.
  - apply Z.eqb_eq in H1. subst right. rewrite rem_minus_one. reflexivity.
  - rewrite floored_mod_corrected by exact H0. reflexivity.
Qed.

Lemma mod__eq (self : ObjSpace) (w_left w_right : W_Root) (l r : Z) (st : Interpreter) :
  force_int self (heap st) w_left = Ok l ->
  force_int self (heap st) w_right = Ok r ->
  mod_ self w_left w_right st = _mod self l r st.
Proof.
  intros Hl Hr. unfold mod_, get_heap, lift, mbind, M_bind.
  rewrite Hl, Hr. reflexivity.
Qed.

(** C3.  For operands coerced to the integers [l] and [r], [mod] with
    [r = 0] warns "Division by zero" and returns false; with [r = -1] it
    returns [Int 0]; otherwise it returns the remainder [z] of the
    division truncated toward zero, [l = r * (l quot r) + z], which has
    the sign of the left operand and is smaller than [r] in magnitude. *)
Theorem mod_truncates_toward_zero
    (self : ObjSpace) (st : Interpreter) (w_left w_right : W_Root) (l r : Z) :
  force_int self (heap st) w_left = Ok l ->
  force_int self (heap st) w_right = Ok r ->
  (r = 0 ->
     mod_ self w_left w_right st
     = (Ok w_False, with_diagnostic st warn "Division by zero"))
  /\ (r = -1 -> mod_ self w_left w_right st = (Ok (W_IntObject 0), st))
  /\ (r <> 0 -> r <> -1 ->
        exists z, mod_ self w_left w_right st = (Ok (W_IntObject z), st)
                  /\ z = l - r * Z.quot l r
                  /\ 0 <= z * l
                  /\ Z.abs z < Z.abs r).
Proof.
  intros Hl Hr.
  rewrite (mod__eq self w_left w_right l r st Hl Hr), _mod_eq.
  repeat split.
  - intros ->. reflexivity.
  - intros ->. cbn [Z.eqb]. rewrite rem_minus_one. reflexivity.
  - intros H0 H1. apply Z.eqb_neq in H0 as H0'. rewrite H0'.
    exists (Z.rem l r). repeat split.
    + pose proof (Z.quot_rem' l r). lia.
    + apply Z.rem_sign_mul. exact H0.
    + apply Z.rem_bound_abs. exact H0.
Qed.

Lemma mod_truncates_toward_zero_witness :
  mod_ space64 (W_IntObject (-7)) (W_IntObject 3) sample_interpreter
    = (Ok (W_IntObject (-1)), sample_interpreter)
  /\ mod_ space64 (W_IntObject 7) (W_IntObject (-3)) sample_interpreter
    = (Ok (W_IntObject 1), sample_interpreter)
  /\ mod_ space64 (W_IntObject 7) (W_IntObject 0) sample_interpreter
    = (Ok (W_BoolObject false),
       with_diagnostic sample_interpreter warn "Division by zero").
Proof.
  pose proof (mod_truncates_toward_zero space64 sample_interpreter
                (W_IntObject (-7)) (W_IntObject 3) (-7) 3 eq_refl eq_refl) as H1.
  pose proof (mod_truncates_toward_zero space64 sample_interpreter
                (W_IntObject 7) (W_IntObject (-3)) 7 (-3) eq_refl eq_refl) as H2.
  pose proof (mod_truncates_toward_zero space64 sample_interpreter
                (W_IntObject 7) (W_IntObject 0) 7 0 eq_refl eq_refl) as H3.
  destruct H1 as (_ & _ & H1). destruct H2 as (_ & _ & H2). destruct H3 as (H3 & _).
  destruct (H1 ltac:(lia) ltac:(lia)) as (z1 & E1 & -> & _).
  destruct (H2 ltac:(lia) ltac:(lia)) as (z2 & E2 & -> & _).
  split; [exact E1 | split; [exact E2 | exact (H3 eq_refl)]].
Defined.

(** ** Shifts *)

Lemma MASK_31_63_ones (self : ObjSpace) :
  MASK_31_63 self = Z.ones (Z.log2 (LONG_BIT self))
  /\ LONG_BIT self = 2 ^ Z.log2 (LONG_BIT self)
  /\ 0 <= Z.log2 (LONG_BIT self).
Proof.
  unfold MASK_31_63, LONG_BIT.
  destruct (sys_maxint self =? 2 ^ 31 - 1); repeat split; discriminate.
Qed.

(** Masking the count with [MASK_31_63] is reducing it modulo the word
    width. *)
Lemma masked_count (self : ObjSpace) (n : Z) :
  Z.land n (MASK_31_63 self) = n mod LONG_BIT self.
Proof.
  destruct (MASK_31_63_ones self) as (-> & HW & Hlog).
  rewrite Z.land_ones by exact Hlog. rewrite <- HW. reflexivity.
Qed.

Lemma intmask_range (self : ObjSpace) (n : Z) :
  - 2 ^ (LONG_BIT self - 1) <= intmask self n < 2 ^ (LONG_BIT self - 1).
Proof.
  unfold intmask, Py.intmask.
  assert (H : 2 ^ LONG_BIT self = 2 * 2 ^ (LONG_BIT self - 1)).
  { unfold LONG_BIT. destruct (sys_maxint self =? 2 ^ 31 - 1); reflexivity. }
  pose proof (Z.mod_pos_bound (n + 2 ^ (LONG_BIT self - 1)) (2 ^ LONG_BIT self)) as Hb.
  assert (0 < 2 ^ (LONG_BIT self - 1)).
  { unfold LONG_BIT. destruct (sys_maxint self =? 2 ^ 31 - 1); reflexivity. }
  lia.
Qed.

(** C6.  The shift count is masked with 31 on a 32-bit target and 63 on
    a 64-bit one, so shifting by [n] is shifting by [n mod W], and the
    result is truncated to the [W]-bit machine word. *)
Theorem shift_count_masked (self : ObjSpace) (h : gmap loc cell) (x n : Z) :
  (sys_maxint self = 2 ^ 31 - 1 -> LONG_BIT self = 32 /\ MASK_31_63 self = 31)
  /\ (sys_maxint self = 2 ^ 63 - 1 -> LONG_BIT self = 64 /\ MASK_31_63 self = 63)
  /\ lshift self h (W_IntObject x) (W_IntObject n)
     = lshift self h (W_IntObject x) (W_IntObject (n mod LONG_BIT self))
  /\ rshift self h (W_IntObject x) (W_IntObject n)
     = rshift self h (W_IntObject x) (W_IntObject (n mod LONG_BIT self))
  /\ (exists z,
        lshift self h (W_IntObject x) (W_IntObject n) = Ok (W_IntObject z)
        /\ z = intmask self (x * 2 ^ (n mod LONG_BIT self))
        /\ - 2 ^ (LONG_BIT self - 1) <= z < 2 ^ (LONG_BIT self - 1))
  /\ (exists z,
        rshift self h (W_IntObject x) (W_IntObject n) = Ok (W_IntObject z)
        /\ z = intmask self (x / 2 ^ (n mod LONG_BIT self))
        /\ - 2 ^ (LONG_BIT self - 1) <= z < 2 ^ (LONG_BIT self - 1)).
Proof.
  assert (HW : 0 < LONG_BIT self)
    by (unfold LONG_BIT; destruct (sys_maxint self =? 2 ^ 31 - 1); reflexivity).
  assert (Hn : 0 <= n mod LONG_BIT self) by (apply Z.mod_pos_bound; exact HW).
  assert (Hidem : Z.land (n mod LONG_BIT self) (MASK_31_63 self)
                  = Z.land n (MASK_31_63 self)).
  { rewrite !masked_count. apply Z.mod_mod. lia. }
  split; [| split; [| split; [| split; [| split]]]].
  - intros E. unfold LONG_BIT, MASK_31_63. rewrite E. split; reflexivity.
  - intros E. unfold LONG_BIT, MASK_31_63. rewrite E. split; reflexivity.
  - unfold lshift. rewrite !force_int_int. cbn [mbind res_bind].
    rewrite Hidem. reflexivity.
  - unfold rshift. rewrite !force_int_int. cbn [mbind res_bind].
    rewrite Hidem. reflexivity.
  - eexists. split; [unfold lshift; rewrite !force_int_int; reflexivity |].
    split; [| apply intmask_range].
    cbv zeta. rewrite masked_count, Z.shiftl_mul_pow2 by exact Hn. reflexivity.
  - eexists. split; [unfold rshift; rewrite !force_int_int; reflexivity |].
    split; [| apply intmask_range].
    cbv zeta. rewrite masked_count, Z.shiftr_div_pow2 by exact Hn. reflexivity.
Qed.

(** ** Type names *)

(** C9, as the code has it.  [get_type_name] lower-cases the entry of
    [TYPENAMES], so the sixteen tags give, in tag order, the names below,
    with [null] for the null tag; out of a reference or an instance,
    [gettypename] gives the name of the value's tag, and for an instance
    ["instance of "] followed by the class name. *)
Theorem type_names_lowered (self : ObjSpace) (h : gmap loc cell) :
  map (get_type_name self)
      [tp_int; tp_float; tp_str; tp_array; tp_null; tp_bool; tp_object;
       tp_file_res; tp_dir_res; tp_stream_context; tp_mysql_link;
       tp_mysql_result; tp_constant; tp_delayed_class_const;
       tp_xmlparser_res; tp_mcrypt_res]
  = map Ok ["integer"; "double"; "string"; "array"; "null"; "boolean";
            "object"; "resource"; "resource"; "resource"; "resource";
            "resource"; "constant"; "delayed constant"; "resource";
            "resource"]%string
  /\ (forall (w_obj w : W_Root) (t : Z),
        W.deref h w_obj = Ok w -> tp w = Ok t -> t <> tp_object ->
        gettypename self h w_obj = get_type_name self t)
  /\ (forall (w_obj : W_Root) (a : loc) (k : W_Class) (attrs : list (string * W_Root)),
        W.deref h w_obj = Ok (W_InstanceObject a) ->
        h !! a = Some (CInstance k attrs) ->
        gettypename self h w_obj = Ok ("instance of " +:+ klass_name k)).
Proof.
  split; [reflexivity | split].
  - intros w_obj w t Hd Ht Hne. unfold gettypename, get_type_name.
    rewrite Hd. cbn [mbind res_bind].
    destruct w; cbn in Ht; try discriminate;
      try (injection Ht as <-; reflexivity).
    injection Ht as <-. congruence.
  - intros w_obj a k attrs Hd Ha. unfold gettypename.
    rewrite Hd. cbn [mbind res_bind]. unfold W.getclass, W.instance.
    rewrite Ha. reflexivity.
Qed.

(** C9, as stated, fails: the name of the null tag is not ["NULL"]. *)
Lemma type_name_of_null_is_lowered :
  get_type_name space64 tp_null = Ok "null"%string
  /\ get_type_name space64 tp_null <> Ok "NULL"%string
  /\ gettypename space64 ∅ w_Null = Ok "null"%string.
Proof. split; [reflexivity | split; [discriminate | reflexivity]]. Qed.

(** ** The lenient integer scan *)

(** C8, at inputs the code mishandles.  A sign after the first byte is
    appended to [decstr] like a digit, and [int] then raises: the scan
    does not stop at the first byte that ends an optional sign followed
    by digits. *)
Theorem force_int_raises_on_inner_sign (self : ObjSpace) (h : gmap loc cell) :
  force_int self h (W_StringObject "1-2") = Raise ValueError
  /\ force_int self h (W_StringObject "12+") = Raise ValueError
  /\ force_int self h (W_StringObject "+-5") = Raise ValueError
  /\ force_int self h (W_StringObject "-") = Raise ValueError
  /\ force_int self h (W_StringObject " 12abc") = Ok 12
  /\ force_int self h (W_StringObject "abc") = Ok 0.
Proof. repeat split; reflexivity. Qed.

(** ** Callback resolution *)

(** C10.  An array whose length is not 2 makes [_get_callback] raise
    [InvalidCallback] with "array must have exactly two members",
    whatever its elements are; [get_callback] then returns the null
    invocable, and warns only when [give_warning] is set. *)
Theorem callback_array_needs_two_members
    (self : ObjSpace) (st : Interpreter) (a : loc) (items : list (W_Root * W_Root))
    (fname : string) (arg_no : Z) :
  heap st !! a = Some (CArray items) ->
  length items <> 2%nat ->
  _get_callback self (W_ArrayObject a) st
    = (Raise (InvalidCallback "array must have exactly two members"), st)
  /\ get_callback self fname arg_no (W_ArrayObject a) true st
     = (Ok None,
        with_diagnostic st warn
          (fname +:+ "() expects parameter " +:+ Py.str_of_int arg_no
           +:+ " to be a valid callback, array must have exactly two members"))
  /\ get_callback self fname arg_no (W_ArrayObject a) false st = (Ok None, st).
Proof.
  intros Ha Hlen.
  assert (Hraise : _get_callback self (W_ArrayObject a) st
                   = (Raise (InvalidCallback "array must have exactly two members"), st)).
  { unfold _get_callback, mbind, M_bind, lift, get_heap, raise, W.arraylen, W.items.
    cbv beta iota delta [tp Z.eqb Pos.eqb tp_array tp_str res_bind].
    rewrite Ha. cbv beta iota delta [mbind res_bind].
    destruct (Nat.eqb_spec (length items) 2) as [E | _]; [contradiction | reflexivity]. }
  split; [exact Hraise | split].
  - unfold get_callback, try_except_InvalidCallback, mbind at 1, M_bind at 1.
    rewrite Hraise. reflexivity.
  - unfold get_callback, try_except_InvalidCallback, mbind at 1, M_bind at 1.
    rewrite Hraise. reflexivity.
Qed.

Lemma callback_array_needs_two_members_witness :
  get_callback space64 "usort" 2 (W_ArrayObject 1%positive) true sample_interpreter
    = (Ok None,
       with_diagnostic sample_interpreter warn
         "usort() expects parameter 2 to be a valid callback, array must have exactly two members")
  /\ get_callback space64 "usort" 2 (W_ArrayObject 1%positive) false sample_interpreter
     = (Ok None, sample_interpreter).
Proof.
  refine (proj2 (callback_array_needs_two_members space64 sample_interpreter 1%positive
                   _ "usort" 2 eq_refl _)).
  cbn. lia.
Defined.

(** ** Byte-wise string operators *)

Lemma get_string_drop (n i : nat) (s : string) :
  String.get (n + i) s = String.get i (string_drop n s).
Proof.
  revert s. induction n as [| n IH]; intros s; [reflexivity |].
  destruct s as [| c s]; cbn; [destruct i; reflexivity | apply IH].
Qed.

Lemma length_string_drop (n : nat) (s : string) :
  Py.len (string_drop n s) = (Py.len s - n)%nat.
Proof.
  revert s. induction n as [| n IH]; intros s; cbn.
  - unfold Py.len. lia.
  - destruct s as [| c s]; [reflexivity | apply IH].
Qed.

Lemma string_of_list_ascii_app (a b : list ascii) :
  string_of_list_ascii (a ++ b)
  = (string_of_list_ascii a +:+ string_of_list_ascii b)%string.
Proof. induction a as [| c a IH]; cbn; [reflexivity | rewrite IH; reflexivity]. Qed.

(** The loop over the common prefix appends the bytes of [bytewise]. *)
Lemma for_range_bytewise (op : Z -> Z -> Z) (Lft Rgt : string) :
  forall (r l : string) (start : nat) (acc : list ascii),
    (forall i, String.get (start + i) Lft = String.get i l) ->
    (forall i, String.get (start + i) Rgt = String.get i r) ->
    (Py.len r <= Py.len l)%nat ->
    Py.for_range start (Py.len r)
      (fun i s =>
         x ← Py.getitem Lft i; y ← Py.getitem Rgt i;
         Ok (s ++ [Py.chr (op (Py.ord x) (Py.ord y))])) acc
    = Ok (acc ++ list_ascii_of_string (bytewise op l r)).
Proof.
  induction r as [| b r IH]; intros l start acc Hl Hr Hlen.
  - destruct l; cbn; rewrite app_nil_r; reflexivity.
  - destruct l as [| a l]; [cbn in Hlen; lia |].
    cbn [Py.len String.length Py.for_range].
    assert (HL : Py.getitem Lft start = Ok a).
    { pose proof (Hl 0%nat) as H0. rewrite Nat.add_0_r in H0.
      unfold Py.getitem. rewrite H0. reflexivity. }
    assert (HR : Py.getitem Rgt start = Ok b).
    { pose proof (Hr 0%nat) as H0. rewrite Nat.add_0_r in H0.
      unfold Py.getitem. rewrite H0. reflexivity. }
    rewrite HL, HR. cbn [mbind res_bind].
    change (String.length r) with (Py.len r).
    rewrite (IH l (S start)).
    + cbn [bytewise list_ascii_of_string]. rewrite <- app_assoc. reflexivity.
    + intros i. specialize (Hl (S i)). rewrite Nat.add_succ_r in Hl. exact Hl.
    + intros i. specialize (Hr (S i)). rewrite Nat.add_succ_r in Hr. exact Hr.
    + cbn in Hlen. unfold Py.len. lia.
Qed.

(** The loop over the longer side's tail appends it unchanged. *)
Lemma for_range_tail (Lft : string) :
  forall (t : string) (start : nat) (acc : list ascii),
    (forall i, String.get (start + i) Lft = String.get i t) ->
    Py.for_range start (Py.len t)
      (fun i s => x ← Py.getitem Lft i; Ok (s ++ [x])) acc
    = Ok (acc ++ list_ascii_of_string t).
Proof.
  induction t as [| c t IH]; intros start acc Ht.
  - cbn. rewrite app_nil_r. reflexivity.
  - cbn [Py.len String.length Py.for_range].
    assert (HL : Py.getitem Lft start = Ok c).
    { pose proof (Ht 0%nat) as H0. rewrite Nat.add_0_r in H0.
      unfold Py.getitem. rewrite H0. reflexivity. }
    rewrite HL. cbn [mbind res_bind].
    change (String.length t) with (Py.len t).
    rewrite (IH (S start)).
    + cbn [list_ascii_of_string]. rewrite <- app_assoc. reflexivity.
    + intros i. specialize (Ht (S i)). rewrite Nat.add_succ_r in Ht. exact Ht.
Qed.

Lemma bytewise_or_split (l r : string) :
  (Py.len r <= Py.len l)%nat ->
  bytewise_or l r = (bytewise Z.lor l r +:+ string_drop (Py.len r) l)%string.
Proof.
  revert r. induction l as [| a l IH]; intros r Hlen.
  - destruct r; [reflexivity | cbn in Hlen; lia].
  - destruct r as [| b r]; [reflexivity |].
    cbn. rewrite IH; [reflexivity | cbn in Hlen; unfold Py.len; lia].
Qed.

Lemma bytewise_or_comm (l r : string) : bytewise_or l r = bytewise_or r l.
Proof.
  revert r. induction l as [| a l IH]; intros r; destruct r as [| b r];
    try reflexivity.
  cbn. rewrite IH, Z.lor_comm. reflexivity.
Qed.

(** [or_string] computes [bytewise_or]. *)
Lemma or_string_eq (self : ObjSpace) (l r : string) :
  or_string self (W_StringObject l) (W_StringObject r)
  = Ok (W_StringObject (bytewise_or l r)).
Proof.
  assert (Hcase : forall lft rgt : string,
             (Py.len rgt <= Py.len lft)%nat ->
             (s ← Py.for_range 0 (Py.len rgt)
                   (fun i s =>
                      x ← Py.getitem lft i; y ← Py.getitem rgt i;
                      Ok (s ++ [Py.chr (Z.lor (Py.ord x) (Py.ord y))])) [];
              s ← Py.for_range (Py.len rgt) (Py.len lft - Py.len rgt)
                    (fun i s => x ← Py.getitem lft i; Ok (s ++ [x])) s;
              Ok (newstr (string_of_list_ascii s)))
             = Ok (W_StringObject (bytewise_or lft rgt))).
  { intros lft rgt Hlen.
    rewrite (for_range_bytewise Z.lor lft rgt rgt lft 0 [])
      by (trivial || exact Hlen).
    cbn [mbind res_bind app].
    rewrite <- (length_string_drop (Py.len rgt) lft).
    rewrite (for_range_tail lft (string_drop (Py.len rgt) lft))
      by (intros i; apply get_string_drop).
    cbn [mbind res_bind]. unfold newstr.
    rewrite string_of_list_ascii_app, !string_of_list_ascii_of_string.
    rewrite <- bytewise_or_split by exact Hlen. reflexivity. }
  unfold or_string. cbn [W.unwrap mbind res_bind].
  destruct (Nat.ltb_spec (Py.len l) (Py.len r)) as [Hlt | Hge]; cbn [fst snd].
  - rewrite Hcase by lia. rewrite bytewise_or_comm. reflexivity.
  - apply Hcase. exact Hge.
Qed.

(** [and_] and [xor] on two strings compute [bytewise]. *)
Lemma string_func_eq (op : Z -> Z -> Z) (l r : string) :
  string_func op (W_StringObject l) (W_StringObject r)
  = Ok (W_StringObject (bytewise op l r)).
Proof.
  assert (Hmin : exists r0, Py.len r0 = Nat.min (Py.len l) (Py.len r)
                            /\ (Py.len r0 <= Py.len l)%nat
                            /\ bytewise op l r0 = bytewise op l r
                            /\ forall i, (i < Py.len r0)%nat ->
                                         String.get i r = String.get i r0).
  { clear. revert r. induction l as [| a l IH]; intros r.
    - exists EmptyString. cbn. destruct r; repeat split; intros; lia.
    - destruct r as [| b r].
      + exists EmptyString. cbn. repeat split; intros; lia.
      + destruct (IH r) as (r0 & E & Hle & Hb & Hg).
        exists (String b r0). cbn. unfold Py.len in *.
        rewrite E, Hb. repeat split; [lia |].
        intros [| i] Hi; [reflexivity | apply Hg; lia]. }
  destruct Hmin as (r0 & E & Hle & Hb & Hg).
  unfold string_func. cbn [W.unwrap mbind res_bind]. rewrite <- E, <- Hb.
  assert (Hloop : forall (body1 body2 : nat -> list ascii -> res (list ascii)) n start acc,
             (forall i s, (i < start + n)%nat -> body1 i s = body2 i s) ->
             Py.for_range start n body1 acc = Py.for_range start n body2 acc).
  { clear. intros body1 body2 n. induction n as [| n IH]; intros start acc Hbody.
    - reflexivity.
    - cbn. rewrite Hbody by lia. destruct (body2 start acc); cbn; try reflexivity.
      apply IH. intros i s Hi. apply Hbody. lia. }
  rewrite (Hloop _ (fun i s =>
                      x ← Py.getitem l i; y ← Py.getitem r0 i;
                      Ok (s ++ [Py.chr (op (Py.ord x) (Py.ord y))]))).
  - rewrite (for_range_bytewise op l r0 r0 l 0 []) by (trivial || exact Hle).
    cbn [mbind res_bind app]. unfold newstr.
    rewrite string_of_list_ascii_of_string. reflexivity.
  - intros i s Hi. unfold Py.getitem. rewrite (Hg i) by lia. reflexivity.
Qed.

Lemma length_bytewise_or (l r : string) :
  Py.len (bytewise_or l r) = Nat.max (Py.len l) (Py.len r).
Proof.
  unfold Py.len. revert r. induction l as [| a l IH]; intros r.
  - destruct r; reflexivity.
  - destruct r as [| b r]; [reflexivity |]. cbn. rewrite IH. reflexivity.
Qed.

Lemma get_bytewise_or_overlap (l r : string) (i : nat) (a b : ascii) :
  String.get i l = Some a -> String.get i r = Some b ->
  String.get i (bytewise_or l r) = Some (Py.chr (Z.lor (Py.ord a) (Py.ord b))).
Proof.
  revert r i. induction l as [| x l IH]; intros r i Hl Hr.
  - destruct i; discriminate.
  - destruct r as [| y r]; [destruct i; discriminate |].
    destruct i as [| i]; cbn in *.
    + injection Hl as <-. injection Hr as <-. reflexivity.
    + apply IH; assumption.
Qed.

Lemma get_bytewise_or_tail (l r : string) (i : nat) :
  (Nat.min (Py.len l) (Py.len r) <= i)%nat ->
  String.get i (bytewise_or l r)
  = String.get i (if Nat.ltb (Py.len l) (Py.len r) then r else l).
Proof.
  unfold Py.len. revert r i. induction l as [| x l IH]; intros r i Hi.
  - destruct r; reflexivity.
  - destruct r as [| y r]; [reflexivity |].
    destruct i as [| i]; [cbn in Hi; lia |].
    cbn [bytewise_or String.get]. rewrite IH by (cbn in Hi; lia).
    cbn [String.length].
    change (Nat.ltb (S (String.length l)) (S (String.length r)))
      with (Nat.ltb (String.length l) (String.length r)).
    destruct (Nat.ltb (String.length l) (String.length r)); reflexivity.
Qed.

Lemma length_bytewise (op : Z -> Z -> Z) (l r : string) :
  Py.len (bytewise op l r) = Nat.min (Py.len l) (Py.len r).
Proof.
  unfold Py.len. revert r. induction l as [| a l IH]; intros r.
  - destruct r; reflexivity.
  - destruct r as [| b r]; [reflexivity |]. cbn. rewrite IH. reflexivity.
Qed.

Lemma get_bytewise (op : Z -> Z -> Z) (l r : string) (i : nat) (a b : ascii) :
  String.get i l = Some a -> String.get i r = Some b ->
  String.get i (bytewise op l r) = Some (Py.chr (op (Py.ord a) (Py.ord b))).
Proof.
  revert r i. induction l as [| x l IH]; intros r i Hl Hr.
  - destruct i; discriminate.
  - destruct r as [| y r]; [destruct i; discriminate |].
    destruct i as [| i]; cbn in *.
    + injection Hl as <-. injection Hr as <-. reflexivity.
    + apply IH; assumption.
Qed.

(** C5.  On two strings, [or] gives the byte-wise OR over the common
    prefix followed by the longer string's tail unchanged, so its length
    is the longer length; [and] and [xor] give the byte-wise operation
    over the common prefix only, so their length is the shorter length. *)
Theorem string_bitwise_lengths (self : ObjSpace) (h : gmap loc cell) (l r : string) :
  (exists s,
     or_ self h (W_StringObject l) (W_StringObject r) = Ok (W_StringObject s)
     /\ s = bytewise_or l r
     /\ Py.len s = Nat.max (Py.len l) (Py.len r)
     /\ (forall i a b, String.get i l = Some a -> String.get i r = Some b ->
           String.get i s = Some (Py.chr (Z.lor (Py.ord a) (Py.ord b))))
     /\ (forall i, (Nat.min (Py.len l) (Py.len r) <= i)%nat ->
           String.get i s
           = String.get i (if Nat.ltb (Py.len l) (Py.len r) then r else l)))
  /\ (exists s,
        and_ self h (W_StringObject l) (W_StringObject r) = Ok (W_StringObject s)
        /\ Py.len s = Nat.min (Py.len l) (Py.len r)
        /\ (forall i a b, String.get i l = Some a -> String.get i r = Some b ->
              String.get i s = Some (Py.chr (Z.land (Py.ord a) (Py.ord b)))))
  /\ (exists s,
        xor self h (W_StringObject l) (W_StringObject r) = Ok (W_StringObject s)
        /\ Py.len s = Nat.min (Py.len l) (Py.len r)
        /\ (forall i a b, String.get i l = Some a -> String.get i r = Some b ->
              String.get i s = Some (Py.chr (Z.lxor (Py.ord a) (Py.ord b)))))
  /\ or_string self (W_StringObject "AB") (W_StringObject "abcd")
     = Ok (W_StringObject "abcd").
Proof.
  split; [| split; [| split]].
  - exists (bytewise_or l r). split; [| split; [| split; [| split]]].
    + unfold or_. cbn [isinstance_W_StringObject andb]. apply or_string_eq.
    + reflexivity.
    + apply length_bytewise_or.
    + intros i a b. apply get_bytewise_or_overlap.
    + intros i. apply get_bytewise_or_tail.
  - exists (bytewise Z.land l r). split; [| split].
    + unfold and_, _new_bitwise. cbn [isinstance_W_StringObject andb].
      apply string_func_eq.
    + apply length_bytewise.
    + intros i a b. apply get_bytewise.
  - exists (bytewise Z.lxor l r). split; [| split].
    + unfold xor, _new_bitwise. cbn [isinstance_W_StringObject andb].
      apply string_func_eq.
    + apply length_bytewise.
    + intros i a b. apply get_bytewise.
  - rewrite or_string_eq. reflexivity.
Qed.

(** ** Slices *)

Lemma slice_loop_window (start shift : Z) :
  forall (itr : list (W_Root * W_Root)) (next_idx : Z)
         (res_arr : list (W_Root * W_Root)) (idx : Z),
    slice_loop start shift false false itr next_idx res_arr idx
    = Ok (res_arr
          ++ imap (fun i w => (W_IntObject (next_idx + Z.of_nat i), w))
               (take (Z.to_nat (start + shift - Z.max idx start))
                  (drop (Z.to_nat (start - idx)) (map snd itr)))).
Proof.
  induction itr as [| [w_key w_value] itr IH]; intros next_idx res_arr idx.
  - cbn. rewrite drop_nil, take_nil. cbn. rewrite app_nil_r. reflexivity.
  - cbn [slice_loop map snd].
    destruct (Z.leb_spec start idx) as [Hlo | Hlo];
      [destruct (Z.ltb_spec idx (start + shift)) as [Hhi | Hhi] |];
      cbn [andb mbind res_bind]; rewrite IH.
    + (* inside the window *)
      replace (Z.to_nat (start - idx)) with 0%nat by lia.
      replace (Z.to_nat (start - (idx + 1))) with 0%nat by lia.
      replace (Z.to_nat (start + shift - Z.max idx start))
        with (S (Z.to_nat (start + shift - Z.max (idx + 1) start))) by lia.
      cbn [drop take]. rewrite imap_cons, <- app_assoc. cbn [app].
      unfold newint. rewrite Z.add_0_r. do 3 f_equal.
      apply imap_ext. intros i w _. cbn. do 2 f_equal. lia.
    + (* past the window *)
      replace (Z.to_nat (start + shift - Z.max idx start)) with 0%nat by lia.
      replace (Z.to_nat (start + shift - Z.max (idx + 1) start)) with 0%nat by lia.
      reflexivity.
    + (* before the window *)
      replace (Z.to_nat (start - idx)) with (S (Z.to_nat (start - (idx + 1)))) by lia.
      replace (Z.max (idx + 1) start) with (Z.max idx start) by lia.
      reflexivity.
Qed.

Lemma set_key_fresh (its : list (W_Root * W_Root)) (k v : W_Root) :
  Forall (fun kv => W.key_eqb (fst kv) k = false) its ->
  W.set_key its k v = its ++ [(k, v)].
Proof.
  induction 1 as [| [k' v'] its Hk _ IH]; cbn; [reflexivity |].
  cbn in Hk. rewrite Hk, IH. reflexivity.
Qed.

Lemma renumbered_keys_below (vals : list W_Root) (n : Z) :
  Z.of_nat (length vals) <= n ->
  Forall (fun kv => W.key_eqb (fst kv) (W_IntObject n) = false) (renumbered vals).
Proof.
  intros Hn. apply Forall_forall. intros [k v] Hin.
  unfold renumbered in Hin. apply elem_of_lookup_imap in Hin.
  destruct Hin as (i & w & E & Hi). injection E as -> ->.
  apply lookup_lt_Some in Hi. cbn. apply Z.eqb_neq. lia.
Qed.

Lemma renumbered_snoc (vals : list W_Root) (v : W_Root) :
  renumbered (vals ++ [v])
  = renumbered vals ++ [(W_IntObject (Z.of_nat (length vals)), v)].
Proof.
  unfold renumbered. rewrite imap_app. cbn. rewrite Nat.add_0_r. reflexivity.
Qed.

(** Inserting pairs whose keys continue the numbering appends them. *)
Lemma fold_set_key_renumbered (self : ObjSpace) (vals : list W_Root) :
  forall acc : list W_Root,
    fold_left (fun its kv => W.set_key its (W.normalize_key self (fst kv)) (snd kv))
      (imap (fun i w => (W_IntObject (Z.of_nat (length acc) + Z.of_nat i), w)) vals)
      (renumbered acc)
    = renumbered (acc ++ vals).
Proof.
  induction vals as [| v vals IH]; intros acc.
  - cbn. rewrite app_nil_r. reflexivity.
  - rewrite imap_cons. cbn [fold_left fst snd W.normalize_key].
    rewrite Z.add_0_r, set_key_fresh by (apply renumbered_keys_below; lia).
    rewrite <- renumbered_snoc.
    replace (acc ++ v :: vals) with ((acc ++ [v]) ++ vals)
      by (rewrite <- app_assoc; reflexivity).
    rewrite <- IH. f_equal. apply imap_ext. intros i w _. cbn.
    rewrite length_app. cbn. do 2 f_equal. lia.
Qed.

Lemma new_array_from_pairs_renumbered (self : ObjSpace) (vals : list W_Root)
    (st : Interpreter) :
  new_array_from_pairs self
    (imap (fun i w => (W_IntObject (0 + Z.of_nat i), w)) vals) st
  = (Ok (W_ArrayObject (next_loc st)), with_object st (CArray (renumbered vals))).
Proof.
  unfold new_array_from_pairs, W.new_array_from_pairs, alloc, mbind, M_bind, mret, M_ret.
  change (imap (fun i w => (W_IntObject (0 + Z.of_nat i), w)) vals)
    with (imap (fun i w => (W_IntObject (Z.of_nat (@length W_Root []) + Z.of_nat i), w)) vals).
  change (@nil (W_Root * W_Root)) with (renumbered []).
  rewrite (fold_set_key_renumbered self vals []). reflexivity.
Qed.

(** C7.  With [keep_keys = False] (and [keep_str_keys] left at
    [False]), [slice] returns a fresh array holding the values of the
    window, in insertion order, under the keys 0, 1, ...; a negative
    [start] counts from the end of the array. *)
Theorem slice_renumbers_from_zero
    (self : ObjSpace) (st : Interpreter) (w_arr w : W_Root)
    (items : list (W_Root * W_Root)) (start shift : Z) :
  W.deref (heap st) w_arr = Ok w ->
  W.items (heap st) w = Ok items ->
  slice self w_arr start shift false false st
  = (Ok (W_ArrayObject (next_loc st)),
     with_object st (CArray (renumbered (slice_values (map snd items) start shift)))).
Proof.
  intros Hd Hi.
  assert (Hempty : forall vals, vals = [] ->
            new_array_from_list self [] st
            = (Ok (W_ArrayObject (next_loc st)),
               with_object st (CArray (renumbered vals)))).
  { intros vals ->. reflexivity. }
  unfold slice, get_heap, lift, arraylen, W.deref_temp, W.arraylen, mbind at 1 2, M_bind.
  destruct (Z.eqb_spec shift 0) as [-> | Hshift].
  { apply Hempty. unfold slice_values. cbn [Z.ltb Z.compare].
    match goal with |- take ?n _ = _ => replace n with 0%nat by lia end.
    reflexivity. }
  rewrite Hd. cbn [mbind res_bind]. rewrite Hi. cbn [mbind res_bind].
  destruct (Nat.eqb_spec (length items) 0) as [Hn | Hn].
  { apply Hempty. apply length_zero_iff_nil in Hn. subst items. unfold slice_values.
    cbn [map]. rewrite drop_nil. apply take_nil. }
  destruct (Z.gtb_spec start (Z.of_nat (length items))) as [Hgt | Hle].
  { apply Hempty. unfold slice_values. rewrite length_map.
    destruct (Z.ltb_spec start 0); [lia |].
    rewrite drop_ge by (rewrite length_map; lia). apply take_nil. }
  unfold mbind, M_bind. rewrite Hi, slice_loop_window. cbn [app].
  rewrite new_array_from_pairs_renumbered. unfold slice_values.
  rewrite length_map, !Z.sub_0_r. do 5 f_equal.
  destruct (Z.ltb_spec start 0); destruct (Z.ltb_spec shift 0); lia.
Qed.

Lemma slice_renumbers_from_zero_witness :
  slice space64 (W_ArrayObject 1%positive) (-2) 1 false false sample_interpreter
  = (Ok (W_ArrayObject 2%positive),
     with_object sample_interpreter (CArray [(W_IntObject 0, W_IntObject 30)])).
Proof.
  exact (slice_renumbers_from_zero space64 sample_interpreter
           (W_ArrayObject 1%positive) (W_ArrayObject 1%positive)
           [(W_IntObject 0, W_IntObject 10); (W_IntObject 1, W_IntObject 20);
            (W_IntObject 2, W_IntObject 30); (W_IntObject 3, W_IntObject 40)]
           (-2) 1 eq_refl eq_refl).
Defined.

(** ** The comparator on strings *)

Lemma _compare_S (fuel : nat) (self : ObjSpace) (h : gmap loc cell)
    (w_left w_right : W_Root) (strict ignore_order : bool) :
  _compare (S fuel) self h w_left w_right strict ignore_order
  = _compare_body self h (_compare fuel self h) fuel w_left w_right strict ignore_order.
Proof. reflexivity. Qed.

(** What the numeric-string parser makes of "10" and "9": an [Int], or
    where the platform's integers are too narrow the same value as a
    [Float]; all of the input is consumed. *)
Lemma convert_10_and_9 (self : ObjSpace) :
  convert_string_to_number self "10"
  = (if fits_int self 10 then W_IntObject 10 else W_FloatObject (float_of_int 10), true)
  /\ convert_string_to_number self "9"
     = (if fits_int self 9 then W_IntObject 9 else W_FloatObject (float_of_int 9), true).
Proof.
  split; cbv -[fits_int float_of_int]; destruct (fits_int self _); reflexivity.
Qed.

(** C1.  On the strings "10" and "9" the loose comparison returns 1:
    both parse fully as numbers and 10 > 9; the strict comparison skips
    the promotion, compares the bytes, and returns -1.  Both hold for
    the same operands, on every platform and with any fuel from 2 on. *)
Theorem compare_10_9_loose_and_strict
    (self : ObjSpace) (h : gmap loc cell) (fuel : nat) :
  _compare (S (S fuel)) self h (W_StringObject "10") (W_StringObject "9") false false
  = Ok 1
  /\ _compare (S (S fuel)) self h (W_StringObject "10") (W_StringObject "9") true false
     = Ok (-1)
  /\ convert_string_to_number space64 "10" = (W_IntObject 10, true)
  /\ convert_string_to_number space64 "9" = (W_IntObject 9, true).
Proof.
  split; [| split; [reflexivity | split; reflexivity]].
  rewrite _compare_S. unfold _compare_body.
  cbn -[convert_string_to_number _compare].
  rewrite andb_false_r. cbn [andb].
  destruct (convert_10_and_9 self) as [-> ->].
  rewrite _compare_S. unfold _compare_body.
  destruct (fits_int self 9); destruct (fits_int self 10);
    cbn -[float_of_int my_cmp]; f_equal; vm_compute; reflexivity.
Qed.

(** ** Floats that are numbers *)

Lemma SFeqb_refl (f : spec_float) : is_nan f = false -> SFeqb f f = true.
Proof.
  destruct f as [s | s | | s m e]; cbn; try discriminate; intros _.
  - reflexivity.
  - unfold SFeqb. cbn. destruct s; reflexivity.
  - unfold SFeqb. cbn. rewrite Z.compare_refl.
    change (Pos.compare_cont Eq m m) with (Pos.compare m m).
    rewrite Pos.compare_refl. destruct s; reflexivity.
Qed.

Lemma shr_1_nonneg (mrs : shr_record) : 0 <= shr_m mrs -> 0 <= shr_m (shr_1 mrs).
Proof.
  destruct mrs as [m r s]. cbn. intros Hm.
  destruct m as [| p | p]; [cbn; lia | | lia].
  destruct p; cbn; lia.
Qed.

Lemma iter_pos_shr_1_nonneg (p : positive) :
  forall mrs : shr_record, 0 <= shr_m mrs -> 0 <= shr_m (SpecFloat.iter_pos shr_1 p mrs).
Proof.
  induction p as [p IH | p IH |]; intros mrs Hm; cbn.
  - apply IH, IH, shr_1_nonneg, Hm.
  - apply IH, IH, Hm.
  - apply shr_1_nonneg, Hm.
Qed.

Lemma shr_fexp_nonneg (m e : Z) (l : location) :
  0 <= m -> 0 <= shr_m (fst (shr_fexp prec emax m e l)).
Proof.
  intros Hm. unfold shr_fexp, shr.
  assert (H0 : 0 <= shr_m (shr_record_of_loc m l)).
  { destruct l as [| []]; exact Hm. }
  destruct (fexp prec emax (Zdigits2 m + e) - e) as [| p | p]; cbn [fst];
    [exact H0 | apply iter_pos_shr_1_nonneg, H0 | exact H0].
Qed.

Lemma round_nearest_even_nonneg (m : Z) (l : location) :
  0 <= m -> 0 <= round_nearest_even m l.
Proof.
  intros Hm. unfold round_nearest_even.
  destruct l as [| []]; try destruct (Z.even m); lia.
Qed.

(** Rounding a non-negative mantissa never makes a NaN. *)
Lemma binary_round_aux_not_nan (sx : bool) (mx ex : Z) (lx : location) :
  0 <= mx -> is_nan (binary_round_aux prec emax sx mx ex lx) = false.
Proof.
  intros Hm. unfold binary_round_aux.
  pose proof (shr_fexp_nonneg mx ex lx Hm) as H1.
  destruct (shr_fexp prec emax mx ex lx) as [mrs' e']. cbn [fst] in H1.
  pose proof (shr_fexp_nonneg
                (round_nearest_even (shr_m mrs') (loc_of_shr_record mrs')) e' loc_Exact
                (round_nearest_even_nonneg _ _ H1)) as H2.
  destruct (shr_fexp prec emax _ e' loc_Exact) as [mrs'' e'']. cbn [fst] in H2.
  destruct (shr_m mrs'') as [| p | p]; [reflexivity | | lia].
  destruct (e'' <=? emax - prec); reflexivity.
Qed.

Lemma binary_normalize_not_nan (m e : Z) (szero : bool) :
  is_nan (binary_normalize prec emax m e szero) = false.
Proof.
  unfold binary_normalize, binary_round.
  destruct m as [| p | p]; [reflexivity | |];
    destruct (shl_align _ _ _) as [mz ez]; apply binary_round_aux_not_nan; lia.
Qed.

Lemma float_of_int_not_nan (n : Z) : is_nan (float_of_int n) = false.
Proof. apply binary_normalize_not_nan. Qed.

Lemma float_of_decimal_not_nan (neg : bool) (m e10 : Z) :
  is_nan (float_of_decimal neg m e10) = false.
Proof.
  unfold float_of_decimal. destruct m as [| p | p]; try reflexivity.
  destruct (0 <=? e10); [apply binary_normalize_not_nan |].
  unfold SFdiv.
  destruct (SFdiv_core_binary prec emax (Z.pos p) 0
              (Z.pos (Z.to_pos (10 ^ (- e10)))) 0) as [[mz ez] lz] eqn:E.
  apply binary_round_aux_not_nan.
  unfold SFdiv_core_binary in E.
  match type of E with
  | (let '(q, r) := Z.div_eucl ?a ?b in _) = _ =>
      pose proof (Z.div_pos a b) as Hq;
      unfold Z.div in Hq; destruct (Z.div_eucl a b) as [q r];
      assert (Ha : 0 <= a)
  end.
  - match goal with
    | |- 0 <= match ?s with _ => _ end => destruct s
    end; try lia.
    apply Z.shiftl_nonneg. lia.
  - injection E as <- _ _. apply Hq; [exact Ha | lia].
Qed.

Lemma convert_string_to_number_is_number (self : ObjSpace) (s : string) :
  is_number (fst (convert_string_to_number self s)).
Proof.
  unfold convert_string_to_number.
  destruct (scan_sign (skip_whitespace s)) as [neg s2].
  destruct (span_digits s2) as [ipart s3].
  destruct (scan_fraction s3) as [[has_dot fpart] s4].
  destruct (Nat.eqb (Py.len ipart + Py.len fpart) 0); [exact I |].
  destruct (scan_exponent s4) as [[has_exp e10] s5].
  destruct (negb has_dot && negb has_exp); cbn [fst is_number].
  - destruct (fits_int self _); cbn [fst is_number];
      [exact I | apply float_of_int_not_nan].
  - apply float_of_decimal_not_nan.
Qed.

(** ** Reflexivity of the comparator *)

Lemma my_cmp_int_refl (z : Z) (ignore_order : bool) : my_cmp z z ignore_order = 0.
Proof. unfold my_cmp. cbn. rewrite Z.eqb_refl. reflexivity. Qed.

Lemma my_cmp_float_refl (f : spec_float) (ignore_order : bool) :
  is_nan f = false -> my_cmp f f ignore_order = 0.
Proof. intros H. unfold my_cmp. cbn. rewrite SFeqb_refl by exact H. reflexivity. Qed.

Lemma my_cmp_bool_refl (b : bool) (ignore_order : bool) : my_cmp b b ignore_order = 0.
Proof. destruct b; reflexivity. Qed.

Lemma my_cmp_str_refl (s : string) (ignore_order : bool) : my_cmp s s ignore_order = 0.
Proof. unfold my_cmp. cbn. rewrite String.eqb_refl. reflexivity. Qed.

Lemma compare_number_refl (self : ObjSpace) (h : gmap loc cell) (n : W_Root)
    (strict ignore_order : bool) (fuel : nat) :
  is_number n -> _compare (S fuel) self h n n strict ignore_order = Ok 0.
Proof.
  intros Hn. rewrite _compare_S. unfold _compare_body.
  destruct n as [z | f | | | | | | |]; try contradiction; cbn in Hn.
  - cbn. rewrite andb_false_r, my_cmp_int_refl. reflexivity.
  - cbn. rewrite andb_false_r, my_cmp_float_refl by exact Hn. reflexivity.
Qed.

(** C4.  Comparing a value with itself gives 0, in loose and in strict
    mode, for every value but a Float NaN: ints, floats, strings,
    booleans, null, arrays, instances and resources, directly or behind
    a reference cell.  Two nested calls are all it takes. *)
Theorem compare_reflexive
    (self : ObjSpace) (h : gmap loc cell) (v w : W_Root)
    (strict ignore_order : bool) (fuel : nat) :
  W.deref h v = Ok w ->
  (forall r, w <> W_Reference r) ->
  w <> W_FloatObject S754_nan ->
  _compare (S (S fuel)) self h v v strict ignore_order = Ok 0.
Proof.
  intros Hd Href Hnan. rewrite _compare_S. unfold _compare_body.
  rewrite Hd. cbn [mbind res_bind].
  destruct w as [z | f | s | a | | b | a | k id | r].
  - cbn. rewrite andb_false_r, my_cmp_int_refl. reflexivity.
  - cbn. rewrite andb_false_r, my_cmp_float_refl; [reflexivity |].
    destruct f; try reflexivity. contradiction.
  - cbn -[convert_string_to_number _compare]. rewrite andb_false_r.
    destruct strict; cbn [negb]; [rewrite my_cmp_str_refl; reflexivity |].
    match goal with
    | |- (if ?fast then _ else ?slow) = _ =>
        assert (Hslow : slow = Ok 0); [| destruct fast eqn:Hfast; [| exact Hslow]]
    end.
    + pose proof (convert_string_to_number_is_number self s) as Hnum.
      destruct (convert_string_to_number self s) as [n valid].
      destruct valid; [| rewrite my_cmp_str_refl; reflexivity].
      apply compare_number_refl. exact Hnum.
    + apply andb_prop in Hfast as [_ Hlen].
      destruct s as [| c [| c' s]]; try discriminate.
      cbn. rewrite my_cmp_int_refl. reflexivity.
  - cbn. rewrite andb_false_r. cbn. rewrite Pos.eqb_refl. reflexivity.
  - cbn. rewrite andb_false_r. reflexivity.
  - cbn. rewrite andb_false_r, my_cmp_bool_refl. reflexivity.
  - cbn. rewrite andb_false_r. cbn. rewrite Pos.eqb_refl. reflexivity.
  - destruct k; cbn -[_compare]; rewrite andb_false_r; cbn -[_compare];
      apply compare_number_refl; exact I.
  - exfalso. exact (Href r eq_refl).
Qed.

Lemma compare_reflexive_witness :
  _compare 2 space64 cyclic_heap (W_Reference 2%positive) (W_Reference 2%positive)
    false false = Ok 0.
Proof.
  apply (compare_reflexive space64 cyclic_heap (W_Reference 2%positive)
           (W_ArrayObject 1%positive) false false 0 eq_refl);
    intros; discriminate.
Defined.

(** ** Arrays that contain themselves *)

Section Cyclic.

Variable self : ObjSpace.
Variable h : gmap loc cell.
Variables a1 r1 a2 r2 : loc.
Variable i : Z.

(** Two distinct arrays, each with one element: a reference cell that
    holds the array itself. *)
Hypothesis distinct : a1 <> a2.
Hypothesis array1 : h !! a1 = Some (CArray [(W_IntObject i, W_Reference r1)]).
Hypothesis cell1 : h !! r1 = Some (CReference (W_ArrayObject a1)).
Hypothesis array2 : h !! a2 = Some (CArray [(W_IntObject i, W_Reference r2)]).
Hypothesis cell2 : h !! r2 = Some (CReference (W_ArrayObject a2)).

(** One iteration pops the pair, finds the two elements to be the same
    two arrays, and pushes the pair again. *)
Lemma cyclic_step (cmp : W_Root -> W_Root -> bool -> bool -> res Z)
    (strict ignore_order : bool) :
  aggregates_step cmp self h ignore_order
    [Some (W_ArrayObject a1); Some (W_ArrayObject a2)] [strict]
  = Ok (Continue ([Some (W_ArrayObject a1); Some (W_ArrayObject a2)], [strict])).
Proof.
  assert (Hne : Pos.eqb a1 a2 = false) by (apply Pos.eqb_neq; exact distinct).
  unfold aggregates_step, pop. cbn [rev app mbind res_bind tp].
  cbn [Z.eqb tp_array Pos.eqb andb is_]. rewrite Hne.
  unfold W.arraylen, W.items. rewrite array1, array2.
  cbn [mbind res_bind length Nat.ltb Nat.leb array_loop W.key_eqb].
  rewrite Z.eqb_refl. cbn [mbind res_bind].
  unfold compare_values. cbn [W.deref]. rewrite cell1, cell2.
  cbn [mbind res_bind is_ tp]. rewrite Hne.
  cbn [is_aggregate_tp tp_array tp_object Z.eqb Pos.eqb orb andb].
  destruct ignore_order; reflexivity.
Qed.

Lemma cyclic_loop (cmp : W_Root -> W_Root -> bool -> bool -> res Z)
    (strict ignore_order : bool) (fuel : nat) :
  aggregates_loop cmp self h ignore_order fuel
    [Some (W_ArrayObject a1); Some (W_ArrayObject a2)] [strict]
  = OutOfFuel.
Proof.
  induction fuel as [| fuel IH]; [reflexivity |].
  cbn [aggregates_loop]. rewrite cyclic_step. exact IH.
Qed.

Lemma cyclic_iterate (cmp : W_Root -> W_Root -> bool -> bool -> res Z)
    (strict ignore_order : bool) (n : nat) :
  aggregates_iterate cmp self h ignore_order n
    [Some (W_ArrayObject a1); Some (W_ArrayObject a2)] [strict]
  = Ok (Continue ([Some (W_ArrayObject a1); Some (W_ArrayObject a2)], [strict])).
Proof.
  induction n as [| n IH]; [reflexivity |].
  cbn [aggregates_iterate]. rewrite cyclic_step. exact IH.
Qed.

Lemma cyclic_compare (strict ignore_order : bool) (fuel : nat) :
  _compare fuel self h (W_ArrayObject a1) (W_ArrayObject a2) strict ignore_order
  = OutOfFuel.
Proof.
  destruct fuel as [| fuel]; [reflexivity |].
  rewrite _compare_S. unfold _compare_body.
  cbn [W.deref mbind res_bind tp].
  cbn [Z.eqb tp_array tp_float tp_int Pos.eqb andb negb is_].
  rewrite andb_false_r.
  assert (Hne : Pos.eqb a1 a2 = false) by (apply Pos.eqb_neq; exact distinct).
  rewrite Hne. unfold W.arraylen, W.items. rewrite array1, array2.
  cbn [mbind res_bind length Nat.ltb Nat.leb].
  unfold _compare_aggregates. cbn [W.deref mbind res_bind].
  apply cyclic_loop.
Qed.

End Cyclic.

(** ** The work stack in general *)

Lemma pushed_refl (st : obj_stack) : pushed st st.
Proof. exists []. rewrite app_nil_r. split; reflexivity. Qed.

Lemma pushed_pair (st : obj_stack) (a b : option W_Root) : pushed st (st ++ [a; b]).
Proof. exists [a; b]. split; reflexivity. Qed.

Lemma even_length_app {A : Type} (p q : list A) :
  Nat.even (length p) = true -> Nat.even (length q) = true ->
  Nat.even (length (p ++ q)) = true.
Proof.
  intros Hp Hq. rewrite length_app, Nat.even_add, Hp, Hq. reflexivity.
Qed.

Lemma pushed_trans (st1 st2 st3 : obj_stack) :
  pushed st1 st2 -> pushed st2 st3 -> pushed st1 st3.
Proof.
  intros (p & -> & Hp) (q & -> & Hq). exists (p ++ q).
  rewrite app_assoc. split; [reflexivity | apply even_length_app; assumption].
Qed.

Lemma new_st_from_append2 (pfx : obj_stack) (new_st : option obj_stack)
    (a b : option W_Root) :
  new_st_from pfx new_st -> new_st_from pfx (new_st_append2 new_st a b).
Proof.
  destruct new_st as [st |]; cbn.
  - intros H. eapply pushed_trans; [exact H | apply pushed_pair].
  - intros ->. apply (pushed_pair [] a b).
Qed.

(** Whatever the recursive calls answer, the tail of an element loop
    returns only a verdict other than 0, and only in equality mode or
    while [new_st] is unallocated; otherwise it pushes a pair or leaves
    the stacks alone. *)
Lemma compare_values_pushes (cmp : W_Root -> W_Root -> bool -> bool -> res Z)
    (h : gmap loc cell) (io s sp : bool) (lv rv : W_Root)
    (pfx : obj_stack) (new_st : option obj_stack) (obj_st : obj_stack) (ss : list bool)
    (r : control loop_vars) :
  new_st_from pfx new_st ->
  compare_values cmp h io s sp lv rv new_st obj_st ss = Ok r ->
  match r with
  | Return z => z <> 0 /\ (io = true \/ pfx = [])
  | Break (new_st', obj_st', _) | Continue (new_st', obj_st', _) =>
      new_st_from pfx new_st' /\ pushed obj_st obj_st'
  end.
Proof.
  intros Hns. unfold compare_values.
  destruct (W.deref h lv) as [lv' | |]; try discriminate.
  destruct (W.deref h rv) as [rv' | |]; try discriminate.
  cbn [mbind res_bind].
  destruct (is_ lv' rv').
  { intros [= <-]. split; [exact Hns | apply pushed_refl]. }
  destruct (tp lv') as [tl | |]; try discriminate.
  destruct (tp rv') as [tr | |]; try discriminate.
  cbn [mbind res_bind].
  destruct (is_aggregate_tp tl && is_aggregate_tp tr).
  { destruct io; intros [= <-].
    - split; [exact Hns | apply pushed_pair].
    - split; [apply new_st_from_append2; exact Hns | apply pushed_refl]. }
  destruct (cmp lv' rv' s io) as [z | |]; try discriminate.
  cbn [mbind res_bind]. destruct (Z.eqb_spec z 0) as [-> | NZ]; cbn [negb].
  - intros [= <-]. split; [exact Hns | apply pushed_refl].
  - destruct io; cbn [orb].
    + intros [= <-]. split; [exact NZ | left; reflexivity].
    + destruct new_st as [st |]; cbn [isNone]; intros [= <-].
      * split; [apply (new_st_from_append2 pfx (Some st)); exact Hns | apply pushed_refl].
      * split; [exact NZ | right; exact Hns].
Qed.

Lemma array_loop_pushes (cmp : W_Root -> W_Root -> bool -> bool -> res Z)
    (self : ObjSpace) (h : gmap loc cell) (io : bool) (w_right : W_Root) (s : bool)
    (pfx : obj_stack) (left_itr : list (W_Root * W_Root)) :
  forall (right_itr : list (W_Root * W_Root)) (new_st : option obj_stack)
         (obj_st : obj_stack) (ss : list bool) (r : Z + loop_vars),
    new_st_from pfx new_st ->
    array_loop cmp self h io w_right s left_itr right_itr new_st obj_st ss = Ok r ->
    match r with
    | inl z => z <> 0 /\ (io = true \/ pfx = [])
    | inr (new_st', obj_st', _) => new_st_from pfx new_st' /\ pushed obj_st obj_st'
    end.
Proof.
  induction left_itr as [| [w_key w_left_val] left_itr IH];
    intros right_itr new_st obj_st ss r Hns.
  - intros [= <-]. split; [exact Hns | apply pushed_refl].
  - destruct right_itr as [| [w_rkey w_right_val] right_itr]; [discriminate |].
    cbn [array_loop].
    destruct (if W.key_eqb w_key w_rkey then Ok (Some w_right_val)
              else isset ← W.isset_index self h w_right w_key;
                   if negb isset then Ok None
                   else v ← getitem self h w_right w_key; Ok (Some v))
      as [[v |] | |]; try discriminate; cbn [mbind res_bind].
    + destruct (compare_values cmp h io s s w_left_val v new_st obj_st ss)
        as [c | |] eqn:E; try discriminate.
      pose proof (compare_values_pushes _ _ _ _ _ _ _ pfx _ _ _ _ Hns E) as Hc.
      cbn [mbind res_bind].
      destruct c as [z | [[new_st' obj_st'] ss'] | [[new_st' obj_st'] ss']].
      * intros [= <-]. exact Hc.
      * intros [= <-]. exact Hc.
      * destruct Hc as [Hns' Hp]. intros Hloop.
        pose proof (IH _ _ _ _ _ Hns' Hloop) as Hr.
        destruct r as [z | [[new_st'' obj_st''] ss'']]; [exact Hr |].
        destruct Hr as [Hns'' Hp']. split; [exact Hns'' | eapply pushed_trans; eassumption].
    + destruct io; intros [= <-].
      * split; [discriminate | left; reflexivity].
      * split; [apply new_st_from_append2; exact Hns | apply pushed_refl].
Qed.

Lemma object_loop_pushes (cmp : W_Root -> W_Root -> bool -> bool -> res Z)
    (h : gmap loc cell) (io : bool) (right_attrs : list (string * W_Root)) (s : bool)
    (pfx : obj_stack) (left_itr : list (string * W_Root)) :
  forall (right_itr : list (string * W_Root)) (new_st : option obj_stack)
         (obj_st : obj_stack) (ss : list bool) (r : Z + loop_vars),
    new_st_from pfx new_st ->
    object_loop cmp h io right_attrs s left_itr right_itr new_st obj_st ss = Ok r ->
    match r with
    | inl z => z <> 0 /\ (io = true \/ pfx = [])
    | inr (new_st', obj_st', _) => new_st_from pfx new_st' /\ pushed obj_st obj_st'
    end.
Proof.
  induction left_itr as [| [key w_left_val] left_itr IH];
    intros right_itr new_st obj_st ss r Hns.
  - intros [= <-]. split; [exact Hns | apply pushed_refl].
  - destruct right_itr as [| [r_key w_right_val] right_itr]; [discriminate |].
    cbn [object_loop].
    set (looked_up := if negb (String.eqb key r_key) then _ else _).
    assert (Hlook : match looked_up with
                    | inl z => z <> 0 /\ (io = true \/ pfx = [])
                    | inr (_, new_st') => new_st_from pfx new_st'
                    end).
    { unfold looked_up. destruct (negb (String.eqb key r_key)); [| exact Hns].
      destruct (dict_get right_attrs key); [exact Hns |].
      destruct io; cbn [orb].
      - split; [discriminate | left; reflexivity].
      - destruct new_st as [st |]; cbn [isNone].
        + apply (new_st_from_append2 pfx (Some st)). exact Hns.
        + split; [discriminate | right; exact Hns]. }
    destruct looked_up as [z | [v new_st1]].
    + intros [= <-]. exact Hlook.
    + destruct (compare_values cmp h io s false w_left_val v new_st1 obj_st ss)
        as [c | |] eqn:E; try discriminate.
      pose proof (compare_values_pushes _ _ _ _ _ _ _ pfx _ _ _ _ Hlook E) as Hc.
      cbn [mbind res_bind].
      destruct c as [z | [[new_st' obj_st'] ss'] | [[new_st' obj_st'] ss']].
      * intros [= <-]. exact Hc.
      * intros [= <-]. exact Hc.
      * destruct Hc as [Hns' Hp]. intros Hloop.
        pose proof (IH _ _ _ _ _ Hns' Hloop) as Hr.
        destruct r as [z | [[new_st'' obj_st''] ss'']]; [exact Hr |].
        destruct Hr as [Hns'' Hp']. split; [exact Hns'' | eapply pushed_trans; eassumption].
Qed.

Lemma drain_app (n : nat) :
  forall (p : obj_stack) (s : bool) (obj_st : obj_stack) (ss : list bool)
         (obj_st' : obj_stack) (ss' : list bool),
    (length p <= n)%nat ->
    drain p s obj_st ss = Ok (obj_st', ss') ->
    obj_st' = obj_st ++ p
    /\ ss' = ss ++ replicate (Nat.div2 (length p)) s
    /\ Nat.even (length p) = true.
Proof.
  induction n as [| n IH]; intros p s obj_st ss obj_st' ss' Hlen.
  - destruct p; [| cbn in Hlen; lia]. intros [= <- <-].
    rewrite !app_nil_r. repeat split; reflexivity.
  - destruct p as [| a [| b p]]; [| discriminate |].
    + intros [= <- <-]. rewrite !app_nil_r. repeat split; reflexivity.
    + cbn [drain]. intros H. apply IH in H; [| cbn in Hlen; lia].
      destruct H as (-> & -> & Hev). rewrite <- !app_assoc.
      split; [reflexivity | split; [reflexivity | exact Hev]].
Qed.

Lemma after_loop_pushes (strict : bool) (pfx : obj_stack) (new_st : option obj_stack)
    (obj_st : obj_stack) (ss : list bool) (r : control (obj_stack * list bool)) :
  new_st_from pfx new_st ->
  after_loop strict (inr (new_st, obj_st, ss)) = Ok r ->
  exists q ss',
    r = Continue (obj_st ++ rev q ++ rev pfx, ss') /\ Nat.even (length q) = true.
Proof.
  intros Hns. destruct new_st as [st |]; cbn [after_loop].
  - destruct Hns as (q & -> & Hq).
    destruct (drain (rev (pfx ++ q)) strict obj_st ss) as [[obj_st' ss'] | |] eqn:E;
      try discriminate.
    apply (drain_app _ _ _ _ _ _ _ (le_n _)) in E. destruct E as (-> & _ & _).
    cbn [mbind res_bind]. intros [= <-]. exists q, ss'.
    rewrite rev_app_distr. split; [reflexivity | exact Hq].
  - cbn in Hns. subst pfx. intros [= <-]. exists [], ss.
    cbn. rewrite app_nil_r. split; reflexivity.
Qed.

Lemma pop_snoc {A : Type} (l : list A) (x : A) : pop (l ++ [x]) = Ok (x, l).
Proof. unfold pop. rewrite rev_unit, rev_involutive. reflexivity. Qed.

Lemma inline_object_comparison_pushes (cmp : W_Root -> W_Root -> bool -> bool -> res Z)
    (h : gmap loc cell) (io : bool) (w_left w_right : W_Root) (s : bool)
    (obj_st : obj_stack) (ss : list bool) (r : control (obj_stack * list bool)) :
  inline_object_comparison cmp h io w_left w_right s obj_st ss = Ok r ->
  match r with
  | Return z => z <> 0
  | Break _ => False
  | Continue (obj_st', _) => pushed obj_st obj_st'
  end.
Proof.
  unfold inline_object_comparison.
  destruct (is_ w_left w_right).
  { intros [= <-]. apply pushed_refl. }
  destruct (W.getclass h w_left) as [kl | |]; try discriminate.
  destruct (W.getclass h w_right) as [kr | |]; try discriminate.
  cbn [mbind res_bind].
  destruct (s || negb (Pos.eqb (klass_id kl) (klass_id kr))).
  { intros [= <-]. discriminate. }
  destruct (W.get_instance_attrs h w_left) as [left | |]; try discriminate.
  destruct (W.get_instance_attrs h w_right) as [right | |]; try discriminate.
  cbn [mbind res_bind].
  destruct (Z.of_nat (length left) - Z.of_nat (length right) <? 0).
  { intros [= <-]. discriminate. }
  destruct (Z.of_nat (length left) - Z.of_nat (length right) >? 0).
  { intros [= <-]. discriminate. }
  destruct (object_loop cmp h io right s left right None obj_st ss) as [res | |] eqn:E;
    try discriminate.
  pose proof (object_loop_pushes _ _ _ _ _ [] _ _ None _ _ _ (eq_refl : new_st_from [] None) E)
    as Hres.
  cbn [mbind res_bind]. destruct res as [z | [[new_st' obj_st'] ss']].
  - intros [= <-]. apply Hres.
  - destruct Hres as [Hns Hp]. intros Hafter.
    destruct (after_loop_pushes _ _ _ _ _ _ Hns Hafter) as (q & ss'' & -> & Hq).
    eapply pushed_trans; [exact Hp |]. exists (rev q ++ rev []). split; [reflexivity |].
    cbn [rev]. rewrite app_nil_r, length_rev. exact Hq.
Qed.

(** One iteration of the work loop on any stack: it returns only a
    verdict other than 0, or goes on with the two popped entries
    replaced by pairs. *)
Lemma aggregates_step_pushes (cmp : W_Root -> W_Root -> bool -> bool -> res Z)
    (self : ObjSpace) (h : gmap loc cell) (io : bool)
    (rest : obj_stack) (x y : option W_Root) (ss : list bool)
    (r : control (obj_stack * list bool)) :
  aggregates_step cmp self h io (rest ++ [x; y]) ss = Ok r ->
  match r with
  | Return z => z <> 0
  | Break _ => False
  | Continue (obj_st', _) => pushed rest obj_st'
  end.
Proof.
  unfold aggregates_step.
  change (rest ++ [x; y]) with (rest ++ [x] ++ [y]). rewrite app_assoc, pop_snoc.
  cbn [mbind res_bind]. rewrite pop_snoc. cbn [mbind res_bind].
  destruct (pop ss) as [[s ss1] | |]; try discriminate. cbn [mbind res_bind].
  destruct x as [w_left |], y as [w_right |]; try discriminate.
  2: { intros [= <-]. discriminate. }
  destruct (tp w_left) as [left_tp | |]; try discriminate.
  destruct (tp w_right) as [right_tp | |]; try discriminate.
  cbn [mbind res_bind].
  destruct ((left_tp =? tp_array) && (right_tp =? tp_array)).
  { destruct (is_ w_left w_right).
    { intros [= <-]. apply pushed_refl. }
    destruct (W.arraylen h w_left) as [w_left_len | |]; try discriminate.
    destruct (W.arraylen h w_right) as [w_right_len | |]; try discriminate.
    cbn [mbind res_bind].
    destruct (Nat.ltb w_left_len w_right_len).
    { intros [= <-]. discriminate. }
    destruct (Nat.ltb w_right_len w_left_len).
    { intros [= <-]. discriminate. }
    destruct (W.items h w_left) as [left_itr | |]; try discriminate.
    destruct (W.items h w_right) as [right_itr | |]; try discriminate.
    cbn [mbind res_bind].
    destruct (array_loop cmp self h io w_right s left_itr right_itr None rest ss1)
      as [res | |] eqn:E; try discriminate.
    pose proof (array_loop_pushes _ _ _ _ _ _ [] _ _ None _ _ _
                  (eq_refl : new_st_from [] None) E) as Hres.
    cbn [mbind res_bind]. destruct res as [z | [[new_st' obj_st'] ss']].
    - intros [= <-]. apply Hres.
    - destruct Hres as [Hns Hp]. intros Hafter.
      destruct (after_loop_pushes _ _ _ _ _ _ Hns Hafter) as (q & ss'' & -> & Hq).
      eapply pushed_trans; [exact Hp |]. exists (rev q ++ rev []). split; [reflexivity |].
      cbn [rev]. rewrite app_nil_r, length_rev. exact Hq. }
  destruct ((left_tp =? tp_object) && (right_tp =? tp_object)).
  { destruct (W.getclass h w_left) as [left_klass | |]; try discriminate.
    cbn [mbind res_bind].
    destruct (klass_compare left_klass) as [compare |].
    2: { apply inline_object_comparison_pushes. }
    destruct w_left as [| | | | | | a | |];
      try (apply inline_object_comparison_pushes).
    destruct w_right as [| | | | | | b | |];
      try (apply inline_object_comparison_pushes).
    destruct (Z.eqb_spec (compare a b s) 0) as [Hz | Hnz]; cbn [negb].
    - intros [= <-]. apply pushed_refl.
    - intros [= <-]. exact Hnz. }
  destruct (cmp w_left w_right s io) as [z | |]; try discriminate.
  cbn [mbind res_bind]. destruct (Z.eqb_spec z 0) as [-> | NZ]; cbn [negb].
  - intros [= <-]. apply pushed_refl.
  - intros [= <-]. exact NZ.
Qed.

Lemma aggregates_loop_nonempty (cmp : W_Root -> W_Root -> bool -> bool -> res Z)
    (self : ObjSpace) (h : gmap loc cell) (io : bool) (n : nat)
    (obj_st : obj_stack) (ss : list bool) :
  obj_st <> [] ->
  aggregates_loop cmp self h io (S n) obj_st ss
  = (r ← aggregates_step cmp self h io obj_st ss;
     match r with
     | Return z => Ok z
     | Break _ => Ok 0
     | Continue (obj_st, ss) => aggregates_loop cmp self h io n obj_st ss
     end).
Proof. destruct obj_st; [contradiction | reflexivity]. Qed.

Lemma even_length_snoc2 {A : Type} (l : list A) :
  Nat.even (length l) = true -> l <> [] ->
  exists l' x y, l = l' ++ [x; y] /\ Nat.even (length l') = true.
Proof.
  intros Hev Hne.
  destruct (rev l) as [| y [| x rl]] eqn:E.
  - apply (f_equal (@rev A)) in E. rewrite rev_involutive in E. contradiction.
  - apply (f_equal (@rev A)) in E. rewrite rev_involutive in E. subst l. discriminate Hev.
  - apply (f_equal (@rev A)) in E. rewrite rev_involutive in E. cbn [rev] in E.
    rewrite <- app_assoc in E. cbn [app] in E. subst l.
    exists (rev rl), x, y. split; [reflexivity |].
    rewrite length_app, Nat.even_add in Hev. cbn [length Nat.even] in Hev.
    destruct (Nat.even (length (rev rl))); [reflexivity | discriminate Hev].
Qed.

Lemma _compare_ints (m : nat) (self : ObjSpace) (h : gmap loc cell) (x y : Z)
    (strict ignore_order : bool) :
  _compare (S m) self h (W_IntObject x) (W_IntObject y) strict ignore_order
  = Ok (my_cmp x y ignore_order).
Proof. destruct strict; reflexivity. Qed.

Lemma my_cmp_ints_differ (x y : Z) (io : bool) :
  x <> y -> (my_cmp x y io =? 0) = false /\ my_cmp x y true = -1.
Proof.
  intros Hxy. unfold my_cmp. cbn.
  destruct (Z.eqb_spec x y) as [E | _]; [contradiction |].
  split; [| reflexivity].
  destruct (io || (x <? y)); reflexivity.
Qed.

(** ** Arrays that hold themselves and one more element *)

Section Growing.

Variable self : ObjSpace.
Variable h : gmap loc cell.
Variables a1 r1 a2 r2 : loc.
Variables i j x y : Z.

(** Two distinct arrays of two elements: a reference cell that holds
    the array itself, then an int, not the same in both. *)
Hypothesis distinct : a1 <> a2.
Hypothesis array1 :
  h !! a1 = Some (CArray [(W_IntObject i, W_Reference r1); (W_IntObject j, W_IntObject x)]).
Hypothesis cell1 : h !! r1 = Some (CReference (W_ArrayObject a1)).
Hypothesis array2 :
  h !! a2 = Some (CArray [(W_IntObject i, W_Reference r2); (W_IntObject j, W_IntObject y)]).
Hypothesis cell2 : h !! r2 = Some (CReference (W_ArrayObject a2)).
Hypothesis differ : x <> y.

(** An ordered iteration pops the pair of arrays, defers it, meets the
    two ints, and pushes the ints and then the pair. *)
Lemma growing_step (m : nat) (strict : bool) (pre : obj_stack) (ss : list bool) :
  aggregates_step (_compare (S m) self h) self h false
    (pre ++ [Some (W_ArrayObject a1); Some (W_ArrayObject a2)]) (ss ++ [strict])
  = Ok (Continue
          ((pre ++ [Some (W_IntObject x); Some (W_IntObject y)])
           ++ [Some (W_ArrayObject a1); Some (W_ArrayObject a2)],
           (ss ++ [strict]) ++ [strict])).
Proof.
  assert (Hne : Pos.eqb a1 a2 = false) by (apply Pos.eqb_neq; exact distinct).
  destruct (my_cmp_ints_differ x y false differ) as [Hnz _].
  unfold aggregates_step.
  change (pre ++ [Some (W_ArrayObject a1); Some (W_ArrayObject a2)])
    with (pre ++ [Some (W_ArrayObject a1)] ++ [Some (W_ArrayObject a2)]).
  rewrite app_assoc, !pop_snoc. cbn [mbind res_bind]. rewrite pop_snoc.
  cbn [mbind res_bind tp].
  change ((tp_array =? tp_array) && (tp_array =? tp_array)) with true. cbv iota.
  cbn [is_]. rewrite Hne. unfold W.arraylen, W.items. rewrite array1, array2.
  cbn [mbind res_bind length Nat.ltb Nat.leb array_loop W.key_eqb].
  rewrite !Z.eqb_refl. cbn [mbind res_bind].
  unfold compare_values. cbn [W.deref]. rewrite cell1, cell2.
  cbn [mbind res_bind is_ tp]. rewrite Hne.
  change (is_aggregate_tp tp_array && is_aggregate_tp tp_array) with true. cbv iota.
  cbn [mbind res_bind new_st_append2 W.deref is_ tp].
  change (is_aggregate_tp tp_int && is_aggregate_tp tp_int) with false. cbv iota.
  rewrite _compare_ints. cbn [mbind res_bind]. rewrite Hnz.
  cbn [negb orb isNone new_st_append2 mbind res_bind after_loop app rev drain].
  rewrite <- !app_assoc. reflexivity.
Qed.

(** So the stack of an ordered comparison grows by a pair at each
    iteration. *)
Lemma growing_iterate (m : nat) (strict : bool) (n : nat) :
  forall (pre : obj_stack) (ss : list bool),
    aggregates_iterate (_compare (S m) self h) self h false n
      (pre ++ [Some (W_ArrayObject a1); Some (W_ArrayObject a2)]) (ss ++ [strict])
    = Ok (Continue
            (pre ++ concat (replicate n [Some (W_IntObject x); Some (W_IntObject y)])
             ++ [Some (W_ArrayObject a1); Some (W_ArrayObject a2)],
             ss ++ replicate (S n) strict)).
Proof.
  induction n as [| n IH]; intros pre ss; [reflexivity |].
  cbn [aggregates_iterate]. rewrite growing_step. cbn [mbind res_bind].
  rewrite IH. cbn [replicate concat]. rewrite <- !app_assoc. reflexivity.
Qed.

(** An equality comparison pushes the pair and then meets the two
    ints: it answers -1. *)
Lemma growing_equality (m : nat) (strict : bool) :
  _compare (S (S m)) self h (W_ArrayObject a1) (W_ArrayObject a2) strict true = Ok (-1).
Proof.
  assert (Hne : Pos.eqb a1 a2 = false) by (apply Pos.eqb_neq; exact distinct).
  destruct (my_cmp_ints_differ x y true differ) as [Hnz Hm1].
  rewrite _compare_S. unfold _compare_body.
  cbn [W.deref mbind res_bind tp].
  cbn [Z.eqb tp_array tp_float tp_int Pos.eqb andb negb is_].
  rewrite andb_false_r, Hne. unfold W.arraylen, W.items. rewrite array1, array2.
  cbn [mbind res_bind length Nat.ltb Nat.leb].
  unfold _compare_aggregates. cbn [W.deref mbind res_bind].
  rewrite aggregates_loop_nonempty by discriminate.
  unfold aggregates_step, pop. cbn [rev app mbind res_bind tp].
  change ((tp_array =? tp_array) && (tp_array =? tp_array)) with true. cbv iota.
  cbn [is_]. rewrite Hne. unfold W.arraylen, W.items. rewrite array1, array2.
  cbn [mbind res_bind length Nat.ltb Nat.leb array_loop W.key_eqb].
  rewrite !Z.eqb_refl. cbn [mbind res_bind].
  unfold compare_values. cbn [W.deref]. rewrite cell1, cell2.
  cbn [mbind res_bind is_ tp]. rewrite Hne.
  change (is_aggregate_tp tp_array && is_aggregate_tp tp_array) with true. cbv iota.
  cbn [mbind res_bind new_st_append2 W.deref is_ tp].
  change (is_aggregate_tp tp_int && is_aggregate_tp tp_int) with false. cbv iota.
  rewrite _compare_ints. cbn [mbind res_bind]. rewrite Hnz, Hm1.
  reflexivity.
Qed.

End Growing.

(** ** Arrays that hold themselves first *)

Section SelfReference.

Variable self : ObjSpace.
Variable h : gmap loc cell.
Variables a1 r1 a2 r2 : loc.
Variable i : Z.
Variables rest1 rest2 : list (W_Root * W_Root).

(** Two distinct arrays whose first element is, under the same int key,
    a reference cell that holds the array itself; [rest1] and [rest2]
    are whatever else they hold. *)
Hypothesis distinct : a1 <> a2.
Hypothesis array1 : h !! a1 = Some (CArray ((W_IntObject i, W_Reference r1) :: rest1)).
Hypothesis cell1 : h !! r1 = Some (CReference (W_ArrayObject a1)).
Hypothesis array2 : h !! a2 = Some (CArray ((W_IntObject i, W_Reference r2) :: rest2)).
Hypothesis cell2 : h !! r2 = Some (CReference (W_ArrayObject a2)).

(** An iteration that pops the pair of arrays: in equality mode it
    pushes the pair again, under whatever else it pushes; in ordered
    mode it leaves the pair on top. *)
Lemma self_reference_step (cmp : W_Root -> W_Root -> bool -> bool -> res Z)
    (io : bool) (pre : obj_stack) (ss : list bool)
    (r : control (obj_stack * list bool)) :
  aggregates_step cmp self h io
    (pre ++ [Some (W_ArrayObject a1); Some (W_ArrayObject a2)]) ss = Ok r ->
  match r with
  | Return z => z <> 0 /\ (io = true \/ length rest1 <> length rest2)
  | Break _ => False
  | Continue (obj_st', _) =>
      if io then
        exists post,
          obj_st' = pre ++ [Some (W_ArrayObject a1); Some (W_ArrayObject a2)] ++ post
          /\ Nat.even (length post) = true
      else
        exists mid,
          obj_st' = pre ++ mid ++ [Some (W_ArrayObject a1); Some (W_ArrayObject a2)]
  end.
Proof.
  assert (Hne : Pos.eqb a1 a2 = false) by (apply Pos.eqb_neq; exact distinct).
  unfold aggregates_step.
  change (pre ++ [Some (W_ArrayObject a1); Some (W_ArrayObject a2)])
    with (pre ++ [Some (W_ArrayObject a1)] ++ [Some (W_ArrayObject a2)]).
  rewrite app_assoc, pop_snoc. cbn [mbind res_bind]. rewrite pop_snoc.
  cbn [mbind res_bind].
  destruct (pop ss) as [[s ss1] | |]; try discriminate. cbn [mbind res_bind tp].
  change ((tp_array =? tp_array) && (tp_array =? tp_array)) with true. cbv iota.
  cbn [is_]. rewrite Hne. unfold W.arraylen, W.items. rewrite array1, array2.
  cbn [mbind res_bind length].
  destruct (Nat.ltb_spec (S (length rest1)) (S (length rest2))) as [Hlt | Hge].
  { intros [= <-]. split; [discriminate | right; lia]. }
  destruct (Nat.ltb_spec (S (length rest2)) (S (length rest1))) as [Hgt | Hle].
  { intros [= <-]. split; [discriminate | right; lia]. }
  cbn [array_loop W.key_eqb]. rewrite Z.eqb_refl. cbn [mbind res_bind].
  unfold compare_values at 1. cbn [W.deref]. rewrite cell1, cell2.
  cbn [mbind res_bind is_ tp]. rewrite Hne.
  change (is_aggregate_tp tp_array && is_aggregate_tp tp_array) with true. cbv iota.
  destruct io; cbn [mbind res_bind new_st_append2].
  - destruct (array_loop cmp self h true (W_ArrayObject a2) s rest1 rest2 None
                (pre ++ [Some (W_ArrayObject a1); Some (W_ArrayObject a2)])
                (ss1 ++ [s])) as [res | |] eqn:E; try discriminate.
    pose proof (array_loop_pushes _ _ _ _ _ _ [] _ _ None _ _ _
                  (eq_refl : new_st_from [] None) E) as Hres.
    cbn [mbind res_bind]. destruct res as [z | [[new_st' obj_st'] ss']].
    + intros [= <-]. split; [apply Hres | left; reflexivity].
    + destruct Hres as [Hns (p & -> & Hp)]. intros Hafter.
      destruct (after_loop_pushes _ _ _ _ _ _ Hns Hafter) as (q & ss'' & -> & Hq).
      exists (p ++ rev q). cbn [rev]. rewrite app_nil_r, <- !app_assoc.
      split; [reflexivity |].
      apply even_length_app; [exact Hp | rewrite length_rev; exact Hq].
  - destruct (array_loop cmp self h false (W_ArrayObject a2) s rest1 rest2
                (Some [Some (W_ArrayObject a2); Some (W_ArrayObject a1)])
                pre ss1) as [res | |] eqn:E; try discriminate.
    pose proof (array_loop_pushes _ _ _ _ _ _
                  [Some (W_ArrayObject a2); Some (W_ArrayObject a1)] _ _ _ _ _ _
                  (pushed_refl _ : new_st_from _ (Some _)) E) as Hres.
    cbn [mbind res_bind]. destruct res as [z | [[new_st' obj_st'] ss']].
    + destruct Hres as [_ [Hio | Hpfx]]; discriminate.
    + destruct Hres as [Hns (p & -> & Hp)]. intros Hafter.
      destruct (after_loop_pushes _ _ _ _ _ _ Hns Hafter) as (q & ss'' & -> & Hq).
      exists (p ++ rev q). cbn [rev app]. rewrite <- !app_assoc. reflexivity.
Qed.

(** In ordered mode the pair stays on top of the stack, so the loop
    never ends. *)
Lemma ordered_loop_never_returns (cmp : W_Root -> W_Root -> bool -> bool -> res Z) :
  length rest1 = length rest2 ->
  forall (fuel : nat) (pre : obj_stack) (ss : list bool) (z : Z),
    aggregates_loop cmp self h false fuel
      (pre ++ [Some (W_ArrayObject a1); Some (W_ArrayObject a2)]) ss <> Ok z.
Proof.
  intros Hlen. induction fuel as [| fuel IH]; intros pre ss z; [discriminate |].
  rewrite aggregates_loop_nonempty by (destruct pre; discriminate).
  destruct (aggregates_step cmp self h false
              (pre ++ [Some (W_ArrayObject a1); Some (W_ArrayObject a2)]) ss)
    as [r | |] eqn:E; try discriminate.
  pose proof (self_reference_step _ _ _ _ _ E) as Hr.
  cbn [mbind res_bind]. destruct r as [z' | st | [obj_st' ss']].
  - destruct Hr as [_ [Hio | Hne]]; [discriminate | contradiction].
  - contradiction.
  - destruct Hr as (mid & ->). rewrite app_assoc. apply IH.
Qed.

(** In equality mode the pair stays somewhere on the stack, so the loop
    never finds the stack empty: it cannot answer 0. *)
Lemma equality_loop_never_zero (cmp : W_Root -> W_Root -> bool -> bool -> res Z) :
  forall (fuel : nat) (pre post : obj_stack) (ss : list bool) (z : Z),
    Nat.even (length post) = true ->
    aggregates_loop cmp self h true fuel
      (pre ++ [Some (W_ArrayObject a1); Some (W_ArrayObject a2)] ++ post) ss = Ok z ->
    z <> 0.
Proof.
  induction fuel as [| fuel IH]; intros pre post ss z Hev; [discriminate |].
  rewrite aggregates_loop_nonempty by (destruct pre; discriminate).
  destruct post as [| e post0].
  - rewrite app_nil_r.
    destruct (aggregates_step cmp self h true
                (pre ++ [Some (W_ArrayObject a1); Some (W_ArrayObject a2)]) ss)
      as [r | |] eqn:E; try discriminate.
    pose proof (self_reference_step _ _ _ _ _ E) as Hr.
    cbn [mbind res_bind]. destruct r as [z' | st | [obj_st' ss']].
    + intros [= <-]. apply Hr.
    + contradiction.
    + destruct Hr as (post & -> & Hpost). apply IH. exact Hpost.
  - destruct (even_length_snoc2 (e :: post0) Hev ltac:(discriminate))
      as (post' & x & y & -> & Hev').
    replace (pre ++ [Some (W_ArrayObject a1); Some (W_ArrayObject a2)] ++ post' ++ [x; y])
      with ((pre ++ [Some (W_ArrayObject a1); Some (W_ArrayObject a2)] ++ post') ++ [x; y])
      by (rewrite <- !app_assoc; reflexivity).
    destruct (aggregates_step cmp self h true
                ((pre ++ [Some (W_ArrayObject a1); Some (W_ArrayObject a2)] ++ post')
                 ++ [x; y]) ss) as [r | |] eqn:E; try discriminate.
    pose proof (aggregates_step_pushes _ _ _ _ _ _ _ _ _ E) as Hr.
    cbn [mbind res_bind]. destruct r as [z' | st | [obj_st' ss']].
    + intros [= <-]. exact Hr.
    + contradiction.
    + destruct Hr as (p & -> & Hp). rewrite <- !app_assoc.
      apply IH. apply even_length_app; assumption.
Qed.

Lemma self_reference_compare (strict io : bool) (fuel : nat) (z : Z) :
  _compare fuel self h (W_ArrayObject a1) (W_ArrayObject a2) strict io = Ok z ->
  z <> 0 /\ (io = true \/ length rest1 <> length rest2).
Proof.
  destruct fuel as [| fuel]; [discriminate |].
  rewrite _compare_S. unfold _compare_body.
  cbn [W.deref mbind res_bind tp].
  cbn [Z.eqb tp_array tp_float tp_int Pos.eqb andb negb is_].
  rewrite andb_false_r.
  assert (Hne : Pos.eqb a1 a2 = false) by (apply Pos.eqb_neq; exact distinct).
  rewrite Hne. unfold W.arraylen, W.items. rewrite array1, array2.
  cbn [mbind res_bind length].
  destruct (Nat.ltb_spec (S (length rest1)) (S (length rest2))) as [Hlt | Hge].
  { intros [= <-]. split; [discriminate | right; lia]. }
  destruct (Nat.ltb_spec (S (length rest2)) (S (length rest1))) as [Hgt | Hle].
  { intros [= <-]. split; [discriminate | right; lia]. }
  unfold _compare_aggregates. cbn [W.deref mbind res_bind].
  destruct io.
  - intros Hloop. split; [| left; reflexivity].
    apply (equality_loop_never_zero _ fuel [] [] [strict] z eq_refl Hloop).
  - intros Hloop. exfalso.
    apply (ordered_loop_never_returns (_compare fuel self h) ltac:(lia) fuel []
             [strict] z Hloop).
Qed.

(** C2, as the code has it.  Take two distinct arrays whose first
    element is, under the same int key, a reference cell pointing back
    to the array itself.  The comparator has no cycle detection:
    whatever else the arrays hold, [_compare] never returns 0 for
    them, in either mode; when they have the same length, the ordered
    comparison returns no result at all, whatever the fuel.  When the
    self-reference is the only element, every iteration pops the pair
    of arrays and pushes the same pair again: the work stack holds that
    one pair at each loop head, and the comparison runs out of any
    fuel, in either mode.  The stack is not bounded in general: when
    each array holds a second element, under the same int key, with
    ints that differ, the work stack of the ordered comparison
    grows by a pair at each iteration, and the equality comparison
    returns -1.  Only an array compared with itself gives 0, by
    identity, before the loop is entered. *)
Theorem cyclic_arrays_never_compare_equal :
  (forall fuel strict ignore_order,
     _compare fuel self h (W_ArrayObject a1) (W_ArrayObject a2) strict ignore_order
     <> Ok 0)
  /\ (length rest1 = length rest2 ->
      forall fuel strict z,
        _compare fuel self h (W_ArrayObject a1) (W_ArrayObject a2) strict false <> Ok z)
  /\ (rest1 = [] -> rest2 = [] ->
      forall strict ignore_order,
        (forall cmp n,
           aggregates_iterate cmp self h ignore_order n
             [Some (W_ArrayObject a1); Some (W_ArrayObject a2)] [strict]
           = Ok (Continue ([Some (W_ArrayObject a1); Some (W_ArrayObject a2)],
                           [strict])))
        /\ (forall fuel,
              _compare fuel self h (W_ArrayObject a1) (W_ArrayObject a2)
                strict ignore_order
              = OutOfFuel))
  /\ (forall j x y,
        rest1 = [(W_IntObject j, W_IntObject x)] ->
        rest2 = [(W_IntObject j, W_IntObject y)] ->
        x <> y ->
        forall strict m,
          (forall n,
             aggregates_iterate (_compare (S m) self h) self h false n
               [Some (W_ArrayObject a1); Some (W_ArrayObject a2)] [strict]
             = Ok (Continue
                     (concat (replicate n [Some (W_IntObject x); Some (W_IntObject y)])
                      ++ [Some (W_ArrayObject a1); Some (W_ArrayObject a2)],
                      replicate (S n) strict)))
          /\ _compare (S (S m)) self h (W_ArrayObject a1) (W_ArrayObject a2) strict true
             = Ok (-1))
  /\ (forall fuel strict ignore_order,
        _compare (S fuel) self h (W_ArrayObject a1) (W_ArrayObject a1)
          strict ignore_order
        = Ok 0).
Proof.
  split; [| split; [| split; [| split]]].
  - intros fuel strict io Hz.
    destruct (self_reference_compare strict io fuel 0 Hz) as [NZ _].
    apply NZ. reflexivity.
  - intros Hlen fuel strict z Hz.
    destruct (self_reference_compare strict false fuel z Hz) as [_ [Hio | Hne]];
      [discriminate | contradiction].
  - intros E1 E2 strict io.
    pose proof array1 as A1. pose proof array2 as A2. rewrite E1 in A1. rewrite E2 in A2.
    split.
    + intros cmp n.
      apply (cyclic_iterate self h a1 r1 a2 r2 i distinct A1 cell1 A2 cell2).
    + intros fuel.
      apply (cyclic_compare self h a1 r1 a2 r2 i distinct A1 cell1 A2 cell2).
  - intros j x y E1 E2 Hxy strict m.
    pose proof array1 as A1. pose proof array2 as A2. rewrite E1 in A1. rewrite E2 in A2.
    split.
    + intros n.
      apply (growing_iterate self h a1 r1 a2 r2 i j x y distinct A1 cell1 A2 cell2 Hxy
               m strict n [] []).
    + apply (growing_equality self h a1 r1 a2 r2 i j x y distinct A1 cell1 A2 cell2 Hxy).
  - intros fuel strict io. rewrite _compare_S. unfold _compare_body.
    cbn [W.deref mbind res_bind tp].
    cbn [Z.eqb tp_array tp_float tp_int Pos.eqb andb negb is_].
    rewrite andb_false_r, Pos.eqb_refl. reflexivity.
Qed.

End SelfReference.

Lemma cyclic_arrays_never_compare_equal_witness :
  (aggregates_iterate (_compare 100 space64 cyclic_heap) space64 cyclic_heap false 100
     [Some (W_ArrayObject 1%positive); Some (W_ArrayObject 3%positive)] [false]
   = Ok (Continue ([Some (W_ArrayObject 1%positive); Some (W_ArrayObject 3%positive)],
                   [false]))
   /\ _compare 100 space64 cyclic_heap (W_ArrayObject 1%positive) (W_ArrayObject 3%positive)
        false false = OutOfFuel
   /\ _compare 100 space64 cyclic_heap (W_ArrayObject 1%positive) (W_ArrayObject 3%positive)
        false true = OutOfFuel
   /\ _compare 1 space64 cyclic_heap (W_ArrayObject 1%positive) (W_ArrayObject 1%positive)
        false false = Ok 0)
  /\ (aggregates_iterate (_compare 1 space64 growing_heap) space64 growing_heap false 3
        [Some (W_ArrayObject 1%positive); Some (W_ArrayObject 3%positive)] [false]
      = Ok (Continue
              ([Some (W_IntObject 1); Some (W_IntObject 2);
                Some (W_IntObject 1); Some (W_IntObject 2);
                Some (W_IntObject 1); Some (W_IntObject 2);
                Some (W_ArrayObject 1%positive); Some (W_ArrayObject 3%positive)],
               [false; false; false; false]))
      /\ _compare 2 space64 growing_heap (W_ArrayObject 1%positive) (W_ArrayObject 3%positive)
           false true = Ok (-1)
      /\ (forall fuel z,
            _compare fuel space64 growing_heap
              (W_ArrayObject 1%positive) (W_ArrayObject 3%positive) false false
            <> Ok z)
      /\ (forall fuel,
            _compare fuel space64 growing_heap
              (W_ArrayObject 1%positive) (W_ArrayObject 3%positive) false true
            <> Ok 0)).
Proof.
  split.
  - destruct (cyclic_arrays_never_compare_equal space64 cyclic_heap
                1%positive 2%positive 3%positive 4%positive 0 [] []
                ltac:(discriminate) eq_refl eq_refl eq_refl eq_refl)
      as (_ & _ & H3 & _ & H5).
    destruct (H3 eq_refl eq_refl false false) as [Hstack Hloop].
    destruct (H3 eq_refl eq_refl false true) as [_ Hloop'].
    split; [apply Hstack | split; [apply Hloop | split; [apply Hloop' | apply H5]]].
  - destruct (cyclic_arrays_never_compare_equal space64 growing_heap
                1%positive 2%positive 3%positive 4%positive 0
                [(W_IntObject 1, W_IntObject 1)] [(W_IntObject 1, W_IntObject 2)]
                ltac:(discriminate) eq_refl eq_refl eq_refl eq_refl)
      as (H1 & H2 & _ & H4 & _).
    destruct (H4 1 1 2 eq_refl eq_refl ltac:(discriminate) false 0%nat) as [Hgrow Heq].
    split; [apply (Hgrow 3%nat) | split; [exact Heq | split]].
    + intros fuel z. apply (H2 eq_refl).
    + intros fuel. apply H1.
Defined.

(** C2, as stated, fails: on the two self-containing arrays the
    comparison returns nothing, so it does not return 0. *)
Lemma cyclic_compare_does_not_return :
  (forall fuel,
     _compare fuel space64 cyclic_heap (W_ArrayObject 1%positive) (W_ArrayObject 3%positive)
       false false = OutOfFuel)
  /\ ~ (exists fuel,
          _compare fuel space64 cyclic_heap
            (W_ArrayObject 1%positive) (W_ArrayObject 3%positive) false false = Ok 0).
Proof.
  assert (H : forall fuel,
             _compare fuel space64 cyclic_heap
               (W_ArrayObject 1%positive) (W_ArrayObject 3%positive) false false
             = OutOfFuel).
  { intros fuel.
    apply (cyclic_compare space64 cyclic_heap 1%positive 2%positive 3%positive 4%positive 0);
      (discriminate || reflexivity). }
  split; [exact H |].
  intros [fuel Hfuel]. rewrite H in Hfuel. discriminate.
Qed.

(** * Further properties *)

(** ** Identifiers *)

Lemma varname_rest_is_clsname_rest (name : string) :
  is_valid_varname_rest name = true -> is_valid_clsname_rest name = true.
Proof.
  induction name as [| c name IH]; [reflexivity |]. cbn.
  destruct (is_alpha_ c || Py.is_digit c) eqn:E; cbn; [| discriminate].
  exact IH.
Qed.

Lemma clsname_rest_app (a b : string) :
  is_valid_clsname_rest a = true -> is_valid_clsname_rest b = true ->
  is_valid_clsname_rest (a +:+ b) = true.
Proof.
  intros Ha Hb. induction a as [| c a IH]; [exact Hb |].
  cbn [is_valid_clsname_rest] in Ha.
  change (String c a +:+ b)%string with (String c (a +:+ b)).
  cbn [is_valid_clsname_rest].
  destruct (negb _); [discriminate | exact (IH Ha)].
Qed.

Lemma clsname_is_clsname_rest (self : ObjSpace) (name : string) :
  is_valid_clsname self name = true -> is_valid_clsname_rest name = true.
Proof.
  destruct name as [| c name]; [discriminate |].
  cbn [is_valid_clsname is_valid_clsname_rest].
  destruct (is_alpha_ c); cbn [orb negb]; [trivial |].
  destruct (Ascii.eqb c backslash); cbn [orb negb].
  - rewrite orb_true_r. trivial.
  - discriminate.
Qed.

(** X1.  Every valid variable name is a valid class name; valid class names
    joined by a backslash, the namespace separator, form a valid class
    name; and a name that contains a backslash is no variable name. *)
Theorem valid_names_compose (self : ObjSpace) :
  (forall name, is_valid_varname self name = true -> is_valid_clsname self name = true)
  /\ (forall a b,
        is_valid_clsname self a = true -> is_valid_clsname self b = true ->
        is_valid_clsname self (a +:+ String backslash b) = true)
  /\ (forall a b, is_valid_varname self (a +:+ String backslash b) = false).
Proof.
  split; [| split].
  - intros [| c name]; [discriminate |]. cbn.
    destruct (is_alpha_ c); cbn; [| discriminate].
    apply varname_rest_is_clsname_rest.
  - intros a b Ha Hb.
    pose proof (clsname_is_clsname_rest self b Hb) as Hb'.
    destruct a as [| c a]; [discriminate |].
    cbn [is_valid_clsname] in Ha.
    change (String c a +:+ String backslash b)%string
      with (String c (a +:+ String backslash b)).
    cbn [is_valid_clsname].
    destruct (negb _); [discriminate |].
    apply clsname_rest_app; [exact Ha |].
    cbn [is_valid_clsname_rest].
    replace (is_alpha_ backslash || Py.is_digit backslash
             || Ascii.eqb backslash backslash) with true by reflexivity.
    exact Hb'.
  - intros a b. destruct a as [| c a]; [reflexivity |].
    change (String c a +:+ String backslash b)%string
      with (String c (a +:+ String backslash b)).
    cbn [is_valid_varname].
    destruct (negb (is_alpha_ c)); [reflexivity |].
    induction a as [| d a IH]; [reflexivity |].
    change (String d a +:+ String backslash b)%string
      with (String d (a +:+ String backslash b)).
    cbn [is_valid_varname_rest].
    destruct (negb _); [reflexivity | exact IH].
Qed.

(** X2.  [is_string] answers False exactly for the strings that start with a
    decimal digit and are not a longer string with a leading zero; on a
    string operand it emits nothing. *)
Theorem is_string_false_iff_leading_number
    (self : ObjSpace) (s : string) (st : Interpreter) :
  exists b : bool,
    is_string self (W_StringObject s) st = (Ok b, st)
    /\ (b = false <->
        exists c rest, s = String c rest /\ Py.is_digit c = true
                       /\ (c = "0"%char -> rest = EmptyString)).
Proof.
  unfold is_string, str_w, get_heap, lift, mbind, M_bind. cbn [W.deref W.str mret M_ret].
  destruct s as [| c rest].
  { exists true. split; [reflexivity |]. split; [discriminate |].
    intros (c & rest & E & _). discriminate. }
  assert (Hdigit : (Py.ord c <? Py.ord "0") || (Py.ord c >? Py.ord "9")
                   = negb (Py.is_digit c)).
  { unfold Py.is_digit. rewrite Z.gtb_ltb.
    destruct (Z.ltb_spec (Py.ord c) (Py.ord "0"));
      destruct (Z.ltb_spec (Py.ord "9") (Py.ord c));
      destruct (Z.leb_spec (Py.ord "0") (Py.ord c));
      destruct (Z.leb_spec (Py.ord c) (Py.ord "9")); try reflexivity; lia. }
  rewrite Hdigit.
  destruct (Ascii.eqb_spec c "0") as [-> | Hc]; cbn [andb].
  - destruct rest as [| c' rest]; cbn [Py.len String.length Nat.eqb negb].
    + exists false. split; [reflexivity |]. split; [| reflexivity].
      intros _. exists "0"%char, EmptyString. repeat split.
    + exists true. split; [reflexivity |]. split; [discriminate |].
      intros (c & r & E & _ & Hz). injection E as <- <-.
      discriminate (Hz eq_refl).
  - destruct (Py.is_digit c) eqn:Hd; cbn [negb].
    + exists false. split; [reflexivity |]. split; [| reflexivity].
      intros _. exists c, rest. repeat split; [exact Hd | contradiction].
    + exists true. split; [reflexivity |]. split; [discriminate |].
      intros (c0 & r & E & Hd0 & _). injection E as <- <-. congruence.
Qed.

(** ** Algebra of the byte-wise string operators *)

Lemma chr_ord (c : ascii) : Py.chr (Py.ord c) = c.
Proof. unfold Py.chr, Py.ord. rewrite N2Z.id. apply ascii_N_embedding. Qed.

Lemma bytewise_comm (op : Z -> Z -> Z) (l r : string) :
  (forall a b, op a b = op b a) -> bytewise op l r = bytewise op r l.
Proof.
  intros Hop. revert r. induction l as [| a l IH]; intros [| b r]; try reflexivity.
  cbn. rewrite IH, Hop. reflexivity.
Qed.

Lemma bytewise_diag (op : Z -> Z -> Z) (s : string) :
  (forall a, op a a = a) -> bytewise op s s = s.
Proof.
  intros Hop. induction s as [| c s IH]; [reflexivity |].
  cbn. rewrite Hop, chr_ord, IH. reflexivity.
Qed.

Lemma bytewise_or_diag (s : string) : bytewise_or s s = s.
Proof.
  induction s as [| c s IH]; [reflexivity |].
  cbn. rewrite Z.lor_diag, chr_ord, IH. reflexivity.
Qed.

(** The string whose [n] bytes are all zero. *)
Lemma bytewise_xor_diag (s : string) :
  bytewise Z.lxor s s
  = string_of_list_ascii (repeat (Py.chr 0) (Py.len s)).
Proof.
  induction s as [| c s IH]; [reflexivity |].
  cbn. rewrite Z.lxor_nilpotent. unfold Py.len in IH. rewrite IH. reflexivity.
Qed.

(** X3.  On strings, [or], [and] and [xor] are commutative; [or] and [and] of
    a string with itself give the string back, and [xor] of a string
    with itself gives as many zero bytes. *)
Theorem string_bitwise_algebra (self : ObjSpace) (h : gmap loc cell) (l r : string) :
  or_ self h (W_StringObject l) (W_StringObject r)
  = or_ self h (W_StringObject r) (W_StringObject l)
  /\ and_ self h (W_StringObject l) (W_StringObject r)
     = and_ self h (W_StringObject r) (W_StringObject l)
  /\ xor self h (W_StringObject l) (W_StringObject r)
     = xor self h (W_StringObject r) (W_StringObject l)
  /\ or_ self h (W_StringObject l) (W_StringObject l) = Ok (W_StringObject l)
  /\ and_ self h (W_StringObject l) (W_StringObject l) = Ok (W_StringObject l)
  /\ xor self h (W_StringObject l) (W_StringObject l)
     = Ok (W_StringObject (string_of_list_ascii (repeat (Py.chr 0) (Py.len l)))).
Proof.
  unfold or_, and_, xor, _new_bitwise. cbn [isinstance_W_StringObject andb].
  rewrite !or_string_eq, !string_func_eq.
  repeat split.
  - rewrite bytewise_or_comm. reflexivity.
  - rewrite (bytewise_comm Z.land l r Z.land_comm). reflexivity.
  - rewrite (bytewise_comm Z.lxor l r Z.lxor_comm). reflexivity.
  - rewrite bytewise_or_diag. reflexivity.
  - rewrite (bytewise_diag Z.land l Z.land_diag). reflexivity.
  - rewrite bytewise_xor_diag. reflexivity.
Qed.

(** ** Shifts of machine integers *)

Lemma intmask_small (self : ObjSpace) (x : Z) :
  - 2 ^ (LONG_BIT self - 1) <= x < 2 ^ (LONG_BIT self - 1) -> intmask self x = x.
Proof.
  intros Hx. unfold intmask, Py.intmask.
  assert (H : 2 ^ LONG_BIT self = 2 * 2 ^ (LONG_BIT self - 1)).
  { unfold LONG_BIT. destruct (sys_maxint self =? 2 ^ 31 - 1); reflexivity. }
  rewrite Z.mod_small by lia. lia.
Qed.

(** X4.  For a machine integer [x]: a left shift by a multiple of the word
    width leaves [x] unchanged (the count is masked to 0), and a right
    shift is the exact floor division by [2 ^ (n mod W)], never
    truncated, so it keeps the sign of [x]. *)
Theorem shifts_of_machine_integers
    (self : ObjSpace) (h : gmap loc cell) (x n k : Z) :
  - 2 ^ (LONG_BIT self - 1) <= x < 2 ^ (LONG_BIT self - 1) ->
  lshift self h (W_IntObject x) (W_IntObject (k * LONG_BIT self)) = Ok (W_IntObject x)
  /\ rshift self h (W_IntObject x) (W_IntObject n)
     = Ok (W_IntObject (x / 2 ^ (n mod LONG_BIT self)))
  /\ (0 <= x -> 0 <= x / 2 ^ (n mod LONG_BIT self) <= x)
  /\ (x < 0 -> x <= x / 2 ^ (n mod LONG_BIT self) < 0).
Proof.
  intros Hx.
  assert (HW : 0 < LONG_BIT self)
    by (unfold LONG_BIT; destruct (sys_maxint self =? 2 ^ 31 - 1); reflexivity).
  assert (Hn : 0 <= n mod LONG_BIT self) by (apply Z.mod_pos_bound; exact HW).
  assert (Hd : 0 < 2 ^ (n mod LONG_BIT self)) by (apply Z.pow_pos_nonneg; lia).
  pose proof (Z.div_mod x (2 ^ (n mod LONG_BIT self)) ltac:(lia)) as Hdiv.
  pose proof (Z.mod_pos_bound x (2 ^ (n mod LONG_BIT self)) Hd) as Hmod.
  assert (Hpos : 0 <= x -> 0 <= x / 2 ^ (n mod LONG_BIT self) <= x) by (intros; nia).
  assert (Hneg : x < 0 -> x <= x / 2 ^ (n mod LONG_BIT self) < 0) by (intros; nia).
  split; [| split; [| split; assumption]].
  - unfold lshift. rewrite !force_int_int. cbn [mbind res_bind].
    rewrite masked_count, Z.mod_mul by lia.
    rewrite Z.shiftl_0_r, intmask_small by exact Hx. reflexivity.
  - unfold rshift. rewrite !force_int_int. cbn [mbind res_bind].
    rewrite masked_count, Z.shiftr_div_pow2 by exact Hn.
    rewrite intmask_small; [reflexivity |].
    destruct (Z_lt_ge_dec x 0); [specialize (Hneg ltac:(lia)) | specialize (Hpos ltac:(lia))];
      lia.
Qed.

Lemma shifts_of_machine_integers_witness :
  lshift space64 ∅ (W_IntObject 1) (W_IntObject 64) = Ok (W_IntObject 1)
  /\ rshift space64 ∅ (W_IntObject (-8)) (W_IntObject 65) = Ok (W_IntObject (-4)).
Proof.
  destruct (shifts_of_machine_integers space64 ∅ 1 0 1) as (H1 & _);
    [split; [discriminate | reflexivity] |].
  destruct (shifts_of_machine_integers space64 ∅ (-8) 65 0) as (_ & H2 & _);
    [split; [discriminate | reflexivity] |].
  split; [exact H1 | exact H2].
Defined.

(** ** Comparisons with NaN *)

Lemma my_cmp_nan_l (f : spec_float) (ignore_order : bool) :
  my_cmp S754_nan f ignore_order = if ignore_order then -1 else 1.
Proof. destruct ignore_order; reflexivity. Qed.

Lemma my_cmp_nan_r (f : spec_float) (ignore_order : bool) :
  my_cmp f S754_nan ignore_order = if ignore_order then -1 else 1.
Proof. destruct f, ignore_order; reflexivity. Qed.

(** X5.  A Float NaN is "greater" than every Int and every Float, NaN
    included, on whichever side it stands: [gt] and [ge] answer true and
    [lt], [le] and [eq] answer false in both operand orders. *)
Theorem nan_is_greater_on_both_sides
    (self : ObjSpace) (h : gmap loc cell) (fuel : nat) (z : Z) (f : spec_float) :
  Forall
    (fun v =>
       Forall
         (fun operands =>
            Cmp.gt (S fuel) self h (fst operands) (snd operands) = Ok w_True
            /\ Cmp.ge (S fuel) self h (fst operands) (snd operands) = Ok w_True
            /\ Cmp.lt (S fuel) self h (fst operands) (snd operands) = Ok w_False
            /\ Cmp.le (S fuel) self h (fst operands) (snd operands) = Ok w_False
            /\ Cmp.eq (S fuel) self h (fst operands) (snd operands) = Ok w_False)
         [(W_FloatObject S754_nan, v); (v, W_FloatObject S754_nan)])
    [W_IntObject z; W_FloatObject f].
Proof.
  unfold Cmp.gt, Cmp.ge, Cmp.lt, Cmp.le, Cmp.eq.
  repeat first [apply Forall_nil_2 | apply Forall_cons_2]; cbn [fst snd];
    rewrite !_compare_S; unfold _compare_body;
    cbn -[my_cmp float_of_int];
    rewrite ?my_cmp_nan_l, ?my_cmp_nan_r; repeat split; reflexivity.
Qed.

(** ** The lenient integer scan on well-formed input *)

Lemma skip_whitespace_app (ws s : string) :
  all_whitespace ws = true -> skip_whitespace (ws +:+ s) = skip_whitespace s.
Proof.
  induction ws as [| c ws IH]; [reflexivity |]. cbn [all_whitespace].
  intros H. apply andb_prop in H as [Hc Hws].
  change (String c ws +:+ s)%string with (String c (ws +:+ s)).
  cbn [skip_whitespace]. rewrite Hc. exact (IH Hws).
Qed.

Lemma append_empty_r (s : string) : (s +:+ EmptyString)%string = s.
Proof. induction s as [| a s IH]; [reflexivity | exact (f_equal (String a) IH)]. Qed.

Lemma append_snoc (acc : string) (c : ascii) (s : string) :
  ((acc +:+ String c EmptyString) +:+ s)%string = (acc +:+ String c s)%string.
Proof. induction acc as [| a acc IH]; [reflexivity | exact (f_equal (String a) IH)]. Qed.

Lemma scan_decstr_digits (digits rest acc : string) :
  Py.all_digits digits = true -> ends_integer rest = true ->
  scan_decstr (digits +:+ rest) acc = (acc +:+ digits)%string.
Proof.
  revert acc. induction digits as [| c digits IH]; intros acc Hd Hrest.
  - change (EmptyString +:+ rest)%string with rest. rewrite append_empty_r.
    destruct rest as [| c rest]; [reflexivity |].
    cbn in Hrest. apply negb_true_iff in Hrest.
    apply orb_false_elim in Hrest as [Hrest Hplus].
    apply orb_false_elim in Hrest as [Hdig Hminus].
    cbn [scan_decstr]. rewrite Hdig, Hminus, Hplus. reflexivity.
  - cbn [Py.all_digits] in Hd. apply andb_prop in Hd as [Hc Hd].
    change (String c digits +:+ rest)%string with (String c (digits +:+ rest)).
    cbn [scan_decstr]. rewrite Hc, IH by assumption. apply append_snoc.
Qed.

Lemma digit_cases (c : ascii) :
  Py.is_digit c = true ->
  In c ["0"; "1"; "2"; "3"; "4"; "5"; "6"; "7"; "8"; "9"]%char.
Proof.
  destruct c as [[] [] [] [] [] [] [] []]; intros H;
    try (vm_compute in H; discriminate H); cbn; tauto.
Qed.

Lemma digit_is_no_whitespace (c : ascii) :
  Py.is_digit c = true -> Py.contains c PHP_WHITESPACE = false.
Proof.
  intros H. apply digit_cases in H. cbn in H.
  repeat destruct H as [<- | H]; try reflexivity. destruct H.
Qed.

Lemma int_of_digits (c : ascii) (digits : string) :
  Py.all_digits (String c digits) = true ->
  Py.int (String c digits) = Ok (Py.digits_val 0 (String c digits))
  /\ Py.int (String "-" (String c digits)) = Ok (- Py.digits_val 0 (String c digits))
  /\ Py.int (String "+" (String c digits)) = Ok (Py.digits_val 0 (String c digits)).
Proof.
  intros H.
  assert (Hin : In c ["0"; "1"; "2"; "3"; "4"; "5"; "6"; "7"; "8"; "9"]%char).
  { apply digit_cases. cbn [Py.all_digits] in H. apply andb_prop in H as [Hc _]. exact Hc. }
  split.
  - cbn in Hin. repeat destruct Hin as [<- | Hin]; try destruct Hin;
      unfold Py.int; cbv beta iota; rewrite H; reflexivity.
  - unfold Py.int; cbv beta iota; rewrite H; split; reflexivity.
Qed.

(** X6.  After leading whitespace, an optional sign and at least one digit,
    [force_int] on a string returns the value of the digits with that
    sign and ignores whatever follows the first byte that is no digit
    and no sign; a string with no digit and no sign after its leading
    whitespace gives 0. *)
Theorem force_int_reads_leading_integer
    (self : ObjSpace) (h : gmap loc cell) (ws digits rest : string) (c : ascii) :
  all_whitespace ws = true ->
  Py.all_digits (String c digits) = true ->
  ends_integer rest = true ->
  force_int self h (W_StringObject (ws +:+ String c digits +:+ rest))
  = Ok (Py.digits_val 0 (String c digits))
  /\ force_int self h (W_StringObject (ws +:+ String "-" (String c digits) +:+ rest))
     = Ok (- Py.digits_val 0 (String c digits))
  /\ force_int self h (W_StringObject (ws +:+ String "+" (String c digits) +:+ rest))
     = Ok (Py.digits_val 0 (String c digits))
  /\ (skip_whitespace rest = rest ->
      force_int self h (W_StringObject (ws +:+ rest)) = Ok 0).
Proof.
  intros Hws Hd Hrest.
  destruct (int_of_digits c digits Hd) as (Hint & Hminus & Hplus).
  assert (Hc : Py.contains c PHP_WHITESPACE = false).
  { apply digit_is_no_whitespace. cbn [Py.all_digits] in Hd.
    apply andb_prop in Hd as [Hc _]. exact Hc. }
  assert (Hscan : scan_decstr (String c digits +:+ rest) EmptyString = String c digits).
  { apply (scan_decstr_digits (String c digits) rest EmptyString Hd Hrest). }
  assert (Hscan' : forall s : ascii,
             scan_decstr (String c digits +:+ rest) (String s EmptyString)
             = String s (String c digits)).
  { intros s. apply (scan_decstr_digits (String c digits) rest (String s EmptyString) Hd Hrest). }
  unfold force_int, _force_int_from_str, str_w_str.
  cbn [tp W.deref W.unwrap mbind res_bind Z.eqb tp_str Pos.eqb].
  repeat split; rewrite (skip_whitespace_app ws _ Hws).
  - change (String c digits +:+ rest)%string with (String c (digits +:+ rest)).
    cbn [skip_whitespace]. rewrite Hc.
    change (String c (digits +:+ rest)) with (String c digits +:+ rest)%string.
    rewrite Hscan. exact Hint.
  - change (String "-" (String c digits) +:+ rest)%string
      with (String "-" (String c digits +:+ rest)).
    change (skip_whitespace (String "-" (String c digits +:+ rest)))
      with (String "-" (String c digits +:+ rest)).
    change (scan_decstr (String "-" (String c digits +:+ rest)) EmptyString)
      with (scan_decstr (String c digits +:+ rest) (String "-" EmptyString)).
    rewrite Hscan'. exact Hminus.
  - change (String "+" (String c digits) +:+ rest)%string
      with (String "+" (String c digits +:+ rest)).
    change (skip_whitespace (String "+" (String c digits +:+ rest)))
      with (String "+" (String c digits +:+ rest)).
    change (scan_decstr (String "+" (String c digits +:+ rest)) EmptyString)
      with (scan_decstr (String c digits +:+ rest) (String "+" EmptyString)).
    rewrite Hscan'. exact Hplus.
  - intros ->.
    pose proof (scan_decstr_digits EmptyString rest EmptyString eq_refl Hrest) as E.
    change (scan_decstr rest EmptyString = EmptyString) in E.
    rewrite E. reflexivity.
Qed.

Lemma force_int_reads_leading_integer_witness :
  force_int space64 ∅ (W_StringObject "  42abc") = Ok 42
  /\ force_int space64 ∅ (W_StringObject "  -42abc") = Ok (- 42)
  /\ force_int space64 ∅ (W_StringObject "  +42abc") = Ok 42
  /\ (skip_whitespace "abc" = "abc"%string ->
      force_int space64 ∅ (W_StringObject "  abc") = Ok 0).
Proof.
  exact (force_int_reads_leading_integer space64 ∅ "  " "2" "abc" "4"
           eq_refl eq_refl eq_refl).
Defined.

(** ** Constants under every spelling *)

Lemma list_comprehension_variant (x : Z) (suf pre : list ascii) :
  0 <= x ->
  list_comprehension (length pre) (length suf)
    (fun i =>
       cs ← list_getitem
              (map (fun c => String (Py.lower_char c) (String (upper_char c) EmptyString))
                 (pre ++ suf))
              (Z.of_nat i);
       Py.getitem cs (Z.to_nat (Z.land (Z.shiftr x (Z.of_nat i)) 1)))
  = Ok (list_ascii_of_string
          (variant_of (Z.shiftr x (Z.of_nat (length pre))) (string_of_list_ascii suf))).
Proof.
  intros Hx. revert pre. induction suf as [| c suf IH]; intros pre; [reflexivity |].
  cbn [length list_comprehension string_of_list_ascii variant_of list_ascii_of_string].
  assert (Hget : list_getitem
            (map (fun c => String (Py.lower_char c) (String (upper_char c) EmptyString))
               (pre ++ c :: suf)) (Z.of_nat (length pre))
          = Ok (String (Py.lower_char c) (String (upper_char c) EmptyString))).
  { unfold list_getitem. rewrite length_map, length_app. cbn [length].
    destruct (Z.ltb_spec (Z.of_nat (length pre)) 0); [lia |].
    destruct (Z.leb_spec 0 (Z.of_nat (length pre))); [| lia].
    destruct (Z.ltb_spec (Z.of_nat (length pre)) (Z.of_nat (length pre + S (length suf))));
      [| lia].
    cbn [andb]. rewrite Nat2Z.id, list_lookup_fmap, lookup_app_r by lia.
    rewrite Nat.sub_diag. reflexivity. }
  rewrite Hget. cbn [mbind res_bind].
  assert (Hbit : Z.land (Z.shiftr x (Z.of_nat (length pre))) 1
                 = if Z.odd (Z.shiftr x (Z.of_nat (length pre))) then 1 else 0).
  { change 1 with (Z.ones 1) at 1. rewrite Z.land_ones by lia.
    rewrite Zmod_odd. change (2 ^ 1) with 2. reflexivity. }
  rewrite Hbit.
  specialize (IH (pre ++ [c])).
  rewrite <- app_assoc in IH. cbn [app] in IH.
  rewrite length_app in IH. cbn [length] in IH.
  replace (length pre + 1)%nat with (S (length pre)) in IH by lia.
  rewrite IH.
  replace (Z.shiftr x (Z.of_nat (S (length pre))))
    with (Z.shiftr (Z.shiftr x (Z.of_nat (length pre))) 1)
    by (rewrite Z.shiftr_shiftr by lia; f_equal; lia).
  destruct (Z.odd (Z.shiftr x (Z.of_nat (length pre)))); reflexivity.
Qed.

Lemma case_variant_eq (name : string) (x : Z) :
  0 <= x ->
  case_variant
    (map (fun c => String (Py.lower_char c) (String (upper_char c) EmptyString))
       (list_ascii_of_string name))
    (Py.len name) x
  = Ok (variant_of x name).
Proof.
  intros Hx. unfold case_variant.
  pose proof (list_comprehension_variant x (list_ascii_of_string name) [] Hx) as H.
  cbn [length app] in H. rewrite Z.shiftr_0_r in H.
  rewrite string_of_list_ascii_of_string in H.
  replace (length (list_ascii_of_string name)) with (Py.len name) in H.
  - unfold mbind in *. cbn [res_bind] in *. rewrite H. cbn [res_bind].
    rewrite string_of_list_ascii_of_string. reflexivity.
  - unfold Py.len. clear. induction name as [| c name IH]; cbn; congruence.
Qed.

Lemma variant_of_is_case_variant (name : string) (x : Z) :
  is_case_variant (variant_of x name) name = true.
Proof.
  revert x. induction name as [| c name IH]; intros x; [reflexivity |].
  cbn [variant_of is_case_variant]. rewrite IH, andb_true_r.
  destruct (Z.odd x); rewrite Ascii.eqb_refl; [apply orb_true_r | reflexivity].
Qed.

Lemma is_case_variant_has_bits (name key : string) :
  is_case_variant key name = true ->
  exists x, 0 <= x < 2 ^ Z.of_nat (Py.len name) /\ variant_of x name = key.
Proof.
  revert key. induction name as [| c name IH]; intros key H.
  - destruct key; [| discriminate H]. exists 0. split; [cbn; lia | reflexivity].
  - destruct key as [| k key]; [discriminate H |].
    cbn [is_case_variant] in H. apply andb_prop in H as [Hk Hrest].
    destruct (IH key Hrest) as (x & Hx & Hv).
    unfold Py.len in *. cbn [String.length].
    rewrite Nat2Z.inj_succ, Z.pow_succ_r by lia.
    apply orb_prop in Hk as [Hk | Hk]; apply Ascii.eqb_eq in Hk; subst k.
    + exists (2 * x). split; [lia |]. cbn [variant_of].
      rewrite Z.odd_mul, Z.shiftr_div_pow2 by lia. cbn [Z.odd andb].
      change (2 ^ 1) with 2. rewrite Z.mul_comm, Z.div_mul by lia.
      rewrite Hv. reflexivity.
    + exists (1 + 2 * x). split; [lia |]. cbn [variant_of].
      rewrite Z.odd_add_mul_2, Z.shiftr_div_pow2 by lia.
      change (2 ^ 1) with 2. change (Z.odd 1) with true. cbv iota.
      replace ((1 + 2 * x) / 2) with x by (apply Z.div_unique with 1; lia).
      rewrite Hv. reflexivity.
Qed.

Lemma for_range_inserts (w : W_Root) (k : nat -> res string) (key : string)
    (count start : nat) (acc : gmap string W_Root) :
  (forall x, (start <= x < start + count)%nat -> exists s, k x = Ok s) ->
  exists out,
    Py.for_range start count
      (fun x outdict => s ← k x; Ok (<[s := w]> outdict)) acc = Ok out
    /\ ((exists x, (start <= x < start + count)%nat /\ k x = Ok key) ->
        out !! key = Some w)
    /\ ((forall x, (start <= x < start + count)%nat -> k x <> Ok key) ->
        out !! key = acc !! key)
    /\ (out !! key = Some w \/ out !! key = acc !! key).
Proof.
  revert start acc. induction count as [| count IH]; intros start acc Hk.
  - exists acc. split; [reflexivity |]. split; [| split; [reflexivity | right; reflexivity]].
    intros (x & Hx & _). lia.
  - destruct (Hk start ltac:(lia)) as (s & Hs).
    cbn [Py.for_range]. rewrite Hs. cbn [mbind res_bind].
    destruct (IH (S start) (<[s := w]> acc)) as (out & Hout & Hin & Hnot & Hor).
    { intros x Hx. apply Hk. lia. }
    exists out. split; [exact Hout |]. split; [| split].
    + intros (x & Hx & Hkey).
      destruct (decide (x = start)) as [-> | NE].
      * rewrite Hs in Hkey. injection Hkey as ->.
        destruct Hor as [Hor | Hor]; [exact Hor |].
        rewrite Hor. apply lookup_insert_eq.
      * apply Hin. exists x. split; [lia | exact Hkey].
    + intros Hnone. rewrite Hnot.
      * apply lookup_insert_ne. intros ->. apply (Hnone start); [lia | exact Hs].
      * intros y Hy. apply Hnone. lia.
    + destruct Hor as [Hor | Hor]; [left; exact Hor |].
      rewrite Hor. destruct (decide (s = key)) as [-> | NE].
      * left. apply lookup_insert_eq.
      * right. apply lookup_insert_ne. exact NE.
Qed.

Lemma _setup_constant_any_case_lookup
    (self : ObjSpace) (name : string) (w_value : W_Root) (outdict : gmap string W_Root) :
  exists out,
    _setup_constant_any_case self name w_value outdict = Ok out
    /\ forall key,
         out !! key
         = if is_case_variant key name then Some w_value else outdict !! key.
Proof.
  unfold _setup_constant_any_case.
  set (cases := map _ (list_ascii_of_string name)).
  set (n := Z.to_nat (Z.shiftl 1 (Z.of_nat (Py.len name)))).
  assert (Hn : Z.of_nat n = 2 ^ Z.of_nat (Py.len name)).
  { unfold n. rewrite Z.shiftl_1_l, Z2Nat.id by lia. reflexivity. }
  assert (Hk : forall x : nat,
             case_variant cases (Py.len name) (Z.of_nat x)
             = Ok (variant_of (Z.of_nat x) name)).
  { intros x. apply case_variant_eq. lia. }
  destruct (for_range_inserts w_value
              (fun x => case_variant cases (Py.len name) (Z.of_nat x))
              EmptyString n 0 outdict) as (out & Hout & _).
  { intros x _. eexists. apply Hk. }
  exists out. split; [exact Hout |]. intros key.
  destruct (for_range_inserts w_value
              (fun x => case_variant cases (Py.len name) (Z.of_nat x))
              key n 0 outdict) as (out' & Hout' & Hin & Hnot & _).
  { intros x _. eexists. apply Hk. }
  rewrite Hout in Hout'. injection Hout' as <-.
  destruct (is_case_variant key name) eqn:Hv.
  - apply Hin. destruct (is_case_variant_has_bits name key Hv) as (x & Hx & Hkey).
    exists (Z.to_nat x). split; [lia |]. rewrite Hk, Z2Nat.id by lia.
    rewrite Hkey. reflexivity.
  - apply Hnot. intros x _ E. rewrite Hk in E. injection E as <-.
    rewrite variant_of_is_case_variant in Hv. discriminate Hv.
Qed.

(** X7.  [_setup_constant_any_case] returns normally and binds [w_value] to
    every spelling of [name] that differs from it only in the case of
    its bytes, and to nothing else: all other names keep what [outdict]
    held for them. *)
Theorem setup_constant_any_case_covers_spellings
    (self : ObjSpace) (name : string) (w_value : W_Root) (outdict : gmap string W_Root) :
  exists out,
    _setup_constant_any_case self name w_value outdict = Ok out
    /\ forall key,
         out !! key
         = if is_case_variant key name then Some w_value else outdict !! key.
Proof. apply _setup_constant_any_case_lookup. Qed.

(** ** Comparing arrays *)

Lemma my_cmp_int_nonzero (l r : Z) (ignore_order : bool) :
  (l =? r) = false -> my_cmp l r ignore_order <> 0.
Proof.
  intros H. unfold my_cmp. cbn [py_eq py_lt PyOrd_int]. rewrite H.
  destruct (ignore_order || (l <? r)); discriminate.
Qed.

Lemma compare_values_ints (cmp : W_Root -> W_Root -> bool -> bool -> res Z)
    (h : gmap loc cell) (ignore_order strict strict_pushed : bool)
    (l r : Z) (new_st : option obj_stack) (obj_st : obj_stack) (strict_st : list bool) :
  compare_values cmp h ignore_order strict strict_pushed (W_IntObject l) (W_IntObject r)
    new_st obj_st strict_st
  = (cmp_res ← cmp (W_IntObject l) (W_IntObject r) strict ignore_order;
     if negb (cmp_res =? 0) then
       if ignore_order || isNone new_st then Ok (Return cmp_res)
       else Ok (Break (new_st_append2 new_st (Some (W_IntObject r)) (Some (W_IntObject l)),
                       obj_st, strict_st))
     else Ok (Continue (new_st, obj_st, strict_st))).
Proof. reflexivity. Qed.

Lemma array_loop_ints (cmp : W_Root -> W_Root -> bool -> bool -> res Z)
    (self : ObjSpace) (h : gmap loc cell) (ignore_order strict : bool) (w_right : W_Root)
    (obj_st : obj_stack) (strict_st : list bool)
    (left_itr right_itr : list (W_Root * W_Root)) (ls rs : list Z) :
  (forall l r, cmp (W_IntObject l) (W_IntObject r) strict ignore_order
               = Ok (my_cmp l r ignore_order)) ->
  Forall2 (fun kv l => W.key_eqb (fst kv) (fst kv) = true /\ snd kv = W_IntObject l)
    left_itr ls ->
  Forall2 (fun kv r => snd kv = W_IntObject r) right_itr rs ->
  map fst left_itr = map fst right_itr ->
  array_loop cmp self h ignore_order w_right strict left_itr right_itr None obj_st strict_st
  = Ok (if lexicographic ignore_order ls rs =? 0 then inr (None, obj_st, strict_st)
        else inl (lexicographic ignore_order ls rs)).
Proof.
  intros Hcmp Hl. revert right_itr rs.
  induction Hl as [| [k v] l left_itr ls [Hk Hv] Hl IH]; intros right_itr rs Hr Hkeys.
  - reflexivity.
  - cbn [fst snd] in Hk, Hv. subst v.
    destruct Hr as [| [k' v'] r right_itr rs Hv' Hr]; [discriminate Hkeys |].
    cbn [fst snd map] in Hv', Hkeys. subst v'. injection Hkeys as <- Hkeys.
    cbn [array_loop lexicographic]. rewrite Hk. cbn [mbind res_bind].
    rewrite compare_values_ints, Hcmp. cbn [mbind res_bind].
    destruct (l =? r) eqn:E.
    + apply Z.eqb_eq in E. subst r. rewrite my_cmp_int_refl. cbn [Z.eqb negb].
      apply IH; assumption.
    + pose proof (my_cmp_int_nonzero l r ignore_order E) as Hnz.
      apply Z.eqb_neq in Hnz. rewrite Hnz. cbn [negb isNone]. rewrite orb_true_r.
      reflexivity.
Qed.

Lemma imap_int_items (f : nat -> Z) (ls : list Z) :
  Forall2 (fun kv l => W.key_eqb (fst kv) (fst kv) = true /\ snd kv = W_IntObject l)
    (imap (fun i w => (W_IntObject (f i), w)) (map W_IntObject ls)) ls
  /\ forall (rs : list Z), length rs = length ls ->
       map fst (imap (fun i w => (W_IntObject (f i), w)) (map W_IntObject ls))
       = map fst (imap (fun i w => (W_IntObject (f i), w)) (map W_IntObject rs)).
Proof.
  revert f. induction ls as [| l ls IH]; intros f.
  - split; [constructor |]. intros [| r rs] H; [reflexivity | discriminate H].
  - destruct (IH (f ∘ S)) as [IH1 IH2]. split.
    + cbn [map imap]. constructor; [| exact IH1].
      cbn [fst snd W.key_eqb]. rewrite Z.eqb_refl. split; reflexivity.
    + intros [| r rs] H; [discriminate H |]. injection H as H.
      cbn [map imap fst]. f_equal. apply (IH2 rs H).
Qed.

Lemma _compare_arrays (n : nat) (self : ObjSpace) (h : gmap loc cell) (a b : loc)
    (strict ignore_order : bool) :
  _compare (S n) self h (W_ArrayObject a) (W_ArrayObject b) strict ignore_order
  = if Pos.eqb a b then Ok 0
    else
      w_left_len ← W.arraylen h (W_ArrayObject a);
      w_right_len ← W.arraylen h (W_ArrayObject b);
      if Nat.ltb w_left_len w_right_len then Ok (-1)
      else if Nat.ltb w_right_len w_left_len then Ok 1
      else aggregates_loop (_compare n self h) self h ignore_order n
             [Some (W_ArrayObject a); Some (W_ArrayObject b)] [strict].
Proof. destruct strict; reflexivity. Qed.

Lemma aggregates_step_arrays (cmp : W_Root -> W_Root -> bool -> bool -> res Z)
    (self : ObjSpace) (h : gmap loc cell) (ignore_order strict : bool) (a b : loc)
    (itemsl itemsr : list (W_Root * W_Root)) :
  W.items h (W_ArrayObject a) = Ok itemsl -> W.items h (W_ArrayObject b) = Ok itemsr ->
  Pos.eqb a b = false -> length itemsl = length itemsr ->
  aggregates_step cmp self h ignore_order
    [Some (W_ArrayObject a); Some (W_ArrayObject b)] [strict]
  = (r ← array_loop cmp self h ignore_order (W_ArrayObject b) strict itemsl itemsr
           None [] [];
     after_loop strict r).
Proof.
  intros Ha Hb Hab Hlen. unfold aggregates_step.
  cbn [pop rev app mbind res_bind tp].
  change ((tp_array =? tp_array) && (tp_array =? tp_array)) with true. cbv iota.
  cbn [is_]. rewrite Hab. unfold W.arraylen.
  rewrite Ha. cbn [mbind res_bind]. rewrite Hb. cbn [mbind res_bind].
  rewrite Hlen, Nat.ltb_irrefl. reflexivity.
Qed.

(** X8.  Two arrays built by [new_array_from_list] from lists of ints compare
    by their lengths first, the shorter being less; with equal lengths
    the first position where they differ decides, and they compare equal
    when there is none.  That holds for every mode of [_compare], strict
    or loose, ordered or not. *)
Theorem int_lists_compare_by_length_then_first_difference
    (self : ObjSpace) (st : Interpreter) (ls rs : list Z)
    (fuel : nat) (strict ignore_order : bool) :
  exists w_left w_right st',
    (w_left ← new_array_from_list self (map W_IntObject ls);
     w_right ← new_array_from_list self (map W_IntObject rs);
     mret (w_left, w_right)) st = (Ok (w_left, w_right), st')
    /\ _compare (S (S (S fuel))) self (heap st') w_left w_right strict ignore_order
       = Ok (if (length ls <? length rs)%nat then -1
             else if (length rs <? length ls)%nat then 1
             else lexicographic ignore_order ls rs).
Proof.
  set (itemsl := imap (fun i w => (W_IntObject (Z.of_nat i), w)) (map W_IntObject ls)).
  set (itemsr := imap (fun i w => (W_IntObject (Z.of_nat i), w)) (map W_IntObject rs)).
  set (a := next_loc st). set (b := Pos.succ a).
  set (st' := with_object (with_object st (CArray itemsl)) (CArray itemsr)).
  exists (W_ArrayObject a), (W_ArrayObject b), st'. split; [reflexivity |].
  assert (Ha : W.items (heap st') (W_ArrayObject a) = Ok itemsl).
  { unfold W.items, st', with_object. cbn [heap next_loc].
    rewrite lookup_insert_ne by (fold a; unfold b; lia).
    rewrite lookup_insert_eq. reflexivity. }
  assert (Hb : W.items (heap st') (W_ArrayObject b) = Ok itemsr).
  { unfold W.items, st', with_object. cbn [heap next_loc].
    rewrite lookup_insert_eq. reflexivity. }
  assert (Hll : length itemsl = length ls).
  { unfold itemsl. rewrite length_imap, length_map. reflexivity. }
  assert (Hlr : length itemsr = length rs).
  { unfold itemsr. rewrite length_imap, length_map. reflexivity. }
  assert (Hab : Pos.eqb a b = false) by (apply Pos.eqb_neq; unfold b; lia).
  destruct (imap_int_items Z.of_nat ls) as [Fl Hkeys].
  destruct (imap_int_items Z.of_nat rs) as [Fr _].
  fold itemsl in Fl, Hkeys. fold itemsr in Fr. specialize (Hkeys rs). fold itemsr in Hkeys.
  clearbody st' b itemsl itemsr. clearbody a.
  rewrite _compare_arrays, Hab. unfold W.arraylen.
  rewrite Ha. cbn [mbind res_bind]. rewrite Hb. cbn [mbind res_bind].
  rewrite Hll, Hlr.
  destruct (Nat.ltb_spec (length ls) (length rs)) as [Hlt | Hge]; [reflexivity |].
  destruct (Nat.ltb_spec (length rs) (length ls)) as [Hgt | Hle]; [reflexivity |].
  assert (Hlen : length rs = length ls) by lia.
  cbn [aggregates_loop].
  rewrite (aggregates_step_arrays _ self (heap st') ignore_order strict a b itemsl itemsr)
    by (assumption || congruence).
  rewrite (array_loop_ints _ self (heap st') ignore_order strict (W_ArrayObject b) [] []
             itemsl itemsr ls rs).
  - cbn [mbind res_bind].
    destruct (lexicographic ignore_order ls rs =? 0) eqn:E.
    + apply Z.eqb_eq in E. rewrite E. reflexivity.
    + reflexivity.
  - intros l r. rewrite _compare_S. destruct strict; reflexivity.
  - exact Fl.
  - eapply Forall2_impl; [exact Fr |]. intros kv r [_ H]. exact H.
  - apply Hkeys. exact Hlen.
Qed.

(** X9.  Two arrays of the same length where the first key of the left one
    has no slot in the right one: ordered comparison answers "greater"
    whatever the values are, so that two arrays with disjoint keys are
    each greater than the other; [eq] and [is_w] answer false. *)
Theorem array_with_foreign_first_key_is_greater
    (self : ObjSpace) (h : gmap loc cell) (fuel : nat) (a b : loc)
    (k v k' v' : W_Root) (itemsl itemsr : list (W_Root * W_Root)) :
  W.items h (W_ArrayObject a) = Ok ((k, v) :: itemsl) ->
  W.items h (W_ArrayObject b) = Ok ((k', v') :: itemsr) ->
  a <> b ->
  length itemsl = length itemsr ->
  W.key_eqb k k' = false ->
  W.lookup_key ((k', v') :: itemsr) (W.normalize_key self k) = None ->
  Cmp.gt (S (S (S fuel))) self h (W_ArrayObject a) (W_ArrayObject b) = Ok w_True
  /\ Cmp.lt (S (S (S fuel))) self h (W_ArrayObject a) (W_ArrayObject b) = Ok w_False
  /\ Cmp.eq (S (S (S fuel))) self h (W_ArrayObject a) (W_ArrayObject b) = Ok w_False
  /\ is_w (S (S (S fuel))) self h (W_ArrayObject a) (W_ArrayObject b) = Ok false.
Proof.
  intros Ha Hb Hab Hlen Hk Hmiss.
  assert (Hab' : Pos.eqb a b = false) by (apply Pos.eqb_neq; exact Hab).
  assert (Hloop : forall cmp strict ignore_order,
             aggregates_loop cmp self h ignore_order (S (S fuel))
               [Some (W_ArrayObject a); Some (W_ArrayObject b)] [strict]
             = Ok (if ignore_order then -1 else 1)).
  { intros cmp strict ignore_order. cbn [aggregates_loop].
    rewrite (aggregates_step_arrays cmp self h ignore_order strict a b _ _ Ha Hb Hab')
      by (cbn [length]; congruence).
    cbn [array_loop]. rewrite Hk. unfold W.isset_index. rewrite Hb.
    cbn [mbind res_bind]. rewrite Hmiss. cbn [negb res_bind].
    destruct ignore_order; reflexivity. }
  assert (Hcmp : forall strict ignore_order,
             _compare (S (S (S fuel))) self h (W_ArrayObject a) (W_ArrayObject b)
               strict ignore_order = Ok (if ignore_order then -1 else 1)).
  { intros strict ignore_order. rewrite _compare_arrays, Hab'. unfold W.arraylen.
    rewrite Ha. cbn [mbind res_bind]. rewrite Hb. cbn [mbind res_bind length].
    rewrite Hlen, Nat.ltb_irrefl. apply Hloop. }
  unfold Cmp.gt, Cmp.lt, Cmp.eq, is_w. rewrite !Hcmp. repeat split; reflexivity.
Qed.

Lemma array_with_foreign_first_key_is_greater_witness :
  (Cmp.gt 3 space64 disjoint_keys_heap (W_ArrayObject 1%positive) (W_ArrayObject 2%positive) = Ok w_True
   /\ Cmp.lt 3 space64 disjoint_keys_heap (W_ArrayObject 1%positive) (W_ArrayObject 2%positive) = Ok w_False
   /\ Cmp.eq 3 space64 disjoint_keys_heap (W_ArrayObject 1%positive) (W_ArrayObject 2%positive) = Ok w_False
   /\ is_w 3 space64 disjoint_keys_heap (W_ArrayObject 1%positive) (W_ArrayObject 2%positive) = Ok false)
  /\ (Cmp.gt 3 space64 disjoint_keys_heap (W_ArrayObject 2%positive) (W_ArrayObject 1%positive) = Ok w_True
      /\ Cmp.lt 3 space64 disjoint_keys_heap (W_ArrayObject 2%positive) (W_ArrayObject 1%positive) = Ok w_False
      /\ Cmp.eq 3 space64 disjoint_keys_heap (W_ArrayObject 2%positive) (W_ArrayObject 1%positive) = Ok w_False
      /\ is_w 3 space64 disjoint_keys_heap (W_ArrayObject 2%positive) (W_ArrayObject 1%positive) = Ok false).
Proof.
  split.
  - apply (array_with_foreign_first_key_is_greater space64 disjoint_keys_heap 0
             1%positive 2%positive
             (W_IntObject 0) (W_IntObject 5) (W_IntObject 1) (W_IntObject 7) [] []);
      (reflexivity || discriminate).
  - apply (array_with_foreign_first_key_is_greater space64 disjoint_keys_heap 0
             2%positive 1%positive
             (W_IntObject 1) (W_IntObject 7) (W_IntObject 0) (W_IntObject 5) [] []);
      (reflexivity || discriminate).
Defined.

(** ** The two operand orders *)

Lemma SFcompare_swap (x y : spec_float) :
  SFcompare y x = option_map CompOpp (SFcompare x y).
Proof.
  destruct x as [sx | sx | | sx mx ex], y as [sy | sy | | sy my ey];
    try reflexivity;
    try (destruct sx; reflexivity); try (destruct sy; reflexivity);
    try (destruct sx, sy; reflexivity).
  cbn [SFcompare option_map].
  rewrite (Z.compare_antisym ex ey).
  change (Pos.compare_cont Eq my mx) with (Pos.compare my mx).
  change (Pos.compare_cont Eq mx my) with (Pos.compare mx my).
  rewrite (Pos.compare_antisym mx my).
  destruct sx, sy; try reflexivity;
    destruct (ex ?= ey); try reflexivity; destruct (mx ?= my)%positive; reflexivity.
Qed.

Lemma SFcompare_nan (x y : spec_float) :
  SFcompare x y = None <-> is_nan x = true \/ is_nan y = true.
Proof.
  destruct x as [sx | sx | | sx mx ex], y as [sy | sy | | sy my ey]; cbn;
    intuition (try discriminate; auto).
Qed.

Lemma mirrored_weaken (e e' : bool) (z z' : Z) :
  mirrored e z z' -> (e' = true -> e = true) -> mirrored e' z z'.
Proof. unfold mirrored. intuition auto. Qed.

Lemma mirrored_zero (e : bool) : mirrored e 0 0.
Proof. unfold mirrored. split; [tauto | reflexivity]. Qed.

Lemma my_cmp_int_mirrored (x y : Z) (ignore_order : bool) :
  mirrored (negb ignore_order) (my_cmp x y ignore_order) (my_cmp y x ignore_order).
Proof.
  unfold mirrored, my_cmp. cbn [py_eq py_lt PyOrd_int].
  rewrite (Z.eqb_sym y x).
  destruct (Z.eqb_spec x y); [split; [tauto | reflexivity] |].
  destruct ignore_order; cbn [orb negb].
  - split; [tauto | discriminate].
  - destruct (Z.ltb_spec x y), (Z.ltb_spec y x); try lia; split;
      try (split; discriminate); reflexivity.
Qed.

Lemma my_cmp_bool_mirrored (x y : bool) (ignore_order : bool) :
  mirrored (negb ignore_order) (my_cmp x y ignore_order) (my_cmp y x ignore_order).
Proof.
  unfold mirrored. destruct x, y, ignore_order; cbn;
    (split; [split; (reflexivity || discriminate) | (reflexivity || discriminate)]).
Qed.

Lemma my_cmp_str_mirrored (x y : string) (ignore_order : bool) :
  mirrored (negb ignore_order) (my_cmp x y ignore_order) (my_cmp y x ignore_order).
Proof.
  unfold mirrored, my_cmp. cbn [py_eq py_lt PyOrd_str]. unfold Py.str_lt.
  rewrite (String.eqb_sym y x).
  destruct (String.eqb_spec x y) as [-> | NE]; [split; [tauto | reflexivity] |].
  rewrite (String.compare_antisym y x).
  destruct ignore_order; cbn [orb negb].
  - split; [tauto | discriminate].
  - destruct (String.compare x y) eqn:E; cbn [CompOpp].
    + apply String.compare_eq_iff in E. contradiction.
    + split; [split; discriminate | reflexivity].
    + split; [split; discriminate | reflexivity].
Qed.

Lemma my_cmp_float_mirrored (x y : spec_float) (ignore_order : bool) :
  mirrored (negb ignore_order && negb (is_nan x) && negb (is_nan y))
    (my_cmp x y ignore_order) (my_cmp y x ignore_order).
Proof.
  unfold mirrored, my_cmp. cbn [py_eq py_lt PyOrd_float]. unfold SFeqb, SFltb.
  rewrite (SFcompare_swap x y).
  destruct (SFcompare x y) as [[| |] |] eqn:E; cbn [option_map CompOpp].
  - split; [tauto | reflexivity].
  - destruct ignore_order; cbn [orb negb andb];
      (split; [split; discriminate | (reflexivity || discriminate)]).
  - destruct ignore_order; cbn [orb negb andb];
      (split; [split; discriminate | (reflexivity || discriminate)]).
  - apply SFcompare_nan in E.
    destruct ignore_order; cbn [orb negb andb];
      (split; [split; discriminate |]); try discriminate.
    destruct E as [-> | ->]; cbn; [discriminate |].
    rewrite andb_false_r. discriminate.
Qed.

Lemma is_number_is_num (w : W_Root) :
  is_number w -> is_num w = true /\ is_nan_value w = false.
Proof. destruct w; cbn; intros H; try contradiction; auto. Qed.

Lemma compare_numbers_mirrored (n : nat) (self : ObjSpace) (h : gmap loc cell)
    (x y : W_Root) (ignore_order : bool) :
  is_num x = true -> is_num y = true ->
  exists z z',
    _compare (S n) self h x y false ignore_order = Ok z
    /\ _compare (S n) self h y x false ignore_order = Ok z'
    /\ mirrored (negb ignore_order && negb (is_nan_value x) && negb (is_nan_value y)) z z'.
Proof.
  intros Hx Hy.
  destruct x as [a | f | | | | | | |]; try discriminate Hx;
    destruct y as [b | g | | | | | | |]; try discriminate Hy;
    (do 2 eexists; split; [| split];
     [rewrite _compare_S; unfold _compare_body;
      cbn -[my_cmp float_of_int]; reflexivity ..
     | cbn [is_nan_value]]).
  - eapply mirrored_weaken; [apply my_cmp_int_mirrored |].
    cbn. rewrite !andb_true_r. auto.
  - eapply mirrored_weaken; [apply my_cmp_float_mirrored |].
    rewrite float_of_int_not_nan. cbn. rewrite !andb_true_r. auto.
  - eapply mirrored_weaken; [apply my_cmp_float_mirrored |].
    rewrite float_of_int_not_nan. cbn. rewrite !andb_true_r. auto.
  - eapply mirrored_weaken; [apply my_cmp_float_mirrored |]. auto.
Qed.

Lemma _compare_strings (n : nat) (self : ObjSpace) (h : gmap loc cell)
    (s t : string) (ignore_order : bool) :
  _compare (S n) self h (W_StringObject s) (W_StringObject t) false ignore_order
  = if jit_isconstant self (Z.of_nat (Py.len s)) && Nat.eqb (Py.len s) 1
       && jit_isconstant self (Z.of_nat (Py.len t)) && Nat.eqb (Py.len t) 1
    then
      l0 ← Py.getitem s 0; r0 ← Py.getitem t 0;
      Ok (my_cmp (Py.ord l0) (Py.ord r0) ignore_order)
    else
      if snd (convert_string_to_number self t)
         && snd (convert_string_to_number self s)
      then _compare n self h (fst (convert_string_to_number self s))
             (fst (convert_string_to_number self t)) false ignore_order
      else Ok (my_cmp s t ignore_order).
Proof.
  rewrite _compare_S. unfold _compare_body.
  cbn -[my_cmp convert_string_to_number _compare Py.getitem Py.len].
  destruct (_ && _); [reflexivity |].
  destruct (convert_string_to_number self t) as [rn [|]];
    destruct (convert_string_to_number self s) as [ln [|]]; reflexivity.
Qed.

Lemma compare_strings_mirrored (n : nat) (self : ObjSpace) (h : gmap loc cell)
    (s t : string) (ignore_order : bool) :
  exists z z',
    _compare (S (S n)) self h (W_StringObject s) (W_StringObject t) false ignore_order = Ok z
    /\ _compare (S (S n)) self h (W_StringObject t) (W_StringObject s) false ignore_order
       = Ok z'
    /\ mirrored (negb ignore_order) z z'.
Proof.
  rewrite !_compare_strings.
  replace (jit_isconstant self (Z.of_nat (Py.len t)) && Nat.eqb (Py.len t) 1
           && jit_isconstant self (Z.of_nat (Py.len s)) && Nat.eqb (Py.len s) 1)
    with (jit_isconstant self (Z.of_nat (Py.len s)) && Nat.eqb (Py.len s) 1
          && jit_isconstant self (Z.of_nat (Py.len t)) && Nat.eqb (Py.len t) 1)
    by (destruct (jit_isconstant self (Z.of_nat (Py.len s))), (Nat.eqb (Py.len s) 1),
          (jit_isconstant self (Z.of_nat (Py.len t))), (Nat.eqb (Py.len t) 1); reflexivity).
  destruct (jit_isconstant self (Z.of_nat (Py.len s)) && Nat.eqb (Py.len s) 1
            && jit_isconstant self (Z.of_nat (Py.len t)) && Nat.eqb (Py.len t) 1)
    eqn:Hfast.
  - apply andb_prop in Hfast as [Hfast Ht]. apply andb_prop in Hfast as [Hfast _].
    apply andb_prop in Hfast as [_ Hs].
    destruct s as [| c [| ? ?]]; try discriminate Hs.
    destruct t as [| d [| ? ?]]; try discriminate Ht.
    do 2 eexists. split; [reflexivity | split; [reflexivity |]].
    apply my_cmp_int_mirrored.
  - rewrite (andb_comm (snd (convert_string_to_number self s))).
    destruct (snd (convert_string_to_number self t)
              && snd (convert_string_to_number self s)).
    + destruct (is_number_is_num _ (convert_string_to_number_is_number self s)) as [Hs Hs'].
      destruct (is_number_is_num _ (convert_string_to_number_is_number self t)) as [Ht Ht'].
      destruct (compare_numbers_mirrored n self h _ _ ignore_order Hs Ht)
        as (z & z' & Hz & Hz' & Hm).
      exists z, z'. split; [exact Hz | split; [exact Hz' |]].
      eapply mirrored_weaken; [exact Hm |]. rewrite Hs', Ht'. cbn.
      rewrite !andb_true_r. auto.
    + do 2 eexists. split; [reflexivity | split; [reflexivity |]].
      apply my_cmp_str_mirrored.
Qed.

Ltac compare_head :=
  rewrite _compare_S; unfold _compare_body;
  cbn -[my_cmp float_of_int convert_string_to_number _compare is_zero is_nan].

Lemma compare_scalars_mirrored (fuel : nat) (self : ObjSpace) (h : gmap loc cell)
    (a b : W_Root) (strict ignore_order : bool) :
  is_scalar a = true -> is_scalar b = true ->
  exists z z',
    _compare (S (S fuel)) self h a b strict ignore_order = Ok z
    /\ _compare (S (S fuel)) self h b a strict ignore_order = Ok z'
    /\ mirrored (negb strict && negb ignore_order
                 && negb (is_nan_value a) && negb (is_nan_value b)) z z'.
Proof.
  intros Ha Hb. destruct strict.
  - destruct a as [x | f | s | | | p | | |]; try discriminate Ha;
      destruct b as [y | g | t | | | q | | |]; try discriminate Hb;
      (do 2 eexists; split; [| split]; [compare_head; reflexivity .. |]);
      cbn [negb andb]; try (split; [tauto | discriminate]).
    + eapply mirrored_weaken; [apply my_cmp_int_mirrored | discriminate].
    + eapply mirrored_weaken; [apply my_cmp_float_mirrored | discriminate].
    + eapply mirrored_weaken; [apply my_cmp_str_mirrored | discriminate].
    + eapply mirrored_weaken; [apply my_cmp_bool_mirrored | discriminate].
  - cbn [negb andb].
    destruct a as [x | f | s | | | p | | |]; try discriminate Ha;
      destruct b as [y | g | t | | | q | | |]; try discriminate Hb.
    all: try (apply (compare_numbers_mirrored (S fuel) self h _ _ ignore_order
                       eq_refl eq_refl)).
    all: try (destruct (compare_strings_mirrored fuel self h s t ignore_order)
                as (z & z' & Hz & Hz' & Hm);
              exists z, z'; split; [exact Hz | split; [exact Hz' |]];
              eapply mirrored_weaken; [exact Hm |];
              intros H; repeat (apply andb_prop in H as [H _]); exact H).
    all: try (match goal with
              | |- context [W_StringObject ?u] =>
                  destruct (is_number_is_num _ (convert_string_to_number_is_number self u))
                    as [Hnum Hnan]
              end;
              match goal with
              | |- exists z z', _compare _ _ _ ?l ?r _ _ = _ /\ _ =>
                  destruct (compare_numbers_mirrored fuel self h
                              (match l with
                               | W_StringObject u => fst (convert_string_to_number self u)
                               | _ => l
                               end)
                              (match r with
                               | W_StringObject u => fst (convert_string_to_number self u)
                               | _ => r
                               end) ignore_order)
                    as (z & z' & Hz & Hz' & Hm); [first [exact Hnum | reflexivity] ..|]
              end;
              exists z, z'; split; [| split];
              [compare_head; exact Hz | compare_head; exact Hz' |];
              cbn [is_nan_value] in Hm |- *; rewrite Hnan in Hm; exact Hm).
    all: try (do 2 eexists; split; [| split]; [compare_head; reflexivity .. |];
              cbn [is_nan_value negb andb]).
    all: try (eapply mirrored_weaken; [apply my_cmp_bool_mirrored |];
              intros H; repeat (apply andb_prop in H as [H _]); exact H).
    all: try (eapply mirrored_weaken; [apply my_cmp_str_mirrored |];
              intros H; repeat (apply andb_prop in H as [H _]); exact H).
    all: try (eapply mirrored_weaken; [apply my_cmp_int_mirrored |];
              intros H; repeat (apply andb_prop in H as [H _]); exact H).
    all: try (eapply mirrored_weaken; [apply my_cmp_float_mirrored |];
              rewrite ?float_of_int_not_nan; cbn [negb]; rewrite ?andb_true_r; auto; fail).
    all: try (apply mirrored_zero).
    all: try (match goal with
              | |- mirrored _ (if ?c then _ else _) _ => destruct c end;
              unfold mirrored;
              (split; [split; intros H; (reflexivity || discriminate H)
                      | intros _; reflexivity])).
Qed.

(** X10.  On nulls, booleans, ints, floats and strings every comparison
    returns a boolean with two nested calls at most: [eq], [ne], [is_w],
    [lt], [le], [gt] and [ge], in both operand orders, NaN included.
    [eq], [ne] and [is_w] give the same answer in both orders, and [ne]
    is the negation of [eq].  Away from NaN the ordered comparisons
    mirror each other: [lt] one way is [gt] the other way, and [le] is
    [ge]. *)
Theorem scalar_comparisons_mirror
    (self : ObjSpace) (h : gmap loc cell) (fuel : nat) (a b : W_Root) :
  is_scalar a = true -> is_scalar b = true ->
  exists (e i lt_ab le_ab gt_ab ge_ab lt_ba le_ba gt_ba ge_ba : bool),
    (Cmp.eq (S (S fuel)) self h a b = Ok (newbool e)
     /\ Cmp.eq (S (S fuel)) self h b a = Ok (newbool e))
    /\ (Cmp.ne (S (S fuel)) self h a b = Ok (newbool (negb e))
        /\ Cmp.ne (S (S fuel)) self h b a = Ok (newbool (negb e)))
    /\ (is_w (S (S fuel)) self h a b = Ok i
        /\ is_w (S (S fuel)) self h b a = Ok i)
    /\ (Cmp.lt (S (S fuel)) self h a b = Ok (newbool lt_ab)
        /\ Cmp.le (S (S fuel)) self h a b = Ok (newbool le_ab)
        /\ Cmp.gt (S (S fuel)) self h a b = Ok (newbool gt_ab)
        /\ Cmp.ge (S (S fuel)) self h a b = Ok (newbool ge_ab))
    /\ (Cmp.lt (S (S fuel)) self h b a = Ok (newbool lt_ba)
        /\ Cmp.le (S (S fuel)) self h b a = Ok (newbool le_ba)
        /\ Cmp.gt (S (S fuel)) self h b a = Ok (newbool gt_ba)
        /\ Cmp.ge (S (S fuel)) self h b a = Ok (newbool ge_ba))
    /\ (is_nan_value a = false -> is_nan_value b = false ->
        lt_ab = gt_ba /\ le_ab = ge_ba /\ gt_ab = lt_ba /\ ge_ab = le_ba).
Proof.
  intros Ha Hb.
  destruct (compare_scalars_mirrored fuel self h a b false true Ha Hb)
    as (z1 & z1' & H1 & H1' & [M1 _]).
  destruct (compare_scalars_mirrored fuel self h a b true true Ha Hb)
    as (z2 & z2' & H2 & H2' & [M2 _]).
  destruct (compare_scalars_mirrored fuel self h a b false false Ha Hb)
    as (z3 & z3' & H3 & H3' & [_ M3]).
  assert (E1 : (z1' =? 0) = (z1 =? 0)).
  { destruct (Z.eqb_spec z1 0), (Z.eqb_spec z1' 0); tauto. }
  assert (E2 : (z2' =? 0) = (z2 =? 0)).
  { destruct (Z.eqb_spec z2 0), (Z.eqb_spec z2' 0); tauto. }
  exists (z1 =? 0), (z2 =? 0),
    (z3 <? 0), (z3 <=? 0), (z3 >? 0), (z3 >=? 0),
    (z3' <? 0), (z3' <=? 0), (z3' >? 0), (z3' >=? 0).
  unfold Cmp.eq, Cmp.ne, Cmp.lt, Cmp.gt, Cmp.le, Cmp.ge, is_w.
  rewrite H1, H1', H2, H2', H3, H3'. cbn [mbind res_bind]. rewrite E1, E2.
  do 5 (split; [repeat split; reflexivity |]).
  intros Na Nb. rewrite Na, Nb in M3. specialize (M3 eq_refl). subst z3'.
  repeat split.
  - destruct (Z.ltb_spec z3 0), (Z.gtb_spec (- z3) 0); (reflexivity || lia).
  - destruct (Z.leb_spec z3 0), (Z.geb_spec (- z3) 0); (reflexivity || lia).
  - destruct (Z.gtb_spec z3 0), (Z.ltb_spec (- z3) 0); (reflexivity || lia).
  - destruct (Z.geb_spec z3 0), (Z.leb_spec (- z3) 0); (reflexivity || lia).
Qed.

Lemma scalar_comparisons_mirror_witness :
  exists (e i lt_ab le_ab gt_ab ge_ab lt_ba le_ba gt_ba ge_ba : bool),
    (Cmp.eq 2 space64 ∅ (W_StringObject "1e1") (W_IntObject 10) = Ok (newbool e)
     /\ Cmp.eq 2 space64 ∅ (W_IntObject 10) (W_StringObject "1e1") = Ok (newbool e))
    /\ (Cmp.ne 2 space64 ∅ (W_StringObject "1e1") (W_IntObject 10) = Ok (newbool (negb e))
        /\ Cmp.ne 2 space64 ∅ (W_IntObject 10) (W_StringObject "1e1")
           = Ok (newbool (negb e)))
    /\ (is_w 2 space64 ∅ (W_StringObject "1e1") (W_IntObject 10) = Ok i
        /\ is_w 2 space64 ∅ (W_IntObject 10) (W_StringObject "1e1") = Ok i)
    /\ (Cmp.lt 2 space64 ∅ (W_StringObject "1e1") (W_IntObject 10) = Ok (newbool lt_ab)
        /\ Cmp.le 2 space64 ∅ (W_StringObject "1e1") (W_IntObject 10) = Ok (newbool le_ab)
        /\ Cmp.gt 2 space64 ∅ (W_StringObject "1e1") (W_IntObject 10) = Ok (newbool gt_ab)
        /\ Cmp.ge 2 space64 ∅ (W_StringObject "1e1") (W_IntObject 10)
           = Ok (newbool ge_ab))
    /\ (Cmp.lt 2 space64 ∅ (W_IntObject 10) (W_StringObject "1e1") = Ok (newbool lt_ba)
        /\ Cmp.le 2 space64 ∅ (W_IntObject 10) (W_StringObject "1e1") = Ok (newbool le_ba)
        /\ Cmp.gt 2 space64 ∅ (W_IntObject 10) (W_StringObject "1e1") = Ok (newbool gt_ba)
        /\ Cmp.ge 2 space64 ∅ (W_IntObject 10) (W_StringObject "1e1")
           = Ok (newbool ge_ba))
    /\ (is_nan_value (W_StringObject "1e1") = false ->
        is_nan_value (W_IntObject 10) = false ->
        lt_ab = gt_ba /\ le_ab = ge_ba /\ gt_ab = lt_ba /\ ge_ab = le_ba).
Proof.
  exact (scalar_comparisons_mirror space64 ∅ 0 (W_StringObject "1e1") (W_IntObject 10)
           eq_refl eq_refl).
Defined.

(** ** Identical implies equal *)

Lemma flag_le_refl (s : bool) : flag_le s s.
Proof. intros H. exact H. Qed.

Lemma flag_le_false (s : bool) : flag_le false s.
Proof. intros H. discriminate H. Qed.

Section StrictLoose.

Variable self : ObjSpace.
Variable h : gmap loc cell.
(** The recursive calls of a run and of a run that is at most as strict. *)
Variables cmpS cmpL : W_Root -> W_Root -> bool -> bool -> res Z.

Hypothesis cmp_zero :
  forall a b s l, flag_le l s -> cmpS a b s true = Ok 0 -> cmpL a b l true = Ok 0.

Hypothesis cmp_refl :
  forall x, is_number x -> cmpL x x false true = Ok 0.

Hypothesis klass_compare_zero :
  forall w k cmp x y, W.getclass h w = Ok k -> klass_compare k = Some cmp ->
    cmp x y true = 0 -> cmp x y false = 0.

Lemma compare_values_zero (s l sp_s sp_l : bool) (lv rv : W_Root)
    (new_st : option obj_stack) (obj_st : obj_stack) (ss ls : list bool)
    (r : control loop_vars) :
  flag_le l s -> flag_le sp_l sp_s -> Forall2 flag_le ls ss ->
  compare_values cmpS h true s sp_s lv rv new_st obj_st ss = Ok r ->
  match r with
  | Continue (new_st', obj_st', ss') =>
      new_st' = new_st
      /\ exists ls',
           compare_values cmpL h true l sp_l lv rv new_st obj_st ls
           = Ok (Continue (new_st, obj_st', ls'))
           /\ Forall2 flag_le ls' ss'
  | Return z => z <> 0
  | Break _ => False
  end.
Proof.
  intros Hls Hsp Hflags. unfold compare_values.
  destruct (W.deref h lv) as [lv' | |]; try discriminate.
  destruct (W.deref h rv) as [rv' | |]; try discriminate.
  cbn [mbind res_bind].
  destruct (is_ lv' rv').
  { intros [= <-]. split; [reflexivity |]. exists ls. split; [reflexivity | exact Hflags]. }
  destruct (tp lv') as [tl | |]; try discriminate.
  destruct (tp rv') as [tr | |]; try discriminate.
  cbn [mbind res_bind].
  destruct (is_aggregate_tp tl && is_aggregate_tp tr).
  { intros [= <-]. split; [reflexivity |]. eexists. split; [reflexivity |].
    apply Forall2_app; [exact Hflags |]. constructor; [exact Hsp | constructor]. }
  destruct (cmpS lv' rv' s true) as [z | |] eqn:E; try discriminate.
  cbn [mbind res_bind]. destruct (Z.eqb_spec z 0) as [-> | NZ]; cbn [negb orb].
  - intros [= <-]. split; [reflexivity |]. exists ls.
    rewrite (cmp_zero _ _ _ _ Hls E). split; [reflexivity | exact Hflags].
  - intros [= <-]. exact NZ.
Qed.

Lemma array_loop_zero (w_right : W_Root) (s l : bool)
    (left_itr right_itr : list (W_Root * W_Root))
    (obj_st : obj_stack) (ss ls : list bool) (r : Z + loop_vars) :
  flag_le l s -> Forall2 flag_le ls ss ->
  array_loop cmpS self h true w_right s left_itr right_itr None obj_st ss = Ok r ->
  match r with
  | inl z => z <> 0
  | inr (new_st', obj_st', ss') =>
      new_st' = None
      /\ exists ls',
           array_loop cmpL self h true w_right l left_itr right_itr None obj_st ls
           = Ok (inr (None, obj_st', ls'))
           /\ Forall2 flag_le ls' ss'
  end.
Proof.
  intros Hls. revert right_itr obj_st ss ls.
  induction left_itr as [| [w_key w_left_val] left_itr IH];
    intros right_itr obj_st ss ls Hflags.
  - intros [= <-]. split; [reflexivity |]. exists ls. split; [reflexivity | exact Hflags].
  - destruct right_itr as [| [w_rkey w_right_val] right_itr]; [discriminate |].
    cbn [array_loop].
    destruct (if W.key_eqb w_key w_rkey then Ok (Some w_right_val)
              else isset ← W.isset_index self h w_right w_key;
                   if negb isset then Ok None
                   else v ← getitem self h w_right w_key; Ok (Some v))
      as [[v |] | |]; try discriminate; cbn [mbind res_bind].
    + destruct (compare_values cmpS h true s s w_left_val v None obj_st ss)
        as [c | |] eqn:E; try discriminate.
      pose proof (compare_values_zero s l s l _ _ _ _ _ ls _ Hls Hls Hflags E) as Hc.
      cbn [mbind res_bind]. destruct c as [z | vars | [[new_st' obj_st'] ss']].
      * intros [= <-]. exact Hc.
      * contradiction.
      * destruct Hc as [-> (ls' & HL & Hflags')]. rewrite HL. cbn [mbind res_bind].
        apply IH. exact Hflags'.
    + intros [= <-]. discriminate.
Qed.

Lemma object_loop_zero (right_attrs : list (string * W_Root)) (s l : bool)
    (left_itr right_itr : list (string * W_Root))
    (obj_st : obj_stack) (ss ls : list bool) (r : Z + loop_vars) :
  flag_le l s -> Forall2 flag_le ls ss ->
  object_loop cmpS h true right_attrs s left_itr right_itr None obj_st ss = Ok r ->
  match r with
  | inl z => z <> 0
  | inr (new_st', obj_st', ss') =>
      new_st' = None
      /\ exists ls',
           object_loop cmpL h true right_attrs l left_itr right_itr None obj_st ls
           = Ok (inr (None, obj_st', ls'))
           /\ Forall2 flag_le ls' ss'
  end.
Proof.
  intros Hls. revert right_itr obj_st ss ls.
  induction left_itr as [| [key w_left_val] left_itr IH];
    intros right_itr obj_st ss ls Hflags.
  - intros [= <-]. split; [reflexivity |]. exists ls. split; [reflexivity | exact Hflags].
  - destruct right_itr as [| [r_key w_right_val] right_itr]; [discriminate |].
    cbn [object_loop orb].
    destruct (if negb (String.eqb key r_key)
              then match dict_get right_attrs key with
                   | Some v => inr (v, None)
                   | None => inl (-1)
                   end
              else inr (w_right_val, None)) as [z | [v new_st]] eqn:Hlook.
    + intros [= <-].
      destruct (negb (String.eqb key r_key)); [| discriminate Hlook].
      destruct (dict_get right_attrs key); [discriminate Hlook |].
      injection Hlook as <-. discriminate.
    + assert (new_st = None) as ->.
      { destruct (negb (String.eqb key r_key)); [| congruence].
        destruct (dict_get right_attrs key); [congruence | discriminate Hlook]. }
      destruct (compare_values cmpS h true s false w_left_val v None obj_st ss)
        as [c | |] eqn:E; try discriminate.
      pose proof (compare_values_zero s l false false _ _ _ _ _ ls _ Hls
                    (flag_le_refl false) Hflags E) as Hc.
      cbn [mbind res_bind]. destruct c as [z | vars | [[new_st' obj_st'] ss']].
      * intros [= <-]. exact Hc.
      * contradiction.
      * destruct Hc as [-> (ls' & HL & Hflags')]. rewrite HL. cbn [mbind res_bind].
        apply IH. exact Hflags'.
Qed.

Lemma Forall2_flags_rev (ls ss : list bool) :
  Forall2 flag_le ls ss -> Forall2 flag_le (rev ls) (rev ss).
Proof.
  induction 1 as [| l s ls ss Hl Hrest IH]; cbn [rev]; [constructor |].
  apply Forall2_app; [exact IH |]. constructor; [exact Hl | constructor].
Qed.

Lemma pop_flags (ss ls : list bool) (s : bool) (ss' : list bool) :
  Forall2 flag_le ls ss -> pop ss = Ok (s, ss') ->
  exists l ls', pop ls = Ok (l, ls') /\ flag_le l s /\ Forall2 flag_le ls' ss'.
Proof.
  intros Hflags. unfold pop. apply Forall2_flags_rev in Hflags.
  destruct (rev ss) as [| s0 rs]; [discriminate |].
  destruct (rev ls) as [| l rl]; [inversion Hflags |].
  inversion Hflags as [| ? ? ? ? Hl Hrest]; subst.
  intros [= <- <-]. exists l, (rev rl). split; [reflexivity |].
  split; [exact Hl | apply Forall2_flags_rev; exact Hrest].
Qed.

Lemma inline_object_comparison_zero (w_left w_right : W_Root) (s l : bool)
    (obj_st : obj_stack) (ss ls : list bool) (r : control (obj_stack * list bool)) :
  flag_le l s -> Forall2 flag_le ls ss ->
  inline_object_comparison cmpS h true w_left w_right s obj_st ss = Ok r ->
  match r with
  | Continue (obj_st', ss') =>
      exists ls',
        inline_object_comparison cmpL h true w_left w_right l obj_st ls
        = Ok (Continue (obj_st', ls'))
        /\ Forall2 flag_le ls' ss'
  | Return z => z <> 0
  | Break _ => False
  end.
Proof.
  intros Hls Hflags. unfold inline_object_comparison.
  destruct (is_ w_left w_right).
  { intros [= <-]. exists ls. split; [reflexivity | exact Hflags]. }
  destruct (W.getclass h w_left) as [kl | |]; try discriminate.
  destruct (W.getclass h w_right) as [kr | |]; try discriminate.
  cbn [mbind res_bind].
  destruct s.
  { intros [= <-]. discriminate. }
  assert (l = false) as ->.
  { destruct l; [discriminate (Hls eq_refl) | reflexivity]. }
  cbn [orb].
  destruct (negb (Pos.eqb (klass_id kl) (klass_id kr))).
  { intros [= <-]. discriminate. }
  destruct (W.get_instance_attrs h w_left) as [left | |]; try discriminate.
  destruct (W.get_instance_attrs h w_right) as [right | |]; try discriminate.
  cbn [mbind res_bind].
  destruct (Z.of_nat (length left) - Z.of_nat (length right) <? 0).
  { intros [= <-]. discriminate. }
  destruct (Z.of_nat (length left) - Z.of_nat (length right) >? 0).
  { intros [= <-]. discriminate. }
  destruct (object_loop cmpS h true right false left right None obj_st ss)
    as [res | |] eqn:E; try discriminate.
  pose proof (object_loop_zero _ false false _ _ _ _ ls _ (flag_le_refl false) Hflags E)
    as Hres.
  cbn [mbind res_bind]. destruct res as [z | [[new_st' obj_st'] ss']].
  - intros [= <-]. exact Hres.
  - destruct Hres as [-> (ls' & HL & Hflags')]. rewrite HL.
    cbn [mbind res_bind after_loop]. intros [= <-].
    exists ls'. split; [reflexivity | exact Hflags'].
Qed.

Lemma aggregates_step_zero (obj_st : obj_stack) (ss ls : list bool)
    (r : control (obj_stack * list bool)) :
  Forall2 flag_le ls ss ->
  aggregates_step cmpS self h true obj_st ss = Ok r ->
  match r with
  | Continue (obj_st', ss') =>
      exists ls',
        aggregates_step cmpL self h true obj_st ls = Ok (Continue (obj_st', ls'))
        /\ Forall2 flag_le ls' ss'
  | Return z => z <> 0
  | Break _ => False
  end.
Proof.
  intros Hflags. unfold aggregates_step.
  destruct (pop obj_st) as [[w_right obj_st1] | |]; try discriminate.
  cbn [mbind res_bind].
  destruct (pop obj_st1) as [[w_left obj_st2] | |]; try discriminate.
  cbn [mbind res_bind].
  destruct (pop ss) as [[s ss1] | |] eqn:Ep; try discriminate.
  destruct (pop_flags ss ls s ss1 Hflags Ep) as (l & ls1 & Epl & Hls & Hflags1).
  rewrite Epl. cbn [mbind res_bind].
  destruct w_left as [w_left |], w_right as [w_right |]; try discriminate.
  2: { intros [= <-]. discriminate. }
  destruct (tp w_left) as [left_tp | |]; try discriminate.
  destruct (tp w_right) as [right_tp | |]; try discriminate.
  cbn [mbind res_bind].
  destruct ((left_tp =? tp_array) && (right_tp =? tp_array)).
  { destruct (is_ w_left w_right).
    { intros [= <-]. exists ls1. split; [reflexivity | exact Hflags1]. }
    destruct (W.arraylen h w_left) as [w_left_len | |]; try discriminate.
    destruct (W.arraylen h w_right) as [w_right_len | |]; try discriminate.
    cbn [mbind res_bind].
    destruct (Nat.ltb w_left_len w_right_len).
    { intros [= <-]. discriminate. }
    destruct (Nat.ltb w_right_len w_left_len).
    { intros [= <-]. discriminate. }
    destruct (W.items h w_left) as [left_itr | |]; try discriminate.
    destruct (W.items h w_right) as [right_itr | |]; try discriminate.
    cbn [mbind res_bind].
    destruct (array_loop cmpS self h true w_right s left_itr right_itr None obj_st2 ss1)
      as [res | |] eqn:E; try discriminate.
    pose proof (array_loop_zero _ s l _ _ _ _ ls1 _ Hls Hflags1 E) as Hres.
    cbn [mbind res_bind]. destruct res as [z | [[new_st' obj_st'] ss']].
    - intros [= <-]. exact Hres.
    - destruct Hres as [-> (ls' & HL & Hflags')]. rewrite HL.
      cbn [mbind res_bind after_loop]. intros [= <-].
      exists ls'. split; [reflexivity | exact Hflags']. }
  destruct ((left_tp =? tp_object) && (right_tp =? tp_object)).
  { destruct (W.getclass h w_left) as [left_klass | |] eqn:Hk; try discriminate.
    cbn [mbind res_bind].
    destruct (klass_compare left_klass) as [compare |] eqn:Hcompare.
    2: { apply inline_object_comparison_zero; assumption. }
    destruct w_left as [| | | | | | a | |];
      try (apply inline_object_comparison_zero; assumption).
    destruct w_right as [| | | | | | b | |];
      try (apply inline_object_comparison_zero; assumption).
    destruct (Z.eqb_spec (compare a b s) 0) as [Hz | Hnz]; cbn [negb].
    - intros [= <-]. exists ls1. split; [| exact Hflags1].
      assert (Hl : compare a b l = 0).
      { destruct s, l; try exact Hz.
        - eapply klass_compare_zero; eassumption.
        - discriminate (Hls eq_refl). }
      rewrite Hl. reflexivity.
    - intros [= <-]. exact Hnz. }
  destruct (cmpS w_left w_right s true) as [z | |] eqn:E; try discriminate.
  cbn [mbind res_bind]. destruct (Z.eqb_spec z 0) as [-> | NZ]; cbn [negb].
  - intros [= <-]. exists ls1. rewrite (cmp_zero _ _ _ _ Hls E).
    split; [reflexivity | exact Hflags1].
  - intros [= <-]. exact NZ.
Qed.

Lemma aggregates_loop_zero (n : nat) (obj_st : obj_stack) (ss ls : list bool) :
  Forall2 flag_le ls ss ->
  aggregates_loop cmpS self h true n obj_st ss = Ok 0 ->
  aggregates_loop cmpL self h true (S n) obj_st ls = Ok 0.
Proof.
  revert obj_st ss ls. induction n as [| n IH]; intros obj_st ss ls Hflags; [discriminate |].
  cbn [aggregates_loop].
  destruct obj_st as [| w obj_st]; [reflexivity |].
  destruct (aggregates_step cmpS self h true (w :: obj_st) ss) as [r | |] eqn:E;
    try discriminate.
  pose proof (aggregates_step_zero _ _ ls _ Hflags E) as Hr.
  cbn [mbind res_bind]. destruct r as [z | st | [obj_st' ss']].
  - intros [= ->]. contradiction.
  - contradiction.
  - destruct Hr as (ls' & HL & Hflags'). rewrite HL. cbn [mbind res_bind].
    intros H. exact (IH _ _ _ Hflags' H).
Qed.

Ltac same_branch := exact (fun H => H).
Ltac next_test :=
  match goal with
  | |- (if ?c then _ else _) = _ -> (if ?c then _ else _) = _ => destruct c
  end.

Lemma _compare_aggregates_zero (n : nat) (w_left w_right : W_Root) (s l : bool) :
  flag_le l s ->
  _compare_aggregates cmpS self h true n w_left w_right s = Ok 0 ->
  _compare_aggregates cmpL self h true (S n) w_left w_right l = Ok 0.
Proof.
  intros Hls. unfold _compare_aggregates.
  destruct (W.deref h w_left) as [wl | |]; try discriminate.
  destruct (W.deref h w_right) as [wr | |]; try discriminate.
  cbn [mbind res_bind]. apply aggregates_loop_zero.
  constructor; [exact Hls | constructor].
Qed.

Lemma _compare_body_zero (n : nat) (a b : W_Root) (s l : bool) :
  flag_le l s ->
  _compare_body self h cmpS n a b s true = Ok 0 ->
  _compare_body self h cmpL (S n) a b l true = Ok 0.
Proof.
  intros Hls. unfold _compare_body.
  destruct (W.deref h a) as [wl | |]; try discriminate.
  destruct (W.deref h b) as [wr | |]; try discriminate.
  cbn [mbind res_bind].
  destruct (tp wl) as [tl | |]; try discriminate.
  destruct (tp wr) as [tr | |]; try discriminate.
  cbn [mbind res_bind].
  destruct (s && negb (tl =? tr)) eqn:Es; [discriminate |].
  assert (El : l && negb (tl =? tr) = false).
  { destruct l; [rewrite (Hls eq_refl) in Es; exact Es | reflexivity]. }
  rewrite El.
  repeat (next_test; [same_branch |]).
  next_test.
  { destruct (is_ wl wr); [same_branch |].
    destruct (W.arraylen h wl) as [w_left_len | |]; try discriminate.
    destruct (W.arraylen h wr) as [w_right_len | |]; try discriminate.
    cbn [mbind res_bind].
    repeat (next_test; [same_branch |]).
    apply _compare_aggregates_zero. exact Hls. }
  repeat (next_test; [same_branch |]).
  next_test.
  { destruct (str_w_str self h wl) as [left | |]; try discriminate.
    destruct (str_w_str self h wr) as [right | |]; try discriminate.
    cbn [mbind res_bind].
    destruct s, l; cbn [negb]; try same_branch.
    - (* the strict run has compared the bytes *)
      intros [= H0]. unfold my_cmp in H0. cbn [py_eq PyOrd_str orb] in H0.
      destruct (String.eqb_spec left right) as [-> | NE]; [| discriminate H0].
      destruct (jit_isconstant self (Z.of_nat (Py.len right)) && Nat.eqb (Py.len right) 1
                && jit_isconstant self (Z.of_nat (Py.len right)) && Nat.eqb (Py.len right) 1)
        eqn:Hfast.
      + apply andb_prop in Hfast as [_ Hlen].
        destruct right as [| c [| ? ?]]; try discriminate Hlen.
        cbn. rewrite my_cmp_int_refl. reflexivity.
      + destruct (convert_string_to_number self right) as [num [|]] eqn:Hnum.
        * apply cmp_refl.
          pose proof (convert_string_to_number_is_number self right) as Hn.
          rewrite Hnum in Hn. exact Hn.
        * rewrite my_cmp_str_refl. reflexivity.
    - discriminate (Hls eq_refl).
    - next_test; [same_branch |].
      destruct (convert_string_to_number self right) as [rn [|]]; [| same_branch].
      destruct (convert_string_to_number self left) as [ln [|]]; [| same_branch].
      apply cmp_zero. apply flag_le_refl. }
  repeat (next_test; [same_branch |]).
  next_test.
  { next_test; [same_branch |]. apply _compare_aggregates_zero. exact Hls. }
  repeat (next_test; [same_branch |]).
  destruct (as_number self h wl) as [ln | |]; try discriminate.
  destruct (as_number self h wr) as [rn | |]; try discriminate.
  cbn [mbind res_bind]. apply cmp_zero. apply flag_le_refl.
Qed.

End StrictLoose.

Lemma _compare_zero (self : ObjSpace) (h : gmap loc cell) :
  (forall w k cmp x y, W.getclass h w = Ok k -> klass_compare k = Some cmp ->
     cmp x y true = 0 -> cmp x y false = 0) ->
  forall n a b s l, flag_le l s ->
    _compare n self h a b s true = Ok 0 ->
    _compare (S n) self h a b l true = Ok 0.
Proof.
  intros Hk. induction n as [| n IH]; intros a b s l Hls; [discriminate |].
  rewrite !_compare_S.
  apply (_compare_body_zero self h (_compare n self h) (_compare (S n) self h)).
  - exact IH.
  - intros x Hx. apply compare_number_refl. exact Hx.
  - exact Hk.
  - exact Hls.
Qed.

(** X11.  What is identical is equal: when [is_w] answers true, so does [eq_w]
    (and [eq]), at whatever depth the values are nested, given one more
    level of calls; and [is_w] keeps its answer when it is given more.
    The classes of the store that bring their own [compare] are taken to
    answer 0 loosely wherever they answer 0 strictly. *)
Theorem identical_implies_equal
    (self : ObjSpace) (h : gmap loc cell) (fuel : nat) (w_a w_b : W_Root) :
  (forall a k attrs cmp x y,
     h !! a = Some (CInstance k attrs) -> klass_compare k = Some cmp ->
     cmp x y true = 0 -> cmp x y false = 0) ->
  is_w fuel self h w_a w_b = Ok true ->
  eq_w (S fuel) self h w_a w_b = Ok true
  /\ Cmp.eq (S fuel) self h w_a w_b = Ok w_True
  /\ Cmp.ne (S fuel) self h w_a w_b = Ok w_False
  /\ is_w (S fuel) self h w_a w_b = Ok true.
Proof.
  intros Hk His.
  assert (Hk' : forall w k cmp x y, W.getclass h w = Ok k -> klass_compare k = Some cmp ->
                  cmp x y true = 0 -> cmp x y false = 0).
  { intros w k cmp x y Hget. unfold W.getclass, W.instance in Hget.
    destruct w as [| | | | | | a | |]; try discriminate Hget.
    destruct (h !! a) as [[| k' attrs |] |] eqn:Ha; try discriminate Hget.
    cbn in Hget. injection Hget as <-. apply (Hk a k' attrs). exact Ha. }
  unfold is_w in His.
  destruct (_compare fuel self h w_a w_b true true) as [z | |] eqn:E; try discriminate His.
  cbn [mbind res_bind] in His. injection His as Hz. apply Z.eqb_eq in Hz. subst z.
  pose proof (_compare_zero self h Hk' fuel w_a w_b true false (flag_le_false true) E) as HL.
  pose proof (_compare_zero self h Hk' fuel w_a w_b true true (flag_le_refl true) E) as HS.
  unfold eq_w, Cmp.eq, Cmp.ne, is_w. rewrite HL, HS. repeat split; reflexivity.
Qed.

Lemma identical_implies_equal_witness :
  eq_w 5 space64 twin_arrays_heap (W_ArrayObject 1%positive) (W_ArrayObject 2%positive)
  = Ok true
  /\ Cmp.eq 5 space64 twin_arrays_heap (W_ArrayObject 1%positive) (W_ArrayObject 2%positive)
     = Ok w_True
  /\ Cmp.ne 5 space64 twin_arrays_heap (W_ArrayObject 1%positive) (W_ArrayObject 2%positive)
     = Ok w_False
  /\ is_w 5 space64 twin_arrays_heap (W_ArrayObject 1%positive) (W_ArrayObject 2%positive)
     = Ok true.
Proof.
  apply (identical_implies_equal space64 twin_arrays_heap 4
           (W_ArrayObject 1%positive) (W_ArrayObject 2%positive)).
  - intros a k attrs cmp x y Ha. exfalso.
    destruct (decide (a = 1%positive)) as [-> | N1]; [discriminate Ha |].
    destruct (decide (a = 2%positive)) as [-> | N2]; [discriminate Ha |].
    destruct (decide (a = 3%positive)) as [-> | N3]; [discriminate Ha |].
    destruct (decide (a = 4%positive)) as [-> | N4]; [discriminate Ha |].
    unfold twin_arrays_heap in Ha.
    rewrite !lookup_insert_ne, lookup_empty in Ha by congruence. discriminate Ha.
  - vm_compute. reflexivity.
Defined.

(** ** Slices that keep their keys *)

Lemma slice_loop_keep_keys (start shift : Z) (keep_str_keys : bool) :
  forall (itr : list (W_Root * W_Root)) (next_idx : Z)
         (res_arr : list (W_Root * W_Root)) (idx : Z),
    slice_loop start shift true keep_str_keys itr next_idx res_arr idx
    = Ok (res_arr
          ++ take (Z.to_nat (start + shift - Z.max idx start))
               (drop (Z.to_nat (start - idx)) itr)).
Proof.
  induction itr as [| [w_key w_value] itr IH]; intros next_idx res_arr idx.
  - cbn. rewrite drop_nil, take_nil, app_nil_r. reflexivity.
  - cbn [slice_loop].
    destruct (Z.leb_spec start idx) as [Hlo | Hlo];
      [destruct (Z.ltb_spec idx (start + shift)) as [Hhi | Hhi] |];
      cbn [andb mbind res_bind]; rewrite IH.
    + replace (Z.to_nat (start - idx)) with 0%nat by lia.
      replace (Z.to_nat (start - (idx + 1))) with 0%nat by lia.
      replace (Z.to_nat (start + shift - Z.max idx start))
        with (S (Z.to_nat (start + shift - Z.max (idx + 1) start))) by lia.
      cbn [drop take]. rewrite <- app_assoc. reflexivity.
    + replace (Z.to_nat (start + shift - Z.max idx start)) with 0%nat by lia.
      replace (Z.to_nat (start + shift - Z.max (idx + 1) start)) with 0%nat by lia.
      reflexivity.
    + replace (Z.to_nat (start - idx)) with (S (Z.to_nat (start - (idx + 1)))) by lia.
      replace (Z.max (idx + 1) start) with (Z.max idx start) by lia.
      reflexivity.
Qed.

Lemma normalized_key_fixed (self : ObjSpace) (k : W_Root) :
  normalized_key self k = true -> W.normalize_key self k = k.
Proof.
  destruct k as [z | | s | | | | | |]; try discriminate; [reflexivity |].
  unfold normalized_key, W.normalize_key.
  destruct (Py.int s) as [z | |]; try reflexivity.
  destruct (String.eqb (Py.str_of_int z) s && fits_int self z); [discriminate | reflexivity].
Qed.

Lemma forallb_take {A : Type} (p : A -> bool) (n : nat) (l : list A) :
  forallb p l = true -> forallb p (take n l) = true.
Proof.
  revert n. induction l as [| x l IH]; intros [| n] H; try reflexivity.
  cbn in *. apply andb_prop in H as [Hx Hl]. rewrite Hx, IH by exact Hl. reflexivity.
Qed.

Lemma forallb_drop {A : Type} (p : A -> bool) (n : nat) (l : list A) :
  forallb p l = true -> forallb p (drop n l) = true.
Proof.
  revert n. induction l as [| x l IH]; intros [| n] H; try reflexivity; [exact H |].
  cbn in *. apply andb_prop in H as [_ Hl]. apply IH. exact Hl.
Qed.

Lemma distinct_keys_take (n : nat) (its : list (W_Root * W_Root)) :
  distinct_keys its = true -> distinct_keys (take n its) = true.
Proof.
  revert n. induction its as [| [k v] its IH]; intros [| n] H; try reflexivity.
  cbn in *. apply andb_prop in H as [Hk Hl].
  rewrite forallb_take, IH by assumption. reflexivity.
Qed.

Lemma distinct_keys_drop (n : nat) (its : list (W_Root * W_Root)) :
  distinct_keys its = true -> distinct_keys (drop n its) = true.
Proof.
  revert n. induction its as [| [k v] its IH]; intros [| n] H; try reflexivity; [exact H |].
  cbn in *. apply andb_prop in H as [_ Hl]. apply IH. exact Hl.
Qed.

Lemma well_formed_window (self : ObjSpace) (n m : nat) (its : list (W_Root * W_Root)) :
  well_formed_items self its = true -> well_formed_items self (take n (drop m its)) = true.
Proof.
  unfold well_formed_items. intros H. apply andb_prop in H as [Hn Hd].
  rewrite forallb_take by (apply forallb_drop; exact Hn).
  rewrite distinct_keys_take by (apply distinct_keys_drop; exact Hd). reflexivity.
Qed.

Lemma distinct_keys_app_fresh (acc l : list (W_Root * W_Root)) (k v : W_Root) :
  distinct_keys (acc ++ (k, v) :: l) = true ->
  Forall (fun kv => W.key_eqb (fst kv) k = false) acc.
Proof.
  induction acc as [| [k' v'] acc IH]; intros H; [constructor |].
  cbn in H. apply andb_prop in H as [Hk Hrest]. constructor; [| apply IH; exact Hrest].
  cbn. rewrite forallb_app in Hk. apply andb_prop in Hk as [_ Hk].
  cbn in Hk. apply andb_prop in Hk as [Hk _]. apply negb_true_iff in Hk. exact Hk.
Qed.

Lemma fold_set_key_well_formed (self : ObjSpace) (l : list (W_Root * W_Root)) :
  forall acc,
    forallb (fun kv => normalized_key self (fst kv)) l = true ->
    distinct_keys (acc ++ l) = true ->
    fold_left (fun its kv => W.set_key its (W.normalize_key self (fst kv)) (snd kv)) l acc
    = acc ++ l.
Proof.
  induction l as [| [k v] l IH]; intros acc Hn Hd.
  - cbn. rewrite app_nil_r. reflexivity.
  - cbn [forallb fst] in Hn. apply andb_prop in Hn as [Hk Hn].
    cbn [fold_left fst snd]. rewrite (normalized_key_fixed self k Hk).
    rewrite set_key_fresh by (eapply distinct_keys_app_fresh; exact Hd).
    rewrite IH; [rewrite <- app_assoc; reflexivity | exact Hn |].
    rewrite <- app_assoc. exact Hd.
Qed.

(** X12.  With [keep_keys = True], [slice] of a well-formed array returns a
    fresh array holding the pairs of the window, keys and values as they
    were and in their order; the source array and the diagnostics are
    left as they are. *)
Theorem slice_keeps_keys
    (self : ObjSpace) (st : Interpreter) (w_arr w : W_Root)
    (items : list (W_Root * W_Root)) (start shift : Z) (keep_str_keys : bool) :
  W.deref (heap st) w_arr = Ok w ->
  W.items (heap st) w = Ok items ->
  well_formed_items self items = true ->
  slice self w_arr start shift true keep_str_keys st
  = (Ok (W_ArrayObject (next_loc st)),
     with_object st (CArray (slice_window items start shift))).
Proof.
  intros Hd Hi Hwf.
  assert (Hempty : forall its, its = [] ->
            new_array_from_list self [] st
            = (Ok (W_ArrayObject (next_loc st)), with_object st (CArray its))).
  { intros its ->. reflexivity. }
  unfold slice, get_heap, lift, arraylen, W.deref_temp, W.arraylen, mbind at 1 2, M_bind.
  destruct (Z.eqb_spec shift 0) as [-> | Hshift].
  { apply Hempty. unfold slice_window. cbn [Z.ltb Z.compare].
    match goal with |- take ?n _ = _ => replace n with 0%nat by lia end.
    reflexivity. }
  rewrite Hd. cbn [mbind res_bind]. rewrite Hi. cbn [mbind res_bind].
  destruct (Nat.eqb_spec (length items) 0) as [Hn | Hn].
  { apply Hempty. apply length_zero_iff_nil in Hn. subst items. unfold slice_window.
    rewrite drop_nil. apply take_nil. }
  destruct (Z.gtb_spec start (Z.of_nat (length items))) as [Hgt | Hle].
  { apply Hempty. unfold slice_window.
    destruct (Z.ltb_spec start 0); [lia |].
    rewrite drop_ge by lia. apply take_nil. }
  unfold mbind, M_bind. rewrite Hi, slice_loop_keep_keys. cbn [app].
  unfold new_array_from_pairs, W.new_array_from_pairs, alloc, mbind, M_bind, mret, M_ret.
  match goal with
  | |- context [fold_left _ (take ?n (drop ?m items)) []] =>
      pose proof (well_formed_window self n m items Hwf) as Hw;
      unfold well_formed_items in Hw; apply andb_prop in Hw as [Hwn Hwd];
      rewrite (fold_set_key_well_formed self (take n (drop m items)) [] Hwn Hwd)
  end.
  cbn [app]. unfold slice_window. rewrite !Z.sub_0_r. do 4 f_equal.
  - destruct (Z.ltb_spec start 0); destruct (Z.ltb_spec shift 0); lia.
Qed.

Lemma slice_keeps_keys_witness :
  slice space64 (W_ArrayObject 1%positive) (-2) 1 true false sample_interpreter
  = (Ok (W_ArrayObject 2%positive),
     with_object sample_interpreter (CArray [(W_IntObject 2, W_IntObject 30)])).
Proof.
  exact (slice_keeps_keys space64 sample_interpreter
           (W_ArrayObject 1%positive) (W_ArrayObject 1%positive)
           [(W_IntObject 0, W_IntObject 10); (W_IntObject 1, W_IntObject 20);
            (W_IntObject 2, W_IntObject 30); (W_IntObject 3, W_IntObject 40)]
           (-2) 1 false eq_refl eq_refl eq_refl).
Defined.

(** ** Callbacks named by a string and by an array *)

Lemma clsname_byte_is_no_colon (c : ascii) :
  is_alpha_ c || Py.is_digit c || Ascii.eqb c backslash = true -> c <> ":"%char.
Proof. intros H ->. vm_compute in H. discriminate H. Qed.

Lemma substring_all (s : string) : String.substring 0 (String.length s) s = s.
Proof. induction s as [| c s IH]; [reflexivity |]. cbn. rewrite IH. reflexivity. Qed.

Lemma split_at_separator (cls meth : string) :
  is_valid_clsname_rest cls = true ->
  String.index 0 "::" (cls +:+ "::" +:+ meth) = Some (String.length cls)
  /\ String.substring 0 (String.length cls) (cls +:+ "::" +:+ meth) = cls
  /\ String.substring (String.length cls + 2)
       (Py.len (cls +:+ "::" +:+ meth) - (String.length cls + 2))
       (cls +:+ "::" +:+ meth) = meth.
Proof.
  induction cls as [| c cls IH]; intros Hv.
  - change (EmptyString +:+ "::" +:+ meth)%string with (String ":" (String ":" meth)).
    split; [| split].
    + cbn [String.index String.prefix].
      destruct (ascii_dec ":" ":") as [_ | N]; [| contradiction].
      destruct meth; reflexivity.
    + reflexivity.
    + cbn. rewrite Nat.sub_0_r. apply substring_all.
  - cbn [is_valid_clsname_rest] in Hv.
    destruct (is_alpha_ c || Py.is_digit c || Ascii.eqb c backslash) eqn:Hc;
      [| discriminate Hv].
    cbn [negb] in Hv. destruct (IH Hv) as (Hi & Hs & Hm).
    pose proof (clsname_byte_is_no_colon c Hc) as Hcolon.
    change (String c cls +:+ "::" +:+ meth)%string
      with (String c (cls +:+ "::" +:+ meth)).
    split; [| split].
    + cbn [String.index String.prefix String.length].
      destruct (ascii_dec ":" c) as [E | _]; [congruence |].
      rewrite Hi. reflexivity.
    + cbn [String.length String.substring]. rewrite Hs. reflexivity.
    + unfold Py.len in *. cbn [String.length Nat.add Nat.sub String.substring].
      exact Hm.
Qed.

Lemma valid_clsname_rest (self : ObjSpace) (cls : string) :
  is_valid_clsname self cls = true -> is_valid_clsname_rest cls = true.
Proof.
  destruct cls as [| c cls]; [discriminate |]. cbn [is_valid_clsname is_valid_clsname_rest].
  destruct (is_alpha_ c || Ascii.eqb c backslash) eqn:Hc; [| discriminate].
  cbn [negb]. intros Hv.
  assert (is_alpha_ c || Py.is_digit c || Ascii.eqb c backslash = true) as ->.
  { apply orb_prop in Hc as [-> | ->]; [reflexivity |]. apply orb_true_r. }
  exact Hv.
Qed.

(** X13.  The string ["C::m"] and the array [["C", "m"]] name the same
    callback when [C] is a valid class name: [_get_callback] resolves
    both through [_get_callback_from_class] with the class [C] and the
    method [m], and [get_callback] answers alike for them. *)
Theorem callback_string_and_array_agree
    (self : ObjSpace) (st : Interpreter) (a : loc) (cls meth : string)
    (fname : string) (arg_no : Z) (give_warning : bool) :
  W.items (heap st) (W_ArrayObject a)
  = Ok [(W_IntObject 0, W_StringObject cls); (W_IntObject 1, W_StringObject meth)] ->
  is_valid_clsname self cls = true ->
  _get_callback self (W_StringObject (cls +:+ "::" +:+ meth)) st
  = _get_callback_from_class self cls meth st
  /\ _get_callback self (W_ArrayObject a) st = _get_callback_from_class self cls meth st
  /\ get_callback self fname arg_no (W_ArrayObject a) give_warning st
     = get_callback self fname arg_no (W_StringObject (cls +:+ "::" +:+ meth))
         give_warning st.
Proof.
  intros Ha Hv.
  destruct (split_at_separator cls meth (valid_clsname_rest self cls Hv)) as (Hi & Hs & Hm).
  assert (Hstr : _get_callback self (W_StringObject (cls +:+ "::" +:+ meth)) st
                 = _get_callback_from_class self cls meth st).
  { change (_get_callback self (W_StringObject (cls +:+ "::" +:+ meth)) st)
      with (_get_callback_from_string self (cls +:+ "::" +:+ meth) st).
    unfold _get_callback_from_string. rewrite Hi, Hs, Hm. reflexivity. }
  assert (H0 : getitem self (heap st) (W_ArrayObject a) (W_IntObject 0)
               = Ok (W_StringObject cls)).
  { unfold getitem, W.deref_temp, W.getitem. cbn [W.deref mbind res_bind].
    rewrite Ha. reflexivity. }
  assert (H1 : getitem self (heap st) (W_ArrayObject a) (W_IntObject 1)
               = Ok (W_StringObject meth)).
  { unfold getitem, W.deref_temp, W.getitem. cbn [W.deref mbind res_bind].
    rewrite Ha. reflexivity. }
  assert (Hlen : W.arraylen (heap st) (W_ArrayObject a) = Ok 2%nat).
  { unfold W.arraylen. rewrite Ha. reflexivity. }
  assert (Harr : _get_callback self (W_ArrayObject a) st
                 = _get_callback_from_class self cls meth st).
  { unfold _get_callback, mbind, M_bind, lift, get_heap, raise.
    cbv beta iota delta [tp Z.eqb Pos.eqb tp_array tp_str res_bind].
    rewrite Hlen. cbv beta iota delta [Nat.eqb negb]. rewrite H0.
    cbv beta iota delta [W.deref str_w mbind M_bind get_heap lift W.str mret M_ret].
    rewrite Hv. cbv beta iota delta [negb]. rewrite H1. reflexivity. }
  split; [exact Hstr | split; [exact Harr |]].
  unfold get_callback, try_except_InvalidCallback, mbind at 1 3, M_bind at 1 3.
  rewrite Hstr, Harr. reflexivity.
Qed.

Lemma callback_string_and_array_agree_witness :
  _get_callback space64 (W_StringObject ("Foo" +:+ "::" +:+ "bar")) callback_interpreter
  = _get_callback_from_class space64 "Foo" "bar" callback_interpreter
  /\ _get_callback space64 (W_ArrayObject 1%positive) callback_interpreter
     = _get_callback_from_class space64 "Foo" "bar" callback_interpreter
  /\ get_callback space64 "usort" 2 (W_ArrayObject 1%positive) true callback_interpreter
     = get_callback space64 "usort" 2 (W_StringObject ("Foo" +:+ "::" +:+ "bar")) true
         callback_interpreter.
Proof.
  exact (callback_string_and_array_agree space64 callback_interpreter 1%positive
           "Foo" "bar" "usort" 2 true eq_refl eq_refl).
Defined.

(** ** Conversion to an array *)

Lemma new_array_from_list_eq (self : ObjSpace) (lst_w : list W_Root) (st : Interpreter) :
  new_array_from_list self lst_w st
  = (Ok (W_ArrayObject (next_loc st)),
     with_object st (CArray (imap (fun i w => (W_IntObject (Z.of_nat i), w)) lst_w))).
Proof. reflexivity. Qed.

Lemma new_array_from_pairs_eq (self : ObjSpace) (pairs_ww : list (W_Root * W_Root))
    (st : Interpreter) :
  exists its,
    new_array_from_pairs self pairs_ww st
    = (Ok (W_ArrayObject (next_loc st)), with_object st (CArray its)).
Proof. eexists. reflexivity. Qed.

Lemma items_of_fresh (st : Interpreter) (its : list (W_Root * W_Root)) :
  W.items (heap (with_object st (CArray its))) (W_ArrayObject (next_loc st)) = Ok its.
Proof. unfold W.items, with_object. cbn [heap]. rewrite lookup_insert_eq. reflexivity. Qed.

Lemma as_array_of_array (self : ObjSpace) (a : loc) (st : Interpreter) :
  as_array self (W_ArrayObject a) st = (Ok (W_ArrayObject a), st).
Proof. reflexivity. Qed.

(** X14.  Whatever [as_array] returns is an array, and [as_array] returns it
    unchanged, allocating nothing, when it is applied again; no
    diagnostic is issued.  For a null, boolean, int, float or string
    operand the array is fresh: empty for null, and otherwise holding
    the operand under the key 0. *)
Theorem as_array_settles
    (self : ObjSpace) (w_obj w : W_Root) (st st' : Interpreter) :
  as_array self w_obj st = (Ok w, st') ->
  is_array self (heap st') w = Ok true
  /\ as_array self w st' = (Ok w, st')
  /\ diagnostics st' = diagnostics st
  /\ (forall v, W.deref (heap st) w_obj = Ok v -> is_scalar v = true ->
      w = W_ArrayObject (next_loc st)
      /\ arraylen self (heap st') w = Ok (if is_ v w_Null then 0%nat else 1%nat)
      /\ (is_ v w_Null = false ->
          getitem self (heap st') w (W_IntObject 0) = Ok v)).
Proof.
  unfold as_array, get_heap, lift, mbind at 1 2 3, M_bind.
  destruct (W.deref (heap st) w_obj) as [v | |] eqn:Hd; try discriminate.
  destruct (tp v) as [t | |] eqn:Ht; try discriminate.
  destruct (t =? tp_object) eqn:Hobj.
  - (* an instance *)
    unfold mbind, M_bind.
    destruct (W.get_instance_attrs (heap st) v) as [attrs | |]; try discriminate.
    unfold get_rdict_array.
    destruct (new_array_from_pairs_eq self
                (map (fun kv => (W_StringObject (fst kv), snd kv)) attrs) st) as (its & E).
    rewrite E. intros [= <- <-].
    split; [reflexivity |]. split; [reflexivity |]. split; [reflexivity |].
    intros v' [= <-] Hs. destruct v; try discriminate Hs; discriminate Ht || (injection Ht as <-; discriminate Hobj).
  - destruct (t =? tp_array) eqn:Harr; cbn [negb].
    + (* an array *)
      intros [= <- <-].
      destruct v; try discriminate Ht; try (injection Ht as <-; try discriminate Harr).
      2: { destruct kind; discriminate Harr. }
      split; [reflexivity |]. split; [reflexivity |]. split; [reflexivity |].
      intros v' [= <-] Hs. discriminate Hs.
    + destruct (is_ v w_Null) eqn:Hnull; rewrite new_array_from_list_eq;
        intros [= <- <-];
        (split; [reflexivity |]; split; [reflexivity |]; split; [reflexivity |]);
        intros v' [= <-] Hs; rewrite Hnull; (split; [reflexivity |]).
      * split; [| discriminate].
        unfold arraylen, W.arraylen. cbn [W.deref_temp W.deref mbind res_bind].
        rewrite items_of_fresh. reflexivity.
      * split.
        -- unfold arraylen, W.arraylen. cbn [W.deref_temp W.deref mbind res_bind].
           rewrite items_of_fresh. reflexivity.
        -- intros _. unfold getitem, W.getitem.
           cbn [W.deref_temp W.deref mbind res_bind].
           rewrite items_of_fresh. reflexivity.
Qed.

Lemma as_array_settles_witness :
  is_array space64
    (heap (with_object sample_interpreter (CArray [(W_IntObject 0, W_StringObject "x")])))
    (W_ArrayObject 2%positive) = Ok true
  /\ as_array space64 (W_ArrayObject 2%positive)
       (with_object sample_interpreter (CArray [(W_IntObject 0, W_StringObject "x")]))
     = (Ok (W_ArrayObject 2%positive),
        with_object sample_interpreter (CArray [(W_IntObject 0, W_StringObject "x")]))
  /\ diagnostics
       (with_object sample_interpreter (CArray [(W_IntObject 0, W_StringObject "x")]))
     = diagnostics sample_interpreter
  /\ (forall v, W.deref (heap sample_interpreter) (W_StringObject "x") = Ok v ->
      is_scalar v = true ->
      W_ArrayObject 2%positive = W_ArrayObject (next_loc sample_interpreter)
      /\ arraylen space64
           (heap (with_object sample_interpreter
                    (CArray [(W_IntObject 0, W_StringObject "x")])))
           (W_ArrayObject 2%positive)
         = Ok (if is_ v w_Null then 0%nat else 1%nat)
      /\ (is_ v w_Null = false ->
          getitem space64
            (heap (with_object sample_interpreter
                     (CArray [(W_IntObject 0, W_StringObject "x")])))
            (W_ArrayObject 2%positive) (W_IntObject 0) = Ok v)).
Proof.
  exact (as_array_settles space64 (W_StringObject "x") (W_ArrayObject 2%positive)
           sample_interpreter
           (with_object sample_interpreter (CArray [(W_IntObject 0, W_StringObject "x")]))
           eq_refl).
Defined.

(** ** Values of different kinds *)

(** X15.  Across kinds the comparison is by rank and looks at no content: an
    array is greater than an instance, and both are greater than every
    int, float, string and resource, in either operand order and in
    every loose mode; so [eq] is false and [gt] is true from the higher
    rank.  One call decides. *)
Theorem aggregates_outrank_plain_values
    (self : ObjSpace) (h : gmap loc cell) (fuel : nat) (a b : loc) (v : W_Root)
    (ignore_order : bool) :
  is_plain v = true ->
  (_compare (S fuel) self h (W_ArrayObject a) v false ignore_order = Ok 1
   /\ _compare (S fuel) self h v (W_ArrayObject a) false ignore_order = Ok (-1))
  /\ (_compare (S fuel) self h (W_InstanceObject b) v false ignore_order = Ok 1
      /\ _compare (S fuel) self h v (W_InstanceObject b) false ignore_order = Ok (-1))
  /\ (_compare (S fuel) self h (W_ArrayObject a) (W_InstanceObject b) false ignore_order
      = Ok 1
      /\ _compare (S fuel) self h (W_InstanceObject b) (W_ArrayObject a) false ignore_order
         = Ok (-1))
  /\ Cmp.gt (S fuel) self h (W_ArrayObject a) v = Ok w_True
  /\ Cmp.lt (S fuel) self h v (W_InstanceObject b) = Ok w_True
  /\ Cmp.eq (S fuel) self h (W_InstanceObject b) v = Ok w_False.
Proof.
  intros Hv.
  assert (H : forall io,
    (_compare (S fuel) self h (W_ArrayObject a) v false io = Ok 1
     /\ _compare (S fuel) self h v (W_ArrayObject a) false io = Ok (-1))
    /\ (_compare (S fuel) self h (W_InstanceObject b) v false io = Ok 1
        /\ _compare (S fuel) self h v (W_InstanceObject b) false io = Ok (-1))
    /\ (_compare (S fuel) self h (W_ArrayObject a) (W_InstanceObject b) false io = Ok 1
        /\ _compare (S fuel) self h (W_InstanceObject b) (W_ArrayObject a) false io
           = Ok (-1))).
  { intros io. rewrite !_compare_S. unfold _compare_body.
    destruct v as [z | f | s | | | | | k id |]; try discriminate Hv;
      try destruct k; repeat split; reflexivity. }
  destruct (H ignore_order) as (H1 & H2 & H3).
  split; [exact H1 |]. split; [exact H2 |]. split; [exact H3 |].
  unfold Cmp.gt, Cmp.lt, Cmp.eq.
  destruct (H false) as ((-> & _) & (_ & ->) & _).
  destruct (H true) as (_ & (-> & _) & _). repeat split; reflexivity.
Qed.

Lemma aggregates_outrank_plain_values_witness :
  (_compare 1 space64 ∅ (W_ArrayObject 1%positive) (W_StringObject "zzz") false false = Ok 1
   /\ _compare 1 space64 ∅ (W_StringObject "zzz") (W_ArrayObject 1%positive) false false
      = Ok (-1))
  /\ (_compare 1 space64 ∅ (W_InstanceObject 2%positive) (W_StringObject "zzz") false false
      = Ok 1
      /\ _compare 1 space64 ∅ (W_StringObject "zzz") (W_InstanceObject 2%positive) false false
         = Ok (-1))
  /\ (_compare 1 space64 ∅ (W_ArrayObject 1%positive) (W_InstanceObject 2%positive)
        false false = Ok 1
      /\ _compare 1 space64 ∅ (W_InstanceObject 2%positive) (W_ArrayObject 1%positive)
           false false = Ok (-1))
  /\ Cmp.gt 1 space64 ∅ (W_ArrayObject 1%positive) (W_StringObject "zzz") = Ok w_True
  /\ Cmp.lt 1 space64 ∅ (W_StringObject "zzz") (W_InstanceObject 2%positive) = Ok w_True
  /\ Cmp.eq 1 space64 ∅ (W_InstanceObject 2%positive) (W_StringObject "zzz") = Ok w_False.
Proof.
  exact (aggregates_outrank_plain_values space64 ∅ 0 1%positive 2%positive
           (W_StringObject "zzz") false eq_refl).
Defined.

(** ** Comparing instances *)

Lemma compare_scalar_refl (self : ObjSpace) (h : gmap loc cell) (n : nat) (v : W_Root)
    (ignore_order : bool) :
  is_comparable_scalar v = true ->
  _compare (S (S n)) self h v v false ignore_order = Ok 0.
Proof.
  unfold is_comparable_scalar. intros H. apply andb_prop in H as [Hs Hn].
  apply negb_true_iff in Hn.
  destruct v as [z | f | s | | | b | | |]; try discriminate Hs.
  - rewrite _compare_S. unfold _compare_body. cbn -[my_cmp].
    rewrite my_cmp_int_refl. reflexivity.
  - rewrite _compare_S. unfold _compare_body. cbn -[my_cmp].
    rewrite my_cmp_float_refl by exact Hn. reflexivity.
  - rewrite _compare_strings.
    destruct (jit_isconstant self (Z.of_nat (Py.len s)) && Nat.eqb (Py.len s) 1
              && jit_isconstant self (Z.of_nat (Py.len s)) && Nat.eqb (Py.len s) 1)
      eqn:Hfast.
    + apply andb_prop in Hfast as [_ Hlen].
      destruct s as [| c [| ? ?]]; try discriminate Hlen.
      cbn -[my_cmp]. rewrite my_cmp_int_refl. reflexivity.
    + destruct (snd (convert_string_to_number self s)
                && snd (convert_string_to_number self s)).
      * apply compare_number_refl. apply convert_string_to_number_is_number.
      * rewrite my_cmp_str_refl. reflexivity.
  - reflexivity.
  - rewrite _compare_S. unfold _compare_body. cbn -[my_cmp].
    rewrite my_cmp_bool_refl. reflexivity.
Qed.

Lemma object_loop_same (cmp : W_Root -> W_Root -> bool -> bool -> res Z)
    (h : gmap loc cell) (ignore_order : bool) (right_attrs : list (string * W_Root))
    (obj_st : obj_stack) (strict_st : list bool) (attrs : list (string * W_Root)) :
  (forall v, is_comparable_scalar v = true -> cmp v v false ignore_order = Ok 0) ->
  forallb (fun kv => is_comparable_scalar (snd kv)) attrs = true ->
  object_loop cmp h ignore_order right_attrs false attrs attrs None obj_st strict_st
  = Ok (inr (None, obj_st, strict_st)).
Proof.
  intros Hcmp. induction attrs as [| [key v] attrs IH]; intros Hall; [reflexivity |].
  cbn [forallb snd] in Hall. apply andb_prop in Hall as [Hv Hall].
  cbn [object_loop]. rewrite String.eqb_refl. cbn [negb].
  assert (Hval : compare_values cmp h ignore_order false false v v None obj_st strict_st
                 = Ok (Continue (None, obj_st, strict_st))).
  { unfold compare_values. pose proof (Hcmp v Hv) as Hz.
    unfold is_comparable_scalar in Hv. apply andb_prop in Hv as [Hs _].
    destruct v as [z | f | s | | | b | | |]; try discriminate Hs;
      cbn [W.deref mbind res_bind is_ tp];
      try (rewrite Bool.eqb_reflx); try reflexivity;
      change (is_aggregate_tp tp_int) with false;
      change (is_aggregate_tp tp_float) with false;
      change (is_aggregate_tp tp_str) with false;
      cbn [andb]; rewrite Hz; reflexivity. }
  rewrite Hval. cbn [mbind res_bind]. apply IH. exact Hall.
Qed.

Lemma aggregates_loop_S (cmp : W_Root -> W_Root -> bool -> bool -> res Z)
    (self : ObjSpace) (h : gmap loc cell) (io : bool) (n : nat)
    (x : option W_Root) (obj_st : obj_stack) (strict_st : list bool) :
  aggregates_loop cmp self h io (S n) (x :: obj_st) strict_st
  = (r ← aggregates_step cmp self h io (x :: obj_st) strict_st;
     match r with
     | Return z => Ok z
     | Break _ => Ok 0
     | Continue (obj_st, strict_st) => aggregates_loop cmp self h io n obj_st strict_st
     end).
Proof. reflexivity. Qed.

Lemma aggregates_step_instances (cmp : W_Root -> W_Root -> bool -> bool -> res Z)
    (self : ObjSpace) (h : gmap loc cell) (io strict : bool) (a b : loc)
    (k : W_Class) (attrs : list (string * W_Root)) :
  W.instance h (W_InstanceObject a) = Ok (k, attrs) ->
  klass_compare k = None ->
  aggregates_step cmp self h io [Some (W_InstanceObject a); Some (W_InstanceObject b)]
    [strict]
  = inline_object_comparison cmp h io (W_InstanceObject a) (W_InstanceObject b) strict
      [] [].
Proof.
  intros Ha Hk. unfold aggregates_step. cbn [pop rev app mbind res_bind tp].
  change ((tp_object =? tp_array) && (tp_object =? tp_array)) with false.
  change ((tp_object =? tp_object) && (tp_object =? tp_object)) with true.
  cbv iota. unfold W.getclass at 1. rewrite Ha. cbn [mbind res_bind fst]. rewrite Hk.
  reflexivity.
Qed.

(** X16.  Two distinct instances whose class has the default comparison are
    never identical ([is_w]).  Of different classes they are unequal and
    each is greater than the other; of one class and with the same
    attributes, holding nulls, booleans, ints, strings and floats other
    than NaN, they are equal, and neither is less. *)
Theorem instances_compare_by_class_and_attributes
    (self : ObjSpace) (h : gmap loc cell) (fuel : nat) (a b : loc)
    (k k' : W_Class) (attrs attrs' : list (string * W_Root)) :
  W.instance h (W_InstanceObject a) = Ok (k, attrs) ->
  W.instance h (W_InstanceObject b) = Ok (k', attrs') ->
  a <> b ->
  klass_compare k = None ->
  is_w (S (S (S fuel))) self h (W_InstanceObject a) (W_InstanceObject b) = Ok false
  /\ (klass_id k <> klass_id k' ->
      Cmp.eq (S (S (S fuel))) self h (W_InstanceObject a) (W_InstanceObject b) = Ok w_False
      /\ Cmp.gt (S (S (S fuel))) self h (W_InstanceObject a) (W_InstanceObject b)
         = Ok w_True)
  /\ (klass_id k = klass_id k' -> attrs' = attrs ->
      forallb (fun kv => is_comparable_scalar (snd kv)) attrs = true ->
      Cmp.eq (S (S (S fuel))) self h (W_InstanceObject a) (W_InstanceObject b) = Ok w_True
      /\ Cmp.le (S (S (S fuel))) self h (W_InstanceObject a) (W_InstanceObject b)
         = Ok w_True
      /\ Cmp.ge (S (S (S fuel))) self h (W_InstanceObject a) (W_InstanceObject b)
         = Ok w_True).
Proof.
  intros Ha Hb Hab Hk.
  assert (Hab' : Pos.eqb a b = false) by (apply Pos.eqb_neq; exact Hab).
  assert (Hhead : forall strict io,
    _compare (S (S (S fuel))) self h (W_InstanceObject a) (W_InstanceObject b) strict io
    = (r ← inline_object_comparison (_compare (S (S fuel)) self h) h io
             (W_InstanceObject a) (W_InstanceObject b) strict [] [];
       match r with
       | Return z => Ok z
       | Break _ => Ok 0
       | Continue (obj_st, strict_st) =>
           aggregates_loop (_compare (S (S fuel)) self h) self h io (S fuel) obj_st strict_st
       end)).
  { intros strict io. rewrite _compare_S.
    transitivity (_compare_aggregates (_compare (S (S fuel)) self h) self h io (S (S fuel))
                    (W_InstanceObject a) (W_InstanceObject b) strict).
    { unfold _compare_body. cbn [W.deref tp mbind res_bind is_]. rewrite Hab'.
      destruct strict; reflexivity. }
    unfold _compare_aggregates. cbn [W.deref mbind res_bind].
    rewrite aggregates_loop_S.
    rewrite (aggregates_step_instances _ self h io strict a b k attrs Ha Hk).
    reflexivity. }
  assert (Hstrict : forall io,
    _compare (S (S (S fuel))) self h (W_InstanceObject a) (W_InstanceObject b) true io
    = Ok 1).
  { intros io. rewrite Hhead. unfold inline_object_comparison.
    cbn [is_]. rewrite Hab'. unfold W.getclass. rewrite Ha, Hb. reflexivity. }
  split; [| split].
  - unfold is_w. rewrite Hstrict. reflexivity.
  - intros Hid.
    assert (Hone : forall io,
      _compare (S (S (S fuel))) self h (W_InstanceObject a) (W_InstanceObject b) false io
      = Ok 1).
    { intros io. rewrite Hhead. unfold inline_object_comparison.
      cbn [is_]. rewrite Hab'. unfold W.getclass. rewrite Ha, Hb.
      cbn [mbind res_bind fst orb].
      destruct (Pos.eqb_spec (klass_id k) (klass_id k')) as [E | _]; [contradiction |].
      reflexivity. }
    unfold Cmp.eq, Cmp.gt. rewrite !Hone. split; reflexivity.
  - intros Hid -> Hall.
    assert (Hzero : forall io,
      _compare (S (S (S fuel))) self h (W_InstanceObject a) (W_InstanceObject b) false io
      = Ok 0).
    { intros io. rewrite Hhead. unfold inline_object_comparison.
      cbn [is_]. rewrite Hab'. unfold W.getclass, W.get_instance_attrs. rewrite Ha, Hb.
      cbn [mbind res_bind fst snd orb]. rewrite Hid, Pos.eqb_refl. cbn [negb].
      rewrite Z.sub_diag. cbn [Z.ltb Z.gtb Z.compare].
      rewrite object_loop_same; [reflexivity | | exact Hall].
      intros v Hv. apply compare_scalar_refl. exact Hv. }
    unfold Cmp.eq, Cmp.le, Cmp.ge. rewrite !Hzero. repeat split; reflexivity.
Qed.

Lemma instances_compare_by_class_and_attributes_witness :
  is_w 3 space64 twin_instances_heap (W_InstanceObject 1%positive)
    (W_InstanceObject 2%positive) = Ok false
  /\ (klass_id sample_class <> klass_id sample_class ->
      Cmp.eq 3 space64 twin_instances_heap (W_InstanceObject 1%positive)
        (W_InstanceObject 2%positive) = Ok w_False
      /\ Cmp.gt 3 space64 twin_instances_heap (W_InstanceObject 1%positive)
           (W_InstanceObject 2%positive) = Ok w_True)
  /\ (klass_id sample_class = klass_id sample_class ->
      [("x"%string, W_IntObject 1); ("y"%string, W_StringObject "2")]
      = [("x"%string, W_IntObject 1); ("y"%string, W_StringObject "2")] ->
      forallb (fun kv => is_comparable_scalar (snd kv))
        [("x"%string, W_IntObject 1); ("y"%string, W_StringObject "2")] = true ->
      Cmp.eq 3 space64 twin_instances_heap (W_InstanceObject 1%positive)
        (W_InstanceObject 2%positive) = Ok w_True
      /\ Cmp.le 3 space64 twin_instances_heap (W_InstanceObject 1%positive)
           (W_InstanceObject 2%positive) = Ok w_True
      /\ Cmp.ge 3 space64 twin_instances_heap (W_InstanceObject 1%positive)
           (W_InstanceObject 2%positive) = Ok w_True).
Proof.
  apply (instances_compare_by_class_and_attributes space64 twin_instances_heap 0
           1%positive 2%positive sample_class sample_class
           [("x"%string, W_IntObject 1); ("y"%string, W_StringObject "2")]
           [("x"%string, W_IntObject 1); ("y"%string, W_StringObject "2")]);
    (reflexivity || discriminate).
Defined.

(** ** Arrays as text *)

Lemma str_w_scalar (self : ObjSpace) (v : W_Root) (st : Interpreter) :
  is_scalar v = true -> str_w self v st = (Ok (scalar_text self v), st).
Proof. destruct v; try discriminate; reflexivity. Qed.

Lemma append_assoc (a b c : string) : ((a +:+ b) +:+ c)%string = (a +:+ b +:+ c)%string.
Proof.
  induction a as [| x a IH]; [reflexivity |].
  change (String x (((a +:+ b) +:+ c))%string = String x (a +:+ b +:+ c)%string).
  rewrite IH. reflexivity.
Qed.

Lemma array_to_string_loop_scalars (self : ObjSpace) (itr : list (W_Root * W_Root))
    (out : string) (st : Interpreter) :
  forallb (fun kv => is_scalar (snd kv)) itr = true ->
  array_to_string_loop self itr out st
  = (Ok (out +:+ join (map (fun kv => scalar_text self (snd kv)) itr)), st).
Proof.
  revert out. induction itr as [| [k v] itr IH]; intros out Hall.
  - cbn. rewrite append_empty_r. reflexivity.
  - cbn [forallb snd] in Hall. apply andb_prop in Hall as [Hv Hall].
    cbn [array_to_string_loop]. unfold mbind, M_bind, lift.
    assert (Htp : exists t, tp v = Ok t /\ (t =? tp_array) = false).
    { destruct v; try discriminate Hv; eexists; split; reflexivity. }
    destruct Htp as (t & -> & ->).
    cbv beta iota delta [mret M_ret].
    rewrite (str_w_scalar self v st Hv), IH by exact Hall.
    cbn [map join fold_right snd]. rewrite append_assoc. reflexivity.
Qed.

(** X17.  On an array whose values are nulls, booleans, ints, floats and
    strings, [array_to_string_conversion] returns their texts joined in
    insertion order with nothing between them, ignores the keys, and
    issues no diagnostic. *)
Theorem array_to_string_joins_scalars
    (self : ObjSpace) (st : Interpreter) (w_arr w : W_Root)
    (items : list (W_Root * W_Root)) :
  W.deref (heap st) w_arr = Ok w ->
  W.items (heap st) w = Ok items ->
  forallb (fun kv => is_scalar (snd kv)) items = true ->
  array_to_string_conversion self w_arr st
  = (Ok (W_StringObject (join (map (fun kv => scalar_text self (snd kv)) items))), st).
Proof.
  intros Hd Hi Hall.
  unfold array_to_string_conversion, get_heap, lift, mbind, M_bind.
  rewrite Hd, Hi, (array_to_string_loop_scalars self items EmptyString st Hall).
  reflexivity.
Qed.

Lemma array_to_string_joins_scalars_witness :
  array_to_string_conversion space64 (W_ArrayObject 1%positive) callback_interpreter
  = (Ok (W_StringObject "Foobar"), callback_interpreter).
Proof.
  exact (array_to_string_joins_scalars space64 callback_interpreter
           (W_ArrayObject 1%positive) (W_ArrayObject 1%positive)
           [(W_IntObject 0, W_StringObject "Foo"); (W_IntObject 1, W_StringObject "bar")]
           eq_refl eq_refl eq_refl).
Defined.

(** ** The prebuilt constants *)

(** X18.  [setup_constants] returns normally.  In its dictionary every
    spelling of [true], [false] and [null], in whatever case, is bound
    to the boolean or null value, also where a module defines a constant
    of that name; [PHP_INT_MAX] is [sys.maxint] and [PHP_INT_SIZE] is 4
    or 8; every other name has the value its last module gave it. *)
Theorem setup_constants_binds_fixed_names
    (self : ObjSpace) (constants_by_module : list (string * list (string * W_Root))) :
  exists dct,
    setup_constants self constants_by_module = Ok dct
    /\ forall key,
         dct !! key
         = if is_case_variant key "null" then Some w_Null
           else if is_case_variant key "false" then Some w_False
           else if is_case_variant key "true" then Some w_True
           else if String.eqb key "PHP_INT_SIZE"
                then Some (W_IntObject (if sys_maxint self <? 2 ^ 32 then 4 else 8))
           else if String.eqb key "PHP_INT_MAX" then Some (W_IntObject (sys_maxint self))
           else module_constants constants_by_module !! key.
Proof.
  unfold setup_constants. fold (module_constants constants_by_module).
  set (base := module_constants constants_by_module).
  set (d1 := <["PHP_INT_SIZE"%string := _]> (<["PHP_INT_MAX"%string := _]> base)).
  destruct (_setup_constant_any_case_lookup self "true" w_True d1) as (d2 & E2 & L2).
  destruct (_setup_constant_any_case_lookup self "false" w_False d2) as (d3 & E3 & L3).
  destruct (_setup_constant_any_case_lookup self "null" w_Null d3) as (d4 & E4 & L4).
  exists d4. split.
  - cbn beta zeta. fold d1. rewrite E2. cbn [mbind res_bind]. rewrite E3.
    cbn [mbind res_bind]. exact E4.
  - intros key. rewrite L4, L3, L2.
    destruct (is_case_variant key "null"); [reflexivity |].
    destruct (is_case_variant key "false"); [reflexivity |].
    destruct (is_case_variant key "true"); [reflexivity |].
    unfold d1. destruct (String.eqb_spec key "PHP_INT_SIZE") as [-> | N1].
    + rewrite lookup_insert_eq. reflexivity.
    + rewrite lookup_insert_ne by congruence.
      destruct (String.eqb_spec key "PHP_INT_MAX") as [-> | N2].
      * rewrite lookup_insert_eq. reflexivity.
      * rewrite lookup_insert_ne by congruence. reflexivity.
Qed.

(** ** Callbacks named by a function *)

Lemma index_separator_none (name : string) :
  is_valid_clsname_rest name = true -> String.index 0 "::" name = None.
Proof.
  induction name as [| c name IH]; intros Hv; [reflexivity |].
  cbn [is_valid_clsname_rest] in Hv.
  destruct (is_alpha_ c || Py.is_digit c || Ascii.eqb c backslash) eqn:Hc;
    [| discriminate Hv].
  cbn [negb] in Hv. pose proof (clsname_byte_is_no_colon c Hc) as Hcolon.
  cbn [String.index String.prefix].
  destruct (ascii_dec ":" c) as [E | _]; [congruence |].
  rewrite (IH Hv). reflexivity.
Qed.

(** X19.  A string of letters, digits, underscores and backslashes names a
    function: [get_callback] returns what [lookup_function] knows under
    that name and leaves the interpreter as it is; for an unknown name
    it returns the null invocable, and with [give_warning] set it warns
    that the function was not found, naming the caller, the argument
    position and the function.  The same holds of an int, float,
    boolean, null or resource operand, which is never a callback: the
    warning then says that no array or string was given. *)
Theorem callback_by_function_name
    (self : ObjSpace) (st : Interpreter) (name fname : string) (arg_no : Z) :
  is_valid_clsname_rest name = true ->
  get_callback self fname arg_no (W_StringObject name) true st
  = match lookup_function self name with
    | Some func => (Ok (Some func), st)
    | None =>
        (Ok None,
         with_diagnostic st warn
           (fname +:+ "() expects parameter " +:+ Py.str_of_int arg_no
            +:+ " to be a valid callback, function '" +:+ name
            +:+ "' not found or invalid function name"))
    end
  /\ get_callback self fname arg_no (W_StringObject name) false st
     = (Ok (lookup_function self name), st)
  /\ (forall v, is_scalar v || is_plain v = true -> tp v <> Ok tp_str ->
      get_callback self fname arg_no v true st
      = (Ok None,
         with_diagnostic st warn
           (fname +:+ "() expects parameter " +:+ Py.str_of_int arg_no
            +:+ " to be a valid callback, no array or string given"))
      /\ get_callback self fname arg_no v false st = (Ok None, st)).
Proof.
  intros Hv.
  assert (Hstr : _get_callback self (W_StringObject name) st
                 = match lookup_function self name with
                   | Some func => (Ok func, st)
                   | None =>
                       (Raise (InvalidCallback
                                 ("function '" +:+ name
                                  +:+ "' not found or invalid function name")), st)
                   end).
  { change (_get_callback self (W_StringObject name) st)
      with (_get_callback_from_string self name st).
    unfold _get_callback_from_string. rewrite (index_separator_none name Hv).
    destruct (lookup_function self name); reflexivity. }
  split; [| split].
  - unfold get_callback, try_except_InvalidCallback, mbind at 1, M_bind at 1.
    rewrite Hstr. destruct (lookup_function self name); reflexivity.
  - unfold get_callback, try_except_InvalidCallback, mbind at 1, M_bind at 1.
    rewrite Hstr. destruct (lookup_function self name); reflexivity.
  - intros v Hplain Hnot.
    assert (Hraise : _get_callback self v st
                     = (Raise (InvalidCallback "no array or string given"), st)).
    { destruct v as [z | f | s | | | b | | k id |]; try discriminate Hplain;
        try reflexivity; [exfalso; apply Hnot; reflexivity | destruct k; reflexivity]. }
    unfold get_callback, try_except_InvalidCallback, mbind at 1 3, M_bind at 1 3.
    rewrite Hraise. split; reflexivity.
Qed.

Lemma callback_by_function_name_witness :
  get_callback space64 "usort" 2 (W_StringObject "my_cmp") true sample_interpreter
  = match lookup_function space64 "my_cmp" with
    | Some func => (Ok (Some func), sample_interpreter)
    | None =>
        (Ok None,
         with_diagnostic sample_interpreter warn
           ("usort" +:+ "() expects parameter " +:+ Py.str_of_int 2
            +:+ " to be a valid callback, function '" +:+ "my_cmp"
            +:+ "' not found or invalid function name"))
    end
  /\ get_callback space64 "usort" 2 (W_StringObject "my_cmp") false sample_interpreter
     = (Ok (lookup_function space64 "my_cmp"), sample_interpreter)
  /\ (forall v, is_scalar v || is_plain v = true -> tp v <> Ok tp_str ->
      get_callback space64 "usort" 2 v true sample_interpreter
      = (Ok None,
         with_diagnostic sample_interpreter warn
           ("usort" +:+ "() expects parameter " +:+ Py.str_of_int 2
            +:+ " to be a valid callback, no array or string given"))
      /\ get_callback space64 "usort" 2 v false sample_interpreter
         = (Ok None, sample_interpreter)).
Proof.
  exact (callback_by_function_name space64 sample_interpreter "my_cmp" "usort" 2 eq_refl).
Defined.

(** ** Type predicates and type names *)

(** X20.  On a value or a reference to one, [is_array], [is_str] and [is_null]
    hold exactly where [gettypename] says "array", "string" and "null".
    For an instance [gettypename] never says "object".  [is_resource]
    does not look through a reference: it holds of a resource, which
    [gettypename] calls "resource", and fails on a reference to one,
    which [gettypename] calls "resource" as well. *)
Theorem type_predicates_and_names
    (self : ObjSpace) (h : gmap loc cell) (w_obj w : W_Root) (t : Z) :
  W.deref h w_obj = Ok w ->
  tp w = Ok t ->
  (is_array self h w_obj = Ok true <-> gettypename self h w_obj = Ok "array"%string)
  /\ (is_str self h w_obj = Ok true <-> gettypename self h w_obj = Ok "string"%string)
  /\ (is_null self h w_obj = Ok true <-> gettypename self h w_obj = Ok "null"%string)
  /\ (is_object self h w_obj = Ok true -> gettypename self h w_obj <> Ok "object"%string)
  /\ (is_resource self w = true -> gettypename self h w_obj = Ok "resource"%string)
  /\ (is_resource self w = true -> w_obj <> w -> is_resource self w_obj = false).
Proof.
  intros Hd Ht.
  unfold is_array, is_str, is_null, is_object, gettypename. rewrite Hd.
  cbn [mbind res_bind]. rewrite Ht. cbn [mbind res_bind].
  destruct w as [z | f | s | a | | b | a | k id | r]; try discriminate Ht;
    injection Ht as <-.
  1-6: (repeat split; try discriminate; try reflexivity;
        try (intros H; discriminate H)).
  - (* an instance *)
    repeat split; try (intros H; discriminate H).
    + destruct (W.getclass h (W_InstanceObject a)) as [k | |]; discriminate.
    + destruct (W.getclass h (W_InstanceObject a)) as [k | |]; discriminate.
    + destruct (W.getclass h (W_InstanceObject a)) as [k | |]; discriminate.
    + intros _. destruct (W.getclass h (W_InstanceObject a)) as [k | |]; discriminate.
  - (* a resource *)
    destruct k; (repeat split; try discriminate; try reflexivity;
                 try (intros H; discriminate H));
      intros _ Hne; destruct w_obj as [| | | | | | | k' id' | r];
        try reflexivity; cbn in Hd; injection Hd as -> ->; contradiction.
Qed.

Lemma type_predicates_and_names_witness :
  (is_array space64 cyclic_heap (W_Reference 4%positive) = Ok true
   <-> gettypename space64 cyclic_heap (W_Reference 4%positive) = Ok "array"%string)
  /\ (is_str space64 cyclic_heap (W_Reference 4%positive) = Ok true
      <-> gettypename space64 cyclic_heap (W_Reference 4%positive) = Ok "string"%string)
  /\ (is_null space64 cyclic_heap (W_Reference 4%positive) = Ok true
      <-> gettypename space64 cyclic_heap (W_Reference 4%positive) = Ok "null"%string)
  /\ (is_object space64 cyclic_heap (W_Reference 4%positive) = Ok true ->
      gettypename space64 cyclic_heap (W_Reference 4%positive) <> Ok "object"%string)
  /\ (is_resource space64 (W_ArrayObject 3%positive) = true ->
      gettypename space64 cyclic_heap (W_Reference 4%positive) = Ok "resource"%string)
  /\ (is_resource space64 (W_ArrayObject 3%positive) = true ->
      W_Reference 4%positive <> W_ArrayObject 3%positive ->
      is_resource space64 (W_Reference 4%positive) = false).
Proof.
  exact (type_predicates_and_names space64 cyclic_heap (W_Reference 4%positive)
           (W_ArrayObject 3%positive) tp_array eq_refl eq_refl).
Defined.

(** ** Comparing with a boolean *)

(** X21.  Compared with a boolean, any operand counts by its truth value
    alone: an int, a float, a string, null, an array, an instance or a
    resource, directly or behind a reference.  [eq] holds when the truth
    values agree, and false is less than true, in either operand order;
    one call decides. *)
Theorem booleans_compare_by_truth
    (self : ObjSpace) (h : gmap loc cell) (fuel : nat) (b t : bool) (v w : W_Root) :
  W.deref h v = Ok w ->
  is_true self h v = Ok t ->
  Cmp.eq (S fuel) self h (W_BoolObject b) v = Ok (newbool (Bool.eqb b t))
  /\ Cmp.eq (S fuel) self h v (W_BoolObject b) = Ok (newbool (Bool.eqb b t))
  /\ Cmp.lt (S fuel) self h (W_BoolObject b) v = Ok (newbool (negb b && t))
  /\ Cmp.gt (S fuel) self h v (W_BoolObject b) = Ok (newbool (negb b && t))
  /\ Cmp.gt (S fuel) self h (W_BoolObject b) v = Ok (newbool (b && negb t))
  /\ Cmp.lt (S fuel) self h v (W_BoolObject b) = Ok (newbool (b && negb t)).
Proof.
  intros Hd Ht.
  assert (Htrue : W.is_true h w = Ok t).
  { unfold is_true in Ht. rewrite Hd in Ht. exact Ht. }
  assert (Htrue' : is_true self h w = Ok t).
  { unfold is_true. destruct w; try exact Htrue. discriminate Htrue. }
  assert (H : forall io,
    exists z z',
      _compare (S fuel) self h (W_BoolObject b) v false io = Ok z
      /\ _compare (S fuel) self h v (W_BoolObject b) false io = Ok z'
      /\ (z =? 0) = Bool.eqb b t /\ (z' =? 0) = Bool.eqb b t
      /\ (io = false ->
          (z <? 0) = negb b && t /\ (z' >? 0) = negb b && t
          /\ (z >? 0) = b && negb t /\ (z' <? 0) = b && negb t)).
  { intros io. rewrite !_compare_S. unfold _compare_body. rewrite Hd.
    cbn [W.deref mbind res_bind tp].
    destruct w as [x | f | s | a | | c | a | k id | r]; try discriminate Htrue;
      try destruct k;
      cbn -[my_cmp is_true]; rewrite ?Htrue'; cbn -[my_cmp];
      (do 2 eexists; split; [reflexivity | split; [reflexivity |]]);
      destruct b, t, io; try (cbn in Htrue; discriminate Htrue);
      cbn; repeat split; try reflexivity; congruence. }
  destruct (H true) as (z1 & z1' & E1 & E1' & Hz1 & Hz1' & _).
  destruct (H false) as (z2 & z2' & E2 & E2' & _ & _ & Hord).
  destruct (Hord eq_refl) as (Hlt & Hgt' & Hgt & Hlt').
  unfold Cmp.eq, Cmp.lt, Cmp.gt. rewrite E1, E1', E2, E2'. cbn [mbind res_bind].
  rewrite Hz1, Hz1', Hlt, Hgt', Hgt, Hlt'. repeat split; reflexivity.
Qed.

Lemma booleans_compare_by_truth_witness :
  Cmp.eq 1 space64 (heap sample_interpreter) (W_BoolObject true) (W_ArrayObject 1%positive)
  = Ok (newbool (Bool.eqb true true))
  /\ Cmp.eq 1 space64 (heap sample_interpreter) (W_ArrayObject 1%positive) (W_BoolObject true)
     = Ok (newbool (Bool.eqb true true))
  /\ Cmp.lt 1 space64 (heap sample_interpreter) (W_BoolObject true) (W_ArrayObject 1%positive)
     = Ok (newbool (negb true && true))
  /\ Cmp.gt 1 space64 (heap sample_interpreter) (W_ArrayObject 1%positive) (W_BoolObject true)
     = Ok (newbool (negb true && true))
  /\ Cmp.gt 1 space64 (heap sample_interpreter) (W_BoolObject true) (W_ArrayObject 1%positive)
     = Ok (newbool (true && negb true))
  /\ Cmp.lt 1 space64 (heap sample_interpreter) (W_ArrayObject 1%positive) (W_BoolObject true)
     = Ok (newbool (true && negb true)).
Proof.
  exact (booleans_compare_by_truth space64 (heap sample_interpreter) 0 true true
           (W_ArrayObject 1%positive) (W_ArrayObject 1%positive) eq_refl eq_refl).
Defined.

(** ** Callbacks named by an array *)

Lemma get_callback_cases (self : ObjSpace) (fname : string) (arg_no : Z) (w_obj : W_Root)
    (give_warning : bool) (st : Interpreter) :
  get_callback self fname arg_no w_obj give_warning st
  = match _get_callback self w_obj st with
    | (Ok c, st') => (Ok (Some c), st')
    | (Raise (InvalidCallback msg), st') =>
        (Ok None,
         if give_warning then
           with_diagnostic st' warn
             (fname +:+ "() expects parameter " +:+ Py.str_of_int arg_no
              +:+ " to be a valid callback, " +:+ msg)
         else st')
    | (Raise e, st') => (Raise e, st')
    | (OutOfFuel, st') => (OutOfFuel, st')
    end.
Proof.
  unfold get_callback, try_except_InvalidCallback, mbind at 1, M_bind at 1.
  destruct (_get_callback self w_obj st) as [[c | e |] st']; try reflexivity.
  destruct e; try reflexivity. destruct give_warning; reflexivity.
Qed.

(** X22.  A two-element array whose first member is an instance names
    the method of that instance given by the second member: a
    visibility error of the method lookup does not escape but becomes
    the warning of [get_callback], with the message for the non-static
    case, and the result is the null invocable.  When the first member
    is a null, boolean, int, float or string whose text is no valid
    class name, the warning says so and the second member is not looked
    at.  Whatever the operand, [get_callback] never raises
    [InvalidCallback]. *)
Theorem callback_array_members
    (self : ObjSpace) (st : Interpreter) (a : loc) (v0 v1 : W_Root)
    (fname : string) (arg_no : Z) :
  W.items (heap st) (W_ArrayObject a) = Ok [(W_IntObject 0, v0); (W_IntObject 1, v1)] ->
  (forall o meth, v0 = W_InstanceObject o -> v1 = W_StringObject meth ->
     _get_callback self (W_ArrayObject a) st
     = (catch_VisibilityError false (getmeth self o meth (get_contextclass self)), st)
     /\ forall msg_static msg_instance,
          getmeth self o meth (get_contextclass self)
          = Raise (VisibilityError msg_static msg_instance) ->
          get_callback self fname arg_no (W_ArrayObject a) true st
          = (Ok None,
             with_diagnostic st warn
               (fname +:+ "() expects parameter " +:+ Py.str_of_int arg_no
                +:+ " to be a valid callback, " +:+ msg_instance)))
  /\ (is_scalar v0 = true -> is_valid_clsname self (scalar_text self v0) = false ->
      get_callback self fname arg_no (W_ArrayObject a) true st
      = (Ok None,
         with_diagnostic st warn
           (fname +:+ "() expects parameter " +:+ Py.str_of_int arg_no
            +:+ " to be a valid callback, "
            +:+ "first array member is not a valid class name or object")))
  /\ (forall w_obj give_warning st0 msg,
        fst (get_callback self fname arg_no w_obj give_warning st0)
        <> Raise (InvalidCallback msg)).
Proof.
  intros Ha.
  assert (H0 : getitem self (heap st) (W_ArrayObject a) (W_IntObject 0) = Ok v0).
  { unfold getitem, W.deref_temp, W.getitem. cbn [W.deref mbind res_bind].
    rewrite Ha. reflexivity. }
  assert (H1 : getitem self (heap st) (W_ArrayObject a) (W_IntObject 1) = Ok v1).
  { unfold getitem, W.deref_temp, W.getitem. cbn [W.deref mbind res_bind].
    rewrite Ha. reflexivity. }
  assert (Hlen : W.arraylen (heap st) (W_ArrayObject a) = Ok 2%nat).
  { unfold W.arraylen. rewrite Ha. reflexivity. }
  split; [| split].
  - intros o meth -> ->.
    assert (Hres : _get_callback self (W_ArrayObject a) st
                   = (catch_VisibilityError false
                        (getmeth self o meth (get_contextclass self)), st)).
    { unfold _get_callback, mbind, M_bind, lift, get_heap, raise.
      cbv beta iota delta [tp Z.eqb Pos.eqb tp_array tp_str res_bind].
      rewrite Hlen. cbv beta iota delta [Nat.eqb negb]. rewrite H0.
      cbv beta iota delta [W.deref str_w mbind M_bind get_heap lift W.str mret M_ret].
      rewrite H1. reflexivity. }
    split; [exact Hres |]. intros ms mi Hvis.
    rewrite get_callback_cases, Hres, Hvis. reflexivity.
  - intros Hs Hinvalid. rewrite get_callback_cases.
    assert (Hraise : _get_callback self (W_ArrayObject a) st
                     = (Raise (InvalidCallback
                                 "first array member is not a valid class name or object"),
                        st)).
    { unfold _get_callback, mbind, M_bind, lift, get_heap, raise.
      cbv beta iota delta [tp Z.eqb Pos.eqb tp_array tp_str res_bind].
      rewrite Hlen. cbv beta iota delta [Nat.eqb negb]. rewrite H0.
      destruct v0; try discriminate Hs; cbn [scalar_text] in Hinvalid;
        cbv beta iota delta [W.deref str_w mbind M_bind get_heap lift W.str mret M_ret];
        rewrite Hinvalid; reflexivity. }
    rewrite Hraise. reflexivity.
  - intros w_obj give_warning st0 msg. rewrite get_callback_cases.
    destruct (_get_callback self w_obj st0) as [[c | e |] st']; try discriminate.
    destruct e; discriminate.
Qed.

Lemma callback_array_members_witness :
  (forall o meth, W_IntObject 10 = W_InstanceObject o -> W_IntObject 20 = W_StringObject meth ->
     _get_callback space64 (W_ArrayObject 1%positive) callback_pair_interpreter
     = (catch_VisibilityError false (getmeth space64 o meth (get_contextclass space64)),
        callback_pair_interpreter)
     /\ forall msg_static msg_instance,
          getmeth space64 o meth (get_contextclass space64)
          = Raise (VisibilityError msg_static msg_instance) ->
          get_callback space64 "usort" 2 (W_ArrayObject 1%positive) true
            callback_pair_interpreter
          = (Ok None,
             with_diagnostic callback_pair_interpreter warn
               ("usort" +:+ "() expects parameter " +:+ Py.str_of_int 2
                +:+ " to be a valid callback, " +:+ msg_instance)))
  /\ (is_scalar (W_IntObject 10) = true ->
      is_valid_clsname space64 (scalar_text space64 (W_IntObject 10)) = false ->
      get_callback space64 "usort" 2 (W_ArrayObject 1%positive) true
        callback_pair_interpreter
      = (Ok None,
         with_diagnostic callback_pair_interpreter warn
           ("usort" +:+ "() expects parameter " +:+ Py.str_of_int 2
            +:+ " to be a valid callback, "
            +:+ "first array member is not a valid class name or object")))
  /\ (forall w_obj give_warning st0 msg,
        fst (get_callback space64 "usort" 2 w_obj give_warning st0)
        <> Raise (InvalidCallback msg)).
Proof.
  exact (callback_array_members space64 callback_pair_interpreter 1%positive
           (W_IntObject 10) (W_IntObject 20) "usort" 2 eq_refl).
Defined.

(** ** Slices that keep their string keys *)

Lemma slice_loop_keep_str_keys (self : ObjSpace) (start shift : Z) :
  forall (itr : list (W_Root * W_Root)) (next_idx : Z)
         (res_arr : list (W_Root * W_Root)) (idx : Z),
    forallb (fun kv => normalized_key self (fst kv)) itr = true ->
    slice_loop start shift false true itr next_idx res_arr idx
    = Ok (res_arr
          ++ renumber_int_keys next_idx
               (take (Z.to_nat (start + shift - Z.max idx start))
                  (drop (Z.to_nat (start - idx)) itr))).
Proof.
  induction itr as [| [w_key w_value] itr IH]; intros next_idx res_arr idx Hn.
  - cbn. rewrite drop_nil, take_nil. cbn. rewrite app_nil_r. reflexivity.
  - cbn [forallb fst] in Hn. apply andb_prop in Hn as [Hk Hn].
    cbn [slice_loop].
    destruct (Z.leb_spec start idx) as [Hlo | Hlo];
      [destruct (Z.ltb_spec idx (start + shift)) as [Hhi | Hhi] |];
      cbn [andb mbind res_bind].
    + replace (Z.to_nat (start - idx)) with 0%nat by lia.
      replace (Z.to_nat (start + shift - Z.max idx start))
        with (S (Z.to_nat (start + shift - Z.max (idx + 1) start))) by lia.
      cbn [drop take].
      destruct w_key as [z | | s | | | | | |]; try discriminate Hk;
        cbn [tp mbind res_bind renumber_int_keys];
        [change (tp_int =? tp_str) with false | change (tp_str =? tp_str) with true];
        cbv iota; cbn [mbind res_bind]; rewrite IH by exact Hn;
        replace (Z.to_nat (start - (idx + 1))) with 0%nat by lia;
        cbn [drop]; rewrite <- app_assoc; reflexivity.
    + rewrite IH by exact Hn.
      replace (Z.to_nat (start + shift - Z.max idx start)) with 0%nat by lia.
      replace (Z.to_nat (start + shift - Z.max (idx + 1) start)) with 0%nat by lia.
      reflexivity.
    + rewrite IH by exact Hn.
      replace (Z.to_nat (start - idx)) with (S (Z.to_nat (start - (idx + 1)))) by lia.
      replace (Z.max (idx + 1) start) with (Z.max idx start) by lia.
      reflexivity.
Qed.

Lemma renumber_int_keys_normalized (self : ObjSpace) (its : list (W_Root * W_Root)) :
  forall next,
    forallb (fun kv => normalized_key self (fst kv)) its = true ->
    forallb (fun kv => normalized_key self (fst kv)) (renumber_int_keys next its) = true.
Proof.
  induction its as [| [k v] its IH]; intros next Hn; [reflexivity |].
  cbn [forallb fst] in Hn. apply andb_prop in Hn as [Hk Hn].
  destruct k; try discriminate Hk; cbn [renumber_int_keys forallb fst];
    rewrite ?Hk, IH by exact Hn; reflexivity.
Qed.

Lemma renumber_int_keys_fresh_int (m : Z) (its : list (W_Root * W_Root)) :
  forall next, m < next ->
    forallb (fun kv => negb (W.key_eqb (W_IntObject m) (fst kv)))
      (renumber_int_keys next its) = true.
Proof.
  induction its as [| [k v] its IH]; intros next Hm; [reflexivity |].
  destruct k; cbn [renumber_int_keys forallb fst W.key_eqb negb andb];
    (destruct (Z.eqb_spec m next); [lia |]); cbn [negb andb]; apply IH; lia.
Qed.

Lemma renumber_int_keys_fresh_str (s : string) (its : list (W_Root * W_Root)) :
  forall next,
    forallb (fun kv => negb (W.key_eqb (W_StringObject s) (fst kv))) its = true ->
    forallb (fun kv => negb (W.key_eqb (W_StringObject s) (fst kv)))
      (renumber_int_keys next its) = true.
Proof.
  induction its as [| [k v] its IH]; intros next Hs; [reflexivity |].
  cbn [forallb fst] in Hs. apply andb_prop in Hs as [Hk Hs].
  destruct k; cbn [renumber_int_keys forallb fst W.key_eqb negb andb];
    try (apply IH; exact Hs).
  cbn [W.key_eqb] in Hk. rewrite Hk. apply IH. exact Hs.
Qed.

Lemma renumber_int_keys_distinct (self : ObjSpace) (its : list (W_Root * W_Root)) :
  forall next,
    forallb (fun kv => normalized_key self (fst kv)) its = true ->
    distinct_keys its = true ->
    distinct_keys (renumber_int_keys next its) = true.
Proof.
  induction its as [| [k v] its IH]; intros next Hn Hd; [reflexivity |].
  cbn [forallb fst] in Hn. apply andb_prop in Hn as [Hk Hn].
  cbn [distinct_keys] in Hd. apply andb_prop in Hd as [Hfresh Hd].
  destruct k as [z | | s | | | | | |]; try discriminate Hk;
    cbn [renumber_int_keys distinct_keys].
  - rewrite renumber_int_keys_fresh_int by lia. rewrite IH by assumption. reflexivity.
  - rewrite renumber_int_keys_fresh_str by exact Hfresh.
    rewrite IH by assumption. reflexivity.
Qed.

(** X23.  With [keep_keys = False] and [keep_str_keys = True], [slice] of
    a well-formed array returns a fresh array holding the pairs of the
    window in their order: a pair under a string key keeps its key, the
    pairs under int keys are renumbered 0, 1, ... ; the source array and
    the diagnostics are left as they are. *)
Theorem slice_keeps_string_keys
    (self : ObjSpace) (st : Interpreter) (w_arr w : W_Root)
    (items : list (W_Root * W_Root)) (start shift : Z) :
  W.deref (heap st) w_arr = Ok w ->
  W.items (heap st) w = Ok items ->
  well_formed_items self items = true ->
  slice self w_arr start shift false true st
  = (Ok (W_ArrayObject (next_loc st)),
     with_object st (CArray (renumber_int_keys 0 (slice_window items start shift)))).
Proof.
  intros Hd Hi Hwf.
  assert (Hempty : forall its, its = [] ->
            new_array_from_list self [] st
            = (Ok (W_ArrayObject (next_loc st)),
               with_object st (CArray (renumber_int_keys 0 its)))).
  { intros its ->. reflexivity. }
  unfold slice, get_heap, lift, arraylen, W.deref_temp, W.arraylen, mbind at 1 2, M_bind.
  destruct (Z.eqb_spec shift 0) as [-> | Hshift].
  { apply Hempty. unfold slice_window. cbn [Z.ltb Z.compare].
    match goal with |- take ?n _ = _ => replace n with 0%nat by lia end.
    reflexivity. }
  rewrite Hd. cbn [mbind res_bind]. rewrite Hi. cbn [mbind res_bind].
  destruct (Nat.eqb_spec (length items) 0) as [Hn | Hn].
  { apply Hempty. apply length_zero_iff_nil in Hn. subst items. unfold slice_window.
    rewrite drop_nil. apply take_nil. }
  destruct (Z.gtb_spec start (Z.of_nat (length items))) as [Hgt | Hle].
  { apply Hempty. unfold slice_window.
    destruct (Z.ltb_spec start 0); [lia |].
    rewrite drop_ge by lia. apply take_nil. }
  pose proof Hwf as Hwf'. unfold well_formed_items in Hwf'.
  apply andb_prop in Hwf' as [Hnorm _].
  unfold mbind, M_bind. rewrite Hi, (slice_loop_keep_str_keys self) by exact Hnorm.
  cbn [app].
  unfold new_array_from_pairs, W.new_array_from_pairs, alloc, mbind, M_bind, mret, M_ret.
  match goal with
  | |- context [renumber_int_keys 0 (take ?n (drop ?m items))] =>
      pose proof (well_formed_window self n m items Hwf) as Hw;
      unfold well_formed_items in Hw; apply andb_prop in Hw as [Hwn Hwd];
      rewrite (fold_set_key_well_formed self
                 (renumber_int_keys 0 (take n (drop m items))) []
                 (renumber_int_keys_normalized self _ 0 Hwn)
                 (renumber_int_keys_distinct self _ 0 Hwn Hwd))
  end.
  cbn [app]. unfold slice_window. rewrite !Z.sub_0_r. do 5 f_equal.
  destruct (Z.ltb_spec start 0); destruct (Z.ltb_spec shift 0); lia.
Qed.

Lemma slice_keeps_string_keys_witness :
  slice space64 (W_ArrayObject 1%positive) 1 2 false true mixed_keys_interpreter
  = (Ok (W_ArrayObject 2%positive),
     with_object mixed_keys_interpreter
       (CArray [(W_StringObject "b", W_IntObject 20); (W_IntObject 0, W_IntObject 30)])).
Proof.
  exact (slice_keeps_string_keys space64 mixed_keys_interpreter
           (W_ArrayObject 1%positive) (W_ArrayObject 1%positive)
           [(W_IntObject 5, W_IntObject 10); (W_StringObject "b", W_IntObject 20);
            (W_IntObject 7, W_IntObject 30)]
           1 2 eq_refl eq_refl eq_refl).
Defined.
